(** * awsome-ai-news: identity generation, date-sharded cache, exact
      deduplication and cross-day merge

    A shallow embedding of the cache core of the pipeline:
    - [Step1Ingestion]: [generate_slug] (src/steps/step1_ingestion.py);
    - [Step2Dedup]: [_load_cached_articles], [_save_articles_to_daily_cache]
      and [run_step2] (src/steps/step2_dedup.py);
    - [Step4MultiDedup]: [_merge_duplicate_news]
      (src/steps/step4_multi_dedup.py) over [NewsCluster]
      (src/models/news.py);
    - [Step0Cache]: [CacheManager] (src/utils/cache.py), the lock file and
      [run_step0] (src/steps/step0_cache.py);
    - [CacheEntries]: [CacheManager.save];
    - [Step1Run]: [apply_filters], what [fetch_single_feed] keeps and
      [run_step1] (src/steps/step1_ingestion.py);
    - [Step4Run]: [_load_cached_news], [_save_news_to_cache] and
      [run_step4] (src/steps/step4_multi_dedup.py).

    Conventions.  A [datetime] is a number of microseconds on the time line
    (Python's resolution), so that [timedelta(days=d)] is [d * usec_per_day]
    and midnight of day [n] is [n * usec_per_day].  Python [set]s and
    [dict]s that are only looked up are [gset]/[gmap]; those whose iteration
    order reaches the output are lists.  Strings are [string]s of ASCII
    characters. *)

From Stdlib Require Import ZArith Lia Ascii String QArith.
From stdpp Require Import base option list gmap strings pretty sorting.

Local Open Scope string_scope.
Local Open Scope Z_scope.

(** ** Time *)

Definition usec_per_day : Z := 86400 * 1000000.

(** [timedelta(days=d)] *)
Definition timedelta_days (d : Z) : Z := d * usec_per_day.

(** Midnight of the day numbered [n]: what
    [datetime.strptime(s, "%Y-%m-%d")] returns for the name of day [n]. *)
Definition midnight (n : Z) : Z := n * usec_per_day.

(** The calendar day a [datetime] falls on, and its time of day. *)
Definition day_of (t : Z) : Z := t `div` usec_per_day.
Definition time_of_day (t : Z) : Z := t `mod` usec_per_day.

(** [timedelta.days]: whole days, rounded towards minus infinity. *)
Definition timedelta_whole_days (delta : Z) : Z := delta `div` usec_per_day.

(** ** Step 1: slug generation *)

Module Step1Ingestion.

(** src/constants.py *)
Definition SLUG_WORD_COUNT : nat := 4.
Definition SLUG_HASH_LENGTH : nat := 8.

(** Character classes of [re] on ASCII: [\s] and [\w]. *)
Definition is_space (c : ascii) : bool :=
  let n := nat_of_ascii c in
  ((9 <=? n) && (n <=? 13) || (28 <=? n) && (n <=? 32))%nat.

Definition is_word (c : ascii) : bool :=
  let n := nat_of_ascii c in
  ((48 <=? n) && (n <=? 57) || (65 <=? n) && (n <=? 90)
   || (97 <=? n) && (n <=? 122) || (n =? 95))%nat.

Definition is_dash (c : ascii) : bool := (nat_of_ascii c =? 45)%nat.

Definition lower_char (c : ascii) : ascii :=
  let n := nat_of_ascii c in
  if ((65 <=? n) && (n <=? 90))%nat then ascii_of_nat (n + 32) else c.

(** [str.lower()] *)
Definition lower (s : list ascii) : list ascii := lower_char <$> s.

(** [str.strip()] *)
Fixpoint lstrip (s : list ascii) : list ascii :=
  match s with
  | c :: s' => if is_space c then lstrip s' else s
  | [] => []
  end.
Definition strip (s : list ascii) : list ascii :=
  reverse (lstrip (reverse (lstrip s))).

(** [re.sub(r"[^\w\s-]", "", s)] *)
Definition drop_punctuation (s : list ascii) : list ascii :=
  List.filter (fun c => is_word c || is_space c || is_dash c) s.

(** [re.sub(cls + "+", rep, s)]: every maximal run of characters of the
    class becomes one [rep]. *)
Fixpoint collapse_runs (cls : ascii -> bool) (rep : ascii)
    (in_run : bool) (s : list ascii) : list ascii :=
  match s with
  | [] => []
  | c :: s' =>
      if cls c
      then (if in_run then [] else [rep]) ++ collapse_runs cls rep true s'
      else c :: collapse_runs cls rep false s'
  end.

(** [str.split()]: the maximal runs of non-space characters. *)
Fixpoint split_ws (cur : list ascii) (s : list ascii) : list (list ascii) :=
  match s with
  | [] => if cur is [] then [] else [reverse cur]
  | c :: s' =>
      if is_space c
      then (if cur is [] then [] else [reverse cur]) ++ split_ws [] s'
      else split_ws (c :: cur) s'
  end.

(** ["-".join(words)] *)
Fixpoint join_dash (ws : list (list ascii)) : list ascii :=
  match ws with
  | [] => []
  | [w] => w
  | w :: ws' => w ++ "-"%char :: join_dash ws'
  end.

Definition chars (s : string) : list ascii := list_ascii_of_string s.
Definition str (l : list ascii) : string := string_of_list_ascii l.

Inductive error := ValueError (msg : string).

Section GenerateSlug.
(** [hashlib.sha256(b).hexdigest()], a library function. *)
Variable sha256_hexdigest : string -> string.

(** The words of the slug, for a title of ASCII characters: on other
    characters Python's [lower], [\w] and [\s] follow Unicode, which these
    definitions do not. *)
Definition word_part (title : string) : string :=
  let normalized := strip (lower (chars title)) in
  let normalized := drop_punctuation normalized in
  let normalized := collapse_runs is_space " "%char false normalized in
  let normalized := collapse_runs is_dash "-"%char false normalized in
  str (join_dash (take SLUG_WORD_COUNT (split_ws [] normalized))).

Definition hash_part (title : string) : string :=
  let hash_input := str (strip (chars title)) in
  substring 0 SLUG_HASH_LENGTH (sha256_hexdigest hash_input).

Definition base_slug (title : string) : string :=
  word_part title ++ "-" ++ hash_part title.

(** [f"{base_slug}_{counter}"] *)
Definition variant (base : string) (counter : nat) : string :=
  base ++ "_" ++ pretty counter.

(** The [while slug in existing_slugs] loop, with the loop state
    [(slug, counter)]; [None] is the loop still running when the fuel
    is spent. *)
Fixpoint collision_loop (fuel : nat) (title base : string)
    (existing_slugs : gset string) (slug : string) (counter : nat)
    : option (error + string) :=
  match fuel with
  | O => None
  | S fuel' =>
      if decide (slug ∈ existing_slugs) then
        if (10 <=? counter)%nat
        then Some (inl (ValueError
               ("Too many slug collisions for title: " ++ title)))
        else collision_loop fuel' title base existing_slugs
               (variant base counter) (S counter)
      else Some (inr slug)
  end.

Definition generate_slug_fuel (fuel : nat) (title : string)
    (existing_slugs : gset string) : option (error + string) :=
  let base := base_slug title in
  collision_loop fuel title base existing_slugs base 1.

(** Eleven iterations are enough on every input (see
    [collision_loop_total]). *)
Definition generate_slug (title : string) (existing_slugs : gset string)
    : option (error + string) :=
  generate_slug_fuel 11 title existing_slugs.

(** The k-th candidate the loop tests: the base slug, then its
    suffixed variants. *)
Definition candidate (base : string) (k : nat) : string :=
  match k with O => base | S _ => variant base k end.

Definition raises_collisions (r : option (error + string)) : Prop :=
  exists msg, r = Some (inl (ValueError msg)).
End GenerateSlug.

End Step1Ingestion.


(** ** Python dictionaries whose iteration order matters *)

Module PyDict.
Section Dict.
Context {V : Type}.

(** [d[k] = v]: an existing key keeps its position and takes the new
    value, a new key goes last. *)
Fixpoint setitem (d : list (string * V)) (k : string) (v : V)
    : list (string * V) :=
  match d with
  | [] => [(k, v)]
  | (k', v') :: d' =>
      if decide (k' = k) then (k, v) :: d' else (k', v') :: setitem d' k v
  end.

(** [for x in xs: d[key(x)] = x], also the comprehension
    [{key(x): x for x in xs}] from the empty dictionary. *)
Definition update (key : V -> string) (d : list (string * V)) (xs : list V)
    : list (string * V) :=
  foldl (fun d x => setitem d (key x) x) d xs.

(** Every entry is filed under the key of its value. *)
Definition well_keyed (key : V -> string) (d : list (string * V)) : Prop :=
  Forall (fun kv => key kv.2 = kv.1) d.

(** [list(d.values())] and [list(d.keys())] *)
Definition values (d : list (string * V)) : list V := d.*2.
Definition keys (d : list (string * V)) : list string := d.*1.
End Dict.
End PyDict.

(** ** Step 2: exact deduplication against the daily article shards *)

Module Step2Dedup.

(** src/models/articles.py.  A value of this record is a validated
    instance: pydantic has already checked its fields. *)
Record ProcessedArticle := {
  title : string;
  url : string;
  published_date : option Z;
  content : option string;
  author : option string;
  feed_name : string;
  feed_priority : Z;
  slug : string;
  content_hash : string;
}.

(** [CachedArticlesDay] *)
Record CachedArticlesDay := {
  date : Z;
  articles : list ProcessedArticle;
  total_count : Z;
}.

(** The text of a shard file, by what
    [json.loads(cache_file.read_text())] makes of it: not JSON at all;
    JSON that is not an object with a [date], a list of valid articles
    under [articles] and an integer [total_count]; such an object; or a
    body on which reading or parsing raises something other than a
    [JSONDecodeError]: bytes that are not UTF-8 ([UnicodeDecodeError]), an
    integer literal longer than the digit limit ([ValueError]), nesting
    deeper than the recursion limit ([RecursionError]). *)
Inductive shard_text :=
| NotJson
| OtherJson
| DayJson (day : CachedArticlesDay)
| Unreadable.

Inductive load_error := JSONDecodeError | ValidationError | OtherException.

(** [CachedArticlesDay.model_validate(json.loads(cache_file.read_text()))]:
    the field constraint [total_count >= 0] and [model_post_init], whose
    [ValueError] pydantic reports as a [ValidationError]. *)
Definition parse_day (text : shard_text) : load_error + CachedArticlesDay :=
  match text with
  | NotJson => inl JSONDecodeError
  | OtherJson => inl ValidationError
  | DayJson day =>
      if (0 <=? total_count day)
         && (total_count day =? Z.of_nat (length (articles day)))
      then inr day else inl ValidationError
  | Unreadable => inl OtherException
  end.

(** [json.dumps(cached_day.model_dump(mode="json"))] *)
Definition dump_day (day : CachedArticlesDay) : shard_text := DayJson day.

(** The [*.json] files of a cache directory, by stem. *)
Abbreviation directory := (gmap string shard_text).

(** [sorted(cache_dir.glob("*.json"))]: paths of one directory sort by
    file name. *)
Definition name_le (a b : string * shard_text) : Prop :=
  String.leb (a.1 ++ ".json") (b.1 ++ ".json") = true.

#[global] Instance name_le_dec : RelDecision name_le.
Proof. intros a b. unfold name_le. apply _. Defined.

Definition sorted_glob (dir : directory) : list (string * shard_text) :=
  merge_sort name_le (map_to_list dir).

Record load_stats := {
  files_loaded : nat;
  files_corrupted : nat;
}.

Record DeduplicationStats := {
  input_articles : nat;
  cache_articles : nat;
  duplicates_found : nat;
  unique_articles_count : nat;
  deduplication_rate : Q;
  cache_files_loaded : nat;
  cache_files_corrupted : nat;
}.

Record Step2Result := {
  success : bool;
  unique_articles : list ProcessedArticle;
  stats : DeduplicationStats;
  cache_updated : bool;
  errors : list string;
}.

Section Dates.
(** [datetime.strptime(stem, "%Y-%m-%d")]: the number of the day the
    name spells, [None] for the [ValueError] on any other name; and
    [f"{today:%Y-%m-%d}"] on a day number. *)
Variable strptime : string -> option Z.
Variable strftime : Z -> string.

(** What one turn of the loop of [_load_cached_articles] does with a
    file. *)
Inductive file_outcome :=
| Skipped
| Corrupted
| Loaded (arts : list ProcessedArticle).

Definition read_cache_file (cutoff_date : Z) (stem : string)
    (text : shard_text) : file_outcome :=
  match strptime stem with
  | None => Corrupted
  | Some day =>
      let file_date := midnight day in
      if file_date <? cutoff_date then Skipped
      else match parse_day text with
           | inl _ => Corrupted
           | inr cached_day => Loaded (articles cached_day)
           end
  end.

Definition load_step (cutoff_date : Z)
    (acc : list ProcessedArticle * load_stats) (file : string * shard_text)
    : list ProcessedArticle * load_stats :=
  let '(arts, st) := acc in
  match read_cache_file cutoff_date file.1 file.2 with
  | Skipped => (arts, st)
  | Corrupted =>
      (arts, {| files_loaded := files_loaded st;
                files_corrupted := S (files_corrupted st) |})
  | Loaded day_arts =>
      ((arts ++ day_arts)%list,
       {| files_loaded := S (files_loaded st);
          files_corrupted := files_corrupted st |})
  end.

(** What a file adds to the list of articles. *)
Definition outcome_articles (o : file_outcome) : list ProcessedArticle :=
  match o with Loaded arts => arts | _ => [] end.

(** [_load_cached_articles(cache_dir, cutoff_date)]; [None] is a cache
    directory that does not exist. *)
Definition _load_cached_articles (cache_dir : option directory)
    (cutoff_date : Z) : list ProcessedArticle * load_stats :=
  let start := ([], {| files_loaded := 0; files_corrupted := 0 |}) in
  match cache_dir with
  | None => start
  | Some dir => foldl (load_step cutoff_date) start (sorted_glob dir)
  end.

(** The inner [try] of [_save_articles_to_daily_cache]: the articles of
    the existing file; none when there is no file, and none when the
    handler for [JSONDecodeError] and [ValidationError] catches the
    failure to read it.  [None] is any other exception, which the inner
    handler lets through. *)
Definition existing_articles_of (file : option shard_text)
    : option (list ProcessedArticle) :=
  match file with
  | None => Some []
  | Some text =>
      match parse_day text with
      | inr existing_day => Some (articles existing_day)
      | inl JSONDecodeError | inl ValidationError => Some []
      | inl OtherException => None
      end
  end.

(** [_save_articles_to_daily_cache(articles, cache_file)] at time [now],
    [cache_file] being the file of stem [stem] in [dir].  Returns the
    flag and the directory afterwards: an exception that escapes the
    inner handler is caught by the outer one, which returns [False]
    before anything is written. *)
Definition _save_articles_to_daily_cache (now : Z)
    (new_articles : list ProcessedArticle) (stem : string)
    (dir : directory) : bool * directory :=
  match existing_articles_of (dir !! stem) with
  | None => (false, dir)
  | Some existing_articles =>
      let all_articles_dict := PyDict.update slug [] existing_articles in
      let all_articles_dict :=
        PyDict.update slug all_articles_dict new_articles in
      let all_articles := PyDict.values all_articles_dict in
      let cached_day := {| date := now; articles := all_articles;
                           total_count := Z.of_nat (length all_articles) |} in
      (true, <[stem := dump_day cached_day]> dir)
  end.

(** The deduplication loop of [run_step2], with the loop state
    [(slug_map, unique_articles, duplicates)]. *)
Fixpoint dedup_loop (todo : list ProcessedArticle)
    (slug_map : gmap string ProcessedArticle)
    (unique : list ProcessedArticle) (duplicates : nat)
    : gmap string ProcessedArticle * list ProcessedArticle * nat :=
  match todo with
  | [] => (slug_map, unique, duplicates)
  | article :: rest =>
      if decide (is_Some (slug_map !! slug article))
      then dedup_loop rest slug_map unique (S duplicates)
      else dedup_loop rest (<[slug article := article]> slug_map)
             (unique ++ [article])%list duplicates
  end.

(** [{art.slug: art for art in cached_articles}] *)
Definition slug_map_of (cached : list ProcessedArticle)
    : gmap string ProcessedArticle :=
  foldl (fun m art => <[slug art := art]> m) ∅ cached.

(** [duplicates / len(articles) if articles else 0.0], as a rational. *)
Definition dedup_rate (duplicates : nat) (input : list ProcessedArticle) : Q :=
  match input with
  | [] => 0%Q
  | _ :: _ => (Z.of_nat duplicates # Pos.of_nat (length input))%Q
  end.

(** [run_step2(config, articles, cache_manager)] on the [articles]
    subdirectory [dir] of the cache (created when missing); [now_load]
    and [now_save] are the clock readings taken for the cutoff and for
    today's file.  Returns the result and the directory afterwards. *)
Definition run_step2 (now_load now_save : Z)
    (input : list ProcessedArticle) (dir : directory)
    : Step2Result * directory :=
  let cutoff_date := now_load - timedelta_days 10 in
  let '(cached_articles, st) := _load_cached_articles (Some dir) cutoff_date in
  let '(_, unique, duplicates) :=
    dedup_loop input (slug_map_of cached_articles) [] 0 in
  let stats := {|
    input_articles := length input;
    cache_articles := length cached_articles;
    duplicates_found := duplicates;
    unique_articles_count := length unique;
    deduplication_rate := dedup_rate duplicates input;
    cache_files_loaded := files_loaded st;
    cache_files_corrupted := files_corrupted st |} in
  let '(updated, dir') :=
    match unique with
    | [] => (false, dir)
    | _ :: _ =>
        _save_articles_to_daily_cache now_save unique
          (strftime (day_of now_save)) dir
    end in
  ({| success := true; unique_articles := unique; stats := stats;
      cache_updated := updated; errors := [] |}, dir').
End Dates.

(** The articles of the shard [stem] as they can be read back. *)
Definition shard_articles (dir : directory) (stem : string)
    : list ProcessedArticle :=
  match dir !! stem with
  | Some text => match parse_day text with
                 | inr day => articles day
                 | inl _ => []
                 end
  | None => []
  end.

End Step2Dedup.

(** ** Iteration order of Python sets *)

(** [list(set(xs))] lists every element of [xs] once, in an order the
    language leaves to the hash table.  The merge is stated for any such
    order. *)
Class PySetOrder := {
  list_of_set : list string -> list string;
  list_of_set_NoDup : forall xs, NoDup (list_of_set xs);
  elem_of_list_of_set : forall xs x, x ∈ list_of_set xs <-> x ∈ xs;
}.

(** One such order: first occurrences, left to right. *)
Definition first_occurrence_order : PySetOrder :=
  {| list_of_set := remove_dups;
     list_of_set_NoDup := NoDup_remove_dups;
     elem_of_list_of_set := fun xs x => elem_of_remove_dups xs x |}.

(** ** Step 4: merging duplicate news across days *)

Module Step4MultiDedup.

(** src/models/news.py *)
Record NewsCluster := {
  news_id : string;
  title : string;
  summary : string;
  article_slugs : list string;
  article_count : Z;
  main_topic : string;
  keywords : list string;
  created_at : Z;
  updated_at : option Z;
}.

Record NewsDeduplicationPair := {
  news_today_id : string;
  news_cached_id : string;
  merge_reason : string;
}.

(** [==] on pydantic models of one class compares the fields. *)
#[global] Instance NewsCluster_eq_dec : EqDecision NewsCluster.
Proof. solve_decision. Defined.

(** The constraints pydantic checks when a [NewsCluster] is built:
    [min_length] of [title] and [summary], [article_count >= 1] and the
    validator [validate_count_matches_slugs].  [keywords] carries no
    constraint. *)
Definition validates (c : NewsCluster) : bool :=
  (10 <=? String.length (title c))%nat
  && (50 <=? String.length (summary c))%nat
  && (1 <=? article_count c)
  && (article_count c =? Z.of_nat (length (article_slugs c))).

(** [NewsCluster(...)]; [None] is the [ValidationError]. *)
Definition NewsCluster_new (c : NewsCluster) : option NewsCluster :=
  if validates c then Some c else None.

(** [{news.news_id: news for news in news_list}] *)
Definition index_by_id (news_list : list NewsCluster)
    : gmap string NewsCluster :=
  foldl (fun m news => <[news_id news := news]> m) ∅ news_list.

(** The [for i, news in enumerate(result_news)] loop that overwrites the
    first entry with the given id and breaks. *)
Fixpoint replace_first (id : string) (updated_news : NewsCluster)
    (result_news : list NewsCluster) : list NewsCluster :=
  match result_news with
  | [] => []
  | news :: rest =>
      if decide (news_id news = id) then updated_news :: rest
      else news :: replace_first id updated_news rest
  end.

(** [[n for n in result_news if n.news_id != id]] *)
Definition remove_id (id : string) (result_news : list NewsCluster)
    : list NewsCluster :=
  filter (fun n => news_id n ≠ id) result_news.

(** Loop state of [_merge_duplicate_news]; [clock_reads] counts the calls
    of [datetime.utcnow()] so far. *)
Record merge_state := {
  result_news : list NewsCluster;
  merged_today_ids : gset string;
  clock_reads : nat;
}.

(** [if today_item.article_count >= cached_item.article_count]:
    the pair [(base, to_merge)]. *)
Definition choose_base (today_item cached_item : NewsCluster)
    : NewsCluster * NewsCluster :=
  if article_count cached_item <=? article_count today_item
  then (today_item, cached_item)
  else (cached_item, today_item).

Section Merge.
Context {set_order : PySetOrder}.
(** The successive readings of [datetime.utcnow()]. *)
Variable utcnow : nat -> Z.

Definition build_updated (base to_merge : NewsCluster) (now : Z)
    : option NewsCluster :=
  let merged_slugs :=
    list_of_set (article_slugs base ++ article_slugs to_merge) in
  NewsCluster_new {|
    news_id := news_id base;
    title := title base;
    summary := summary base;
    article_slugs := merged_slugs;
    article_count := Z.of_nat (length merged_slugs);
    main_topic := main_topic base;
    keywords := take 10 (list_of_set (keywords base ++ keywords to_merge));
    created_at := created_at base;
    updated_at := Some now |}.

(** One turn of the loop over [duplicate_pairs]. *)
Definition merge_pair (today_map cached_map : gmap string NewsCluster)
    (st : merge_state) (pair : NewsDeduplicationPair)
    : option merge_state :=
  match today_map !! news_today_id pair, cached_map !! news_cached_id pair with
  | Some today_item, Some cached_item =>
      let '(base, to_merge) := choose_base today_item cached_item in
      updated_news ← build_updated base to_merge (utcnow (clock_reads st));
      let result' :=
        if decide (base = cached_item)
        then replace_first (news_id cached_item) updated_news (result_news st)
        else (remove_id (news_id cached_item) (result_news st)
                ++ [updated_news])%list in
      Some {| result_news := result';
              merged_today_ids := {[news_today_id pair]} ∪ merged_today_ids st;
              clock_reads := S (clock_reads st) |}
  | _, _ => Some st
  end.

Fixpoint merge_loop (today_map cached_map : gmap string NewsCluster)
    (duplicate_pairs : list NewsDeduplicationPair) (st : merge_state)
    : option merge_state :=
  match duplicate_pairs with
  | [] => Some st
  | p :: rest =>
      st' ← merge_pair today_map cached_map st p;
      merge_loop today_map cached_map rest st'
  end.

(** [_merge_duplicate_news(today_news, cached_news, duplicate_pairs)];
    [None] is a [ValidationError] escaping from the call. *)
Definition _merge_duplicate_news (today_news cached_news : list NewsCluster)
    (duplicate_pairs : list NewsDeduplicationPair)
    : option (list NewsCluster) :=
  let today_map := index_by_id today_news in
  let cached_map := index_by_id cached_news in
  st ← merge_loop today_map cached_map duplicate_pairs
         {| result_news := cached_news; merged_today_ids := ∅;
            clock_reads := 0 |};
  Some (result_news st
          ++ filter (fun news => news_id news ∉ merged_today_ids st) today_news)%list.
End Merge.

(** What a merged cluster takes over from its base. *)
Definition keeps_identity_of (merged base : NewsCluster) : Prop :=
  news_id merged = news_id base /\ title merged = title base /\
  summary merged = summary base /\ main_topic merged = main_topic base /\
  created_at merged = created_at base.

(** The two invariants asked of the clusters of a result. *)
Definition keywords_bounded (c : NewsCluster) : Prop :=
  (length (keywords c) <= 10)%nat.
Definition count_matches (c : NewsCluster) : Prop :=
  article_count c = Z.of_nat (length (article_slugs c)).


(** A cluster of a result is either one of the inputs, passed through as it
came, or a cluster built by a merge, which carries an [updated_at]. *)
Definition passed_or_merged (today_news cached_news : list NewsCluster)
    (c : NewsCluster) : Prop :=
  c ∈ today_news \/ c ∈ cached_news \/
  (keywords_bounded c /\ is_Some (updated_at c)).

(** What every entry of [result_news] satisfies throughout the loop. *)
Definition sound_entry (today_news cached_news : list NewsCluster)
    (c : NewsCluster) : Prop :=
  validates c = true /\ passed_or_merged today_news cached_news c.

End Step4MultiDedup.

(** ** The cache directory: [CacheManager], the lock file, backups *)

(** A file of the cache directory as [CacheManager.get_age] reads it:
    an entry [{"data": ..., "cached_at": t}] as [CacheManager.save] writes
    it, or any other content (no [cached_at] to be read). *)
Inductive cache_file :=
| Entry (cached_at : Z)
| Unparsed.

(** The cache directory: its regular files by path relative to the
    directory (["news.json"], ["news/news_2024-06-01.json"]), the
    modification time of [.lock] when it exists, and the snapshot
    directories under [cache_backups], by their time stamp in seconds. *)
Record cache_fs := {
  files : gmap string cache_file;
  lock_file : option Z;
  backups : list Z;
}.

(** A small state-and-exception monad for the code that works on the cache
    directory. *)
Module Fs.
Inductive outcome (A : Type) :=
| Return (a : A)
| Raise (msg : string).
Arguments Return {A} a.
Arguments Raise {A} msg.

Definition M (A : Type) : Type := cache_fs -> outcome A * cache_fs.

Definition ret {A} (a : A) : M A := fun fs => (Return a, fs).
Definition raise {A} (msg : string) : M A := fun fs => (Raise msg, fs).
Definition bind {A B} (m : M A) (k : A -> M B) : M B :=
  fun fs => match m fs with
            | (Return a, fs') => k a fs'
            | (Raise msg, fs') => (Raise msg, fs')
            end.
Definition get : M cache_fs := fun fs => (Return fs, fs).
Definition put (fs' : cache_fs) : M unit := fun _ => (Return tt, fs').

(** [try: m except Exception as e: handler(e)] *)
Definition try_except {A} (m : M A) (handler : string -> M A) : M A :=
  fun fs => match m fs with
            | (Return a, fs') => (Return a, fs')
            | (Raise msg, fs') => handler msg fs'
            end.

(** [try: m finally: cleanup]; the clean-up runs on every way out of
    [m], a [return] included, and the outcome of [m] stands unless the
    clean-up itself raises. *)
Definition try_finally {A} (m : M A) (cleanup : M unit) : M A :=
  fun fs => match m fs with
            | (r, fs') => match cleanup fs' with
                          | (Return _, fs'') => (r, fs'')
                          | (Raise msg, fs'') => (Raise msg, fs'')
                          end
            end.
End Fs.

#[global] Instance Fs_ret : MRet Fs.M := @Fs.ret.
#[global] Instance Fs_bind : MBind Fs.M := fun A B k m => Fs.bind m k.

Module CacheManager.
Import Fs.

(** [self.cache_dir / f"{key}.json"] *)
Definition _get_cache_path (key : string) : string := key ++ ".json".

(** [CacheManager.exists] *)
Definition cache_exists (key : string) : M bool :=
  fs ← get; ret (bool_decide (is_Some (files fs !! _get_cache_path key))).

(** [CacheManager.get_age] at clock reading [now]: [None] when the file
    is missing or no [cached_at] can be read from it. *)
Definition get_age (now : Z) (key : string) : M (option Z) :=
  fs ← get;
  ret match files fs !! _get_cache_path key with
      | Some (Entry cached_at) => Some (now - cached_at)
      | Some Unparsed => None
      | None => None
      end.

(** [CacheManager.is_fresh] *)
Definition is_fresh (now : Z) (key : string) (max_age_days : Z) : M bool :=
  age ← get_age now key;
  ret match age with
      | None => false
      | Some age => timedelta_whole_days age <? max_age_days
      end.

(** [CacheManager.delete] *)
Definition delete (key : string) : M unit :=
  fs ← get;
  put {| files := base.delete (_get_cache_path key) (files fs);
         lock_file := lock_file fs; backups := backups fs |}.

(** [CacheManager.cleanup]; the dictionary [retention_days] is walked in
    insertion order.  Returns the counter [cleaned] the method logs. *)
Fixpoint cleanup_loop (now : Z) (retention_days : list (string * Z))
    (cleaned : nat) : M nat :=
  match retention_days with
  | [] => ret cleaned
  | (key, max_days) :: rest =>
      present ← cache_exists key;
      fresh ← (if present then is_fresh now key max_days else ret true);
      if present && negb fresh
      then delete key ;; cleanup_loop now rest (S cleaned)
      else cleanup_loop now rest cleaned
  end.

Definition cleanup (now : Z) (retention_days : list (string * Z)) : M nat :=
  cleanup_loop now retention_days 0.

(** The stem of a path that [cache_dir.glob("*.json")] matches: a name
    directly in the directory that ends in [.json]. *)
Definition top_level_stem (path : string) : option string :=
  let n := String.length path in
  if forallb (fun c => negb (Ascii.eqb c "/")) (list_ascii_of_string path)
     && (5 <=? n)%nat
     && String.eqb (substring (n - 5) 5 path) ".json"
  then Some (substring 0 (n - 5) path) else None.

(** [[p.stem for p in self.cache_dir.glob("*.json")]] *)
Definition top_level_keys (fs : cache_fs) : list string :=
  omap top_level_stem (elements (dom (files fs))).

(** [CacheManager.list_all] *)
Definition list_all : M (list string) :=
  fs ← get; ret (top_level_keys fs).
(** The files [cleanup] is after: the entry of [key] exists and is not
    fresh, that is, its age in whole days has reached [max_days] or no
    age can be read from it. *)
Definition stale (now : Z) (fs : cache_fs) (key : string) (max_days : Z)
    : bool :=
  match files fs !! _get_cache_path key with
  | Some (Entry cached_at) =>
      negb (timedelta_whole_days (now - cached_at) <? max_days)
  | Some Unparsed => true
  | None => false
  end.

Definition doomed (now : Z) (fs : cache_fs)
    (retention_days : list (string * Z)) (path : string) : bool :=
  existsb (fun kd => String.eqb path (_get_cache_path kd.1)
                     && stale now fs kd.1 kd.2) retention_days.

(** The path of a date shard: a file directly under the subdirectory of
    its category. *)
Definition shard_path (category name : string) : string :=
  category ++ "/" ++ name ++ ".json".

Definition has_slash (path : string) : bool :=
  existsb (fun c => Ascii.eqb c "/") (list_ascii_of_string path).
End CacheManager.

(** ** Step 0: lock, backup and clean-up *)

Module Step0Cache.
Import Fs.

Record Step0Config := {
  retention : gmap string Z;
  backup_on_error : bool;
  cleanup_on_start : bool;
}.

Record Step0Result := {
  success : bool;
  cache_cleaned : Z;
  cache_backed_up : bool;
  errors : list string;
}.

(** What [shutil.copytree] does with the snapshot of a backup: the copy
    goes through; it raises before the directory of the snapshot exists
    (the cache cannot be listed, the directory cannot be made); or it
    raises after having made the directory, which stays behind, partly
    filled. *)
Inductive copy_outcome := Copied | FailedBefore | FailedPartway.

(** What the run meets outside the cache directory: the [check_gemini]
    argument and the answer of [verify_gemini_health], the answer of
    [verify_repo_permissions], whether [cache_dir.mkdir] goes through,
    how the copy of the backup ends, and the clock. *)
Record environment := {
  check_gemini : bool;
  gemini_healthy : bool;
  repo_writable : bool;
  mkdir_ok : bool;
  copytree : copy_outcome;
  now : Z;
}.

(** The copy of the backup goes through. *)
Definition copytree_ok (env : environment) : bool :=
  match copytree env with Copied => true | _ => false end.

Definition usec_per_sec : Z := 1000000.

(** [acquire_lock_file(cache_dir)] at clock reading [now] *)
Definition acquire_lock_file (now : Z) : M bool :=
  fs ← get;
  let write_lock :=
    put {| files := files fs; lock_file := Some now; backups := backups fs |} ;;
    ret true in
  match lock_file fs with
  | Some mtime =>
      let lock_age := now - mtime in
      if 3600 * usec_per_sec <? lock_age then write_lock else ret false
  | None => write_lock
  end.

(** [release_lock_file(cache_dir)] *)
Definition release_lock_file : M unit :=
  fs ← get;
  match lock_file fs with
  | Some _ =>
      put {| files := files fs; lock_file := None; backups := backups fs |}
  | None => ret tt
  end.

(** [_backup_cache(cache_manager)]: a snapshot named after the second of
    [now] (one of that name is written over), then all but the last five
    of the sorted snapshots removed.  An exception of the copy leaves the
    function before the old snapshots are looked at, and after the new
    directory was made when the copy failed part-way.  The cache
    directory exists, as it does where [run_step0] calls the function. *)
Definition _backup_cache (env : environment) : M unit :=
  fs ← get;
  let stamp := now env `div` usec_per_sec in
  let copied := stamp :: filter (fun b => b ≠ stamp) (backups fs) in
  match copytree env with
  | FailedBefore => raise "copytree failed"
  | FailedPartway =>
      put {| files := files fs; lock_file := lock_file fs;
             backups := copied |} ;;
      raise "copytree failed"
  | Copied =>
      let snapshots := merge_sort Z.le copied in
      let kept :=
        if (5 <? length snapshots)%nat
        then drop (length snapshots - 5) snapshots else snapshots in
      put {| files := files fs; lock_file := lock_file fs; backups := kept |}
  end.

(** [config.retention[key]]; a missing key raises [KeyError]. *)
Definition retention_of (config : Step0Config) (key : string) : M Z :=
  match retention config !! key with
  | Some days => ret days
  | None => raise ("'" ++ key ++ "'")
  end.

(** The dictionary [retention_policy] of [run_step0]. *)
Definition step0_policy (articles_days news_days : Z) : list (string * Z) :=
  [("articles", articles_days); ("news", news_days);
   ("processed_articles", articles_days);
   ("clustered_articles", articles_days);
   ("selected_articles", news_days); ("enhanced_news", news_days)].

Definition retention_policy (config : Step0Config) : M (list (string * Z)) :=
  a1 ← retention_of config "articles_days";
  n1 ← retention_of config "news_days";
  a2 ← retention_of config "articles_days";
  a3 ← retention_of config "articles_days";
  n2 ← retention_of config "news_days";
  n3 ← retention_of config "news_days";
  ret [("articles", a1); ("news", n1); ("processed_articles", a2);
       ("clustered_articles", a3); ("selected_articles", n2);
       ("enhanced_news", n3)].

(** The reading of clean-up under test: every shard of a configured
    category whose age exceeds the retention is gone after [cleanup]. *)
Definition cleanup_removes_old_shards : Prop :=
  forall (now : Z) (retention_days : list (string * Z)) (fs : cache_fs)
         (category name : string) (days cached_at : Z),
    (category, days) ∈ retention_days ->
    files fs !! CacheManager.shard_path category name = Some (Entry cached_at) ->
    days < timedelta_whole_days (now - cached_at) ->
    files (CacheManager.cleanup now retention_days fs).2
      !! CacheManager.shard_path category name = None.

Definition lock_failed_result : Step0Result :=
  {| success := false; cache_cleaned := 0; cache_backed_up := false;
     errors := ["Failed to acquire lock file - another instance may be running"] |}.

(** The body of the [try] of [run_step0]. *)
Definition run_step0_body (config : Step0Config) (env : environment)
    : M Step0Result :=
  acquired ← acquire_lock_file (now env);
  if negb acquired then ret lock_failed_result else
  let errors0 :=
    if check_gemini env && negb (gemini_healthy env)
    then ["Gemini API health check failed - API may be unavailable"] else [] in
  let errors1 :=
    if negb (repo_writable env)
    then (errors0 ++ ["Repository write permissions check failed"])%list
    else errors0 in
  (if mkdir_ok env then ret tt else raise "mkdir failed") ;;
  '(backed_up, errors2) ←
    (if backup_on_error config
     then try_except (_backup_cache env ;; ret (true, errors1))
            (fun e => ret (false, (errors1 ++ [String.append "Cache backup failed: " e])%list))
     else ret (false, errors1));
  '(cleaned, errors3) ←
    (if cleanup_on_start config
     then try_except
            (policy ← retention_policy config;
             initial ← CacheManager.list_all;
             CacheManager.cleanup (now env) policy ;;
             final ← CacheManager.list_all;
             ret (Z.of_nat (length initial) - Z.of_nat (length final), errors2))
            (fun e => ret (0, (errors2 ++ [String.append "Cache cleanup failed: " e])%list))
     else ret (0, errors2));
  ret {| success := bool_decide (errors3 = []); cache_cleaned := cleaned;
         cache_backed_up := backed_up; errors := errors3 |}.

(** [run_step0(config, cache_manager, api_key, check_gemini)] *)
Definition run_step0 (config : Step0Config) (env : environment)
    : M Step0Result :=
  try_finally
    (try_except (run_step0_body config env)
       (fun e => ret {| success := false; cache_cleaned := 0;
                        cache_backed_up := false;
                        errors := [String.append "Critical failure: " e] |}))
    release_lock_file.
End Step0Cache.

(** ** Sample data *)

Module Samples.
Import Step4MultiDedup.

(** The clock of the examples: one second between readings. *)
Definition clock (n : nat) : Z := 1719000000000000 + Z.of_nat n * 1000000.

Definition cluster (id ttl : string) (slugs kws : list string) : NewsCluster :=
  {| news_id := id; title := ttl;
     summary := "OpenAI announces the release of GPT-5 with major improvements.";
     article_slugs := slugs; article_count := Z.of_nat (length slugs);
     main_topic := "model release"; keywords := kws;
     created_at := 1718900000000000; updated_at := None |}.

Definition judgment (today_id cached_id : string) : NewsDeduplicationPair :=
  {| news_today_id := today_id; news_cached_id := cached_id;
     merge_reason := "Both about GPT-5 release" |}.

(** Today's clusters, one article each. *)
Definition today_gpt5 : NewsCluster :=
  cluster "news-today-0001234" "GPT-5 Released by OpenAI"
    ["openai-gpt5-release"] ["GPT-5"; "OpenAI"; "release"].
Definition today_gpt5_bis : NewsCluster :=
  cluster "news-today-0005678" "GPT-5 Launch Event Recap"
    ["gpt5-launch-recap"] ["GPT-5"; "launch"].

(** Cached clusters: one article, and three articles. *)
Definition cached_gpt5 : NewsCluster :=
  cluster "news-cache-0001111" "OpenAI Unveils GPT-5"
    ["openai-unveils-gpt5"] ["GPT-5"; "OpenAI"; "model"].
Definition cached_gpt5_large : NewsCluster :=
  cluster "news-cache-0003333" "OpenAI Unveils GPT-5"
    ["openai-unveils-gpt5"; "gpt5-first-look"; "gpt5-benchmarks"]
    ["GPT-5"; "OpenAI"; "model"].

(** A cached cluster with eleven keywords. *)
Definition cached_wordy : NewsCluster :=
  cluster "news-cache-0002222" "Google Gemini 2.0 Update"
    ["google-gemini-2-update"]
    ["k01"; "k02"; "k03"; "k04"; "k05"; "k06"; "k07"; "k08"; "k09"; "k10";
     "k11"].

(** The first days of June 2024 and their day numbers (days since
    1970-01-01): the calendar the examples read file names with. *)
Definition june_2024 : list (string * Z) :=
  [("2024-06-01", 19875); ("2024-06-02", 19876); ("2024-06-03", 19877);
   ("2024-06-04", 19878); ("2024-06-05", 19879); ("2024-06-06", 19880);
   ("2024-06-07", 19881); ("2024-06-08", 19882); ("2024-06-09", 19883);
   ("2024-06-10", 19884); ("2024-06-11", 19885); ("2024-06-12", 19886)].

Definition strptime (stem : string) : option Z :=
  snd <$> List.find (fun entry => String.eqb entry.1 stem) june_2024.

Definition strftime (day : Z) : string :=
  default "1970-01-01"
    (fst <$> List.find (fun entry => Z.eqb entry.2 day) june_2024).

(** 2024-06-10 at noon. *)
Definition june_10_noon : Z := midnight 19884 + 12 * 3600 * 1000000.

Definition article (s : string) : Step2Dedup.ProcessedArticle :=
  {| Step2Dedup.title := "GPT-5 Released by OpenAI";
     Step2Dedup.url := "https://example.com/" ++ s;
     Step2Dedup.published_date := None;
     Step2Dedup.content := None;
     Step2Dedup.author := None;
     Step2Dedup.feed_name := "Example Feed";
     Step2Dedup.feed_priority := 5;
     Step2Dedup.slug := s;
     Step2Dedup.content_hash := "5f2c8a91" |}.

(** A well-formed shard written at [written_at]. *)
Definition shard (written_at : Z) (slugs : list string)
    : Step2Dedup.shard_text :=
  Step2Dedup.DayJson
    {| Step2Dedup.date := written_at;
       Step2Dedup.articles := article <$> slugs;
       Step2Dedup.total_count := Z.of_nat (length slugs) |}.
End Samples.

(** ** Counting the files of a cache directory by what loading makes of them *)

Module Step2Counts.
Import Step2Dedup.

Definition is_loaded (o : file_outcome) : bool :=
  match o with Loaded _ => true | _ => false end.
Definition is_corrupted (o : file_outcome) : bool :=
  match o with Corrupted => true | _ => false end.
Definition is_skipped (o : file_outcome) : bool :=
  match o with Skipped => true | _ => false end.

(** The number of files of [dir] whose outcome is of the given kind. *)
Definition files_with (strptime : string -> option Z) (cutoff_date : Z)
    (kind : file_outcome -> bool) (dir : directory) : nat :=
  length (filter
            (fun file : string * shard_text =>
               kind (read_cache_file strptime cutoff_date file.1 file.2) = true)
            (map_to_list dir)).

End Step2Counts.
(** ** Writing a cache entry *)

Module CacheEntries.
Import Fs CacheManager.

(** [CacheManager.save] at clock reading [now]: the file of [key] is
    written anew with [cached_at] set to [now]. *)
Definition save (now : Z) (key : string) : M unit :=
  fs ← get;
  put {| files := <[_get_cache_path key := Entry now]> (files fs);
         lock_file := lock_file fs; backups := backups fs |}.

End CacheEntries.

(** ** The warnings of step 0 *)

Module Step0Warnings.
Import Step0Cache.
Local Open Scope list_scope.

(** The list [errors] of [run_step0] after the two checks that come
    before the backup: the Gemini check, when asked for, and the
    permission check. *)
Definition step0_warnings (env : environment) : list string :=
  (if check_gemini env && negb (gemini_healthy env)
   then ["Gemini API health check failed - API may be unavailable"] else [])
  ++ (if negb (repo_writable env)
      then ["Repository write permissions check failed"] else []).

End Step0Warnings.
(** ** Judgments that name clusters of both lists *)

Module Step4Judgments.
Import Step4MultiDedup.

(** A judgment resolves when its two ids are ids of a cluster of today
    and of a cached cluster: the two [.get] of the loop both find
    something. *)
Definition resolves (today_news cached_news : list NewsCluster)
    (pair : NewsDeduplicationPair) : Prop :=
  news_today_id pair ∈ news_id <$> today_news /\
  news_cached_id pair ∈ news_id <$> cached_news.

#[global] Instance resolves_dec today_news cached_news pair :
  Decision (resolves today_news cached_news pair).
Proof. unfold resolves. apply _. Defined.

(** The ids of today's clusters that a resolving judgment names. *)
Definition matched_today_ids (today_news cached_news : list NewsCluster)
    (duplicate_pairs : list NewsDeduplicationPair) : list string :=
  news_today_id <$> filter (resolves today_news cached_news) duplicate_pairs.

End Step4Judgments.
(** ** Step 1: filters, slug assignment and the result of a run *)

(** [sorted(xs, key=key, reverse=True)] and [xs.sort(key=key,
    reverse=True)] on integer keys: the stable sort, largest key first,
    elements of equal key in their original order. *)
Section SortedReverse.
Context {A : Type} (key : A -> Z).

Fixpoint insert_reverse (a : A) (l : list A) : list A :=
  match l with
  | [] => [a]
  | b :: l' => if key a <? key b then b :: insert_reverse a l' else a :: l
  end.

Definition sorted_reverse (l : list A) : list A := foldr insert_reverse [] l.
End SortedReverse.

Module Step1Run.
Import Step1Ingestion.

(** src/models/articles.py; a value of the record is a validated
    instance. *)
Record RawArticle := {
  title : string;
  url : string;
  published_date : option Z;
  content : option string;
  author : option string;
  feed_name : string;
  feed_priority : Z;
}.

(** src/models/config.py *)
Record FeedFilter := {
  whitelist_keywords : list string;
  blacklist_keywords : list string;
  whitelist_categories : list string;
  whitelist_regex : option string;
  blacklist_regex : option string;
  apply_to_fields : list string;
}.

Inductive feed_type_literal := specialized | generalist.

(** [FeedConfig]; its field [enabled] is [feed_enabled] here, next to
    [enabled] of [Step1Config]. *)
Record FeedConfig := {
  name : string;
  feed_type : feed_type_literal;
  feed_enabled : bool;
  priority : Z;
  filter : option FeedFilter;
}.

Record FeedsConfig := { feeds : list FeedConfig }.

Record Step1Config := {
  enabled : bool;
  max_articles_per_feed : Z;
}.

Record Step1Result := {
  success : bool;
  articles : list Step2Dedup.ProcessedArticle;
  feeds_fetched : nat;
  feeds_failed : nat;
  total_articles_raw : nat;
  articles_after_filter : nat;
  slug_collisions : nat;
  errors : list string;
}.

(** *** [apply_filters] *)

(** What [getattr(article, field, None)] gives: a string, [None] (also
    for a name that is no attribute, such as the default [description]),
    or a value that is no string. *)
Inductive attribute :=
| StrAttr (s : string)
| NoneAttr
| OtherAttr.

Definition getattr (article : RawArticle) (field : string) : attribute :=
  if String.eqb field "title" then StrAttr (title article)
  else if String.eqb field "content"
  then from_option StrAttr NoneAttr (content article)
  else if String.eqb field "author"
  then from_option StrAttr NoneAttr (author article)
  else if String.eqb field "feed_name" then StrAttr (feed_name article)
  else if String.eqb field "url" then OtherAttr
  else if String.eqb field "published_date"
  then from_option (fun _ => OtherAttr) NoneAttr (published_date article)
  else if String.eqb field "feed_priority" then OtherAttr
  else NoneAttr.

(** [s.lower()] *)
Definition lower_str (s : string) : string := str (lower (chars s)).

(** The list [texts_to_check]; [None] is the [AttributeError] of
    [value.lower()] on a value that is no string. *)
Fixpoint texts_to_check (article : RawArticle) (fields : list string)
    : option (list string) :=
  match fields with
  | [] => Some []
  | field :: rest =>
      match getattr article field with
      | StrAttr "" | NoneAttr => texts_to_check article rest
      | StrAttr value => cons (lower_str value) <$> texts_to_check article rest
      | OtherAttr => None
      end
  end.

(** [" ".join(texts)] *)
Fixpoint join_space (texts : list string) : string :=
  match texts with
  | [] => ""
  | [t] => t
  | t :: rest => t ++ " " ++ join_space rest
  end.

(** [sub in s] on strings *)
Fixpoint contains (sub s : string) : bool :=
  String.prefix sub s
  || match s with
     | EmptyString => false
     | String _ s' => contains sub s'
     end.

(** Truth value of a [str | None]. *)
Definition nonempty (pattern : option string) : bool :=
  match pattern with
  | Some (String _ _) => true
  | _ => false
  end.

Section Filters.
(** [re.search(pattern, text, re.IGNORECASE)]: [re_compiles pattern] tells
    whether the pattern is a regular expression, [re_search pattern text]
    whether it then finds a match. *)
Variable re_compiles : string -> bool.
Variable re_search : string -> string -> bool.

(** The truth value of [re.search(pattern, text, re.IGNORECASE)]; [None]
    is the [re.error] raised for a pattern that does not compile. *)
Definition search (pattern text : string) : option bool :=
  if re_compiles pattern then Some (re_search pattern text) else None.

Definition any_keyword_in (keywords : list string) (combined_text : string)
    : bool :=
  existsb (fun kw => contains (lower_str kw) combined_text) keywords.

(** The verdict on one article, given [combined_text]; [None] is the
    [re.error] of a pattern that a check comes to use. *)
Definition verdict (filter_config : FeedFilter) (combined_text : string)
    : option (bool * option string) :=
  if match whitelist_keywords filter_config with [] => false | _ => true end
     && negb (any_keyword_in (whitelist_keywords filter_config) combined_text)
  then Some (false, Some "No whitelist keywords matched")
  else
    found ←
      (if nonempty (whitelist_regex filter_config)
       then search (default "" (whitelist_regex filter_config)) combined_text
       else Some true);
    if negb found then Some (false, Some "Whitelist regex not matched")
    else if match blacklist_keywords filter_config with
            | [] => false
            | _ => true
            end
            && any_keyword_in (blacklist_keywords filter_config) combined_text
    then Some (false, Some "Blacklist keyword matched")
    else
      blocked ←
        (if nonempty (blacklist_regex filter_config)
         then search (default "" (blacklist_regex filter_config)) combined_text
         else Some false);
      if (blocked : bool) then Some (false, Some "Blacklist regex matched")
      else Some (true, None).

(** [apply_filters(articles, filter_config)]; [None] is the exception
    escaping from the call: [AttributeError] or [re.error]. *)
Definition apply_filters (articles : list RawArticle)
    (filter_config : option FeedFilter)
    : option (list (RawArticle * bool * option string)) :=
  match filter_config with
  | None => Some ((fun article => (article, true, None)) <$> articles)
  | Some filter_config =>
      mapM (fun article =>
              texts ← texts_to_check article (apply_to_fields filter_config);
              v ← verdict filter_config (join_space texts);
              Some (article, v.1, v.2))
           articles
  end.
End Filters.

(** *** The loop over the fetched feeds *)

(** [slug.endswith(suffix)] *)
Definition endswith (s suffix : string) : bool :=
  bool_decide (chars suffix `suffix_of` chars s).

(** [tuple(f"_{i}" for i in range(1, 10))] *)
Definition collision_suffixes : list string :=
  (fun i : nat => "_" ++ pretty i) <$> seq 1 9.

(** The variables of [run_step1] that the loops update. *)
Record ingest_state := {
  all_articles : list Step2Dedup.ProcessedArticle;
  feeds_ok : nat;
  feeds_fail : nat;
  total_raw : nat;
  existing_slugs : gset string;
  slug_collision_count : nat;
}.

Definition processed (raw_art : RawArticle) (slug : string)
    : Step2Dedup.ProcessedArticle :=
  {| Step2Dedup.title := title raw_art;
     Step2Dedup.url := url raw_art;
     Step2Dedup.published_date := published_date raw_art;
     Step2Dedup.content := content raw_art;
     Step2Dedup.author := author raw_art;
     Step2Dedup.feed_name := feed_name raw_art;
     Step2Dedup.feed_priority := feed_priority raw_art;
     Step2Dedup.slug := slug;
     Step2Dedup.content_hash := "" |}.

Section Run.
Variable sha256_hexdigest : string -> string.
Variable re_compiles : string -> bool.
Variable re_search : string -> string -> bool.
(** What [_fetch_feed_with_retry] returns beside the feed, for the feed at
    a position of [sorted_feeds]: the articles, or [None] for an
    exception. *)
Variable fetch : nat -> FeedConfig -> option (list RawArticle).

(** One turn of [for raw_art, passed, reason in filtered]. *)
Definition assign_slug (st : ingest_state)
    (entry : RawArticle * bool * option string) : ingest_state :=
  let '(raw_art, passed, reason) := entry in
  match generate_slug sha256_hexdigest (title raw_art) (existing_slugs st) with
  | Some (inr slug) =>
      {| all_articles :=
           if passed then all_articles st ++ [processed raw_art slug]
           else all_articles st;
         feeds_ok := feeds_ok st; feeds_fail := feeds_fail st;
         total_raw := total_raw st;
         existing_slugs := {[slug]} ∪ existing_slugs st;
         slug_collision_count :=
           if existsb (endswith slug) collision_suffixes
           then S (slug_collision_count st) else slug_collision_count st |}
  | _ => st
  end.

(** One turn of [for feed, result in feed_results]; [None] is the
    exception of [apply_filters]. *)
Definition ingest_feed (st : ingest_state)
    (feed_result : FeedConfig * option (list RawArticle))
    : option ingest_state :=
  match feed_result.2 with
  | None =>
      Some {| all_articles := all_articles st; feeds_ok := feeds_ok st;
              feeds_fail := S (feeds_fail st); total_raw := total_raw st;
              existing_slugs := existing_slugs st;
              slug_collision_count := slug_collision_count st |}
  | Some raw_articles =>
      filtered ←
        match feed_type feed_result.1 with
        | generalist => apply_filters re_compiles re_search raw_articles
                          (filter feed_result.1)
        | specialized =>
            Some ((fun art => (art, true, None)) <$> raw_articles)
        end;
      Some (foldl assign_slug
              {| all_articles := all_articles st; feeds_ok := S (feeds_ok st);
                 feeds_fail := feeds_fail st;
                 total_raw := total_raw st + length raw_articles;
                 existing_slugs := existing_slugs st;
                 slug_collision_count := slug_collision_count st |}
              filtered)
  end.

Fixpoint ingest_feeds (st : ingest_state)
    (feed_results : list (FeedConfig * option (list RawArticle)))
    : option ingest_state :=
  match feed_results with
  | [] => Some st
  | feed_result :: rest =>
      st' ← ingest_feed st feed_result; ingest_feeds st' rest
  end.

(** [datetime.min], 0001-01-01 00:00 *)
Definition datetime_min : Z := -719162 * usec_per_day.

Definition skipped_result : Step1Result :=
  {| success := true; articles := []; feeds_fetched := 0; feeds_failed := 0;
     total_articles_raw := 0; articles_after_filter := 0;
     slug_collisions := 0; errors := [] |}.

(** [run_step1(config, feeds_config, cache_manager)] at clock reading
    [now]. *)
Definition run_step1 (config : Step1Config) (feeds_config : FeedsConfig)
    (now : Z) : Fs.M Step1Result :=
  if negb (enabled config) then mret skipped_result else
  let enabled_feeds :=
    base.filter (fun f => feed_enabled f = true) (feeds feeds_config) in
  match enabled_feeds with
  | [] => mret skipped_result
  | _ :: _ =>
      let sorted_feeds := sorted_reverse priority enabled_feeds in
      let feed_results := imap (fun i feed => (feed, fetch i feed)) sorted_feeds in
      match ingest_feeds
              {| all_articles := []; feeds_ok := 0; feeds_fail := 0;
                 total_raw := 0; existing_slugs := ∅;
                 slug_collision_count := 0 |} feed_results with
      | None => Fs.raise "apply_filters raised"
      | Some st =>
          let sorted_articles :=
            sorted_reverse
              (fun x => default datetime_min (Step2Dedup.published_date x))
              (all_articles st) in
          CacheEntries.save now "articles" ;;
          mret {| success := true; articles := sorted_articles;
                  feeds_fetched := feeds_ok st; feeds_failed := feeds_fail st;
                  total_articles_raw := total_raw st;
                  articles_after_filter := length sorted_articles;
                  slug_collisions := slug_collision_count st;
                  errors := [] |}
      end
  end.
End Run.

(** *** What a fetch keeps *)

(** [l[:n]]: a negative [n] counts from the end. *)
Definition slice_to {A} (n : Z) (l : list A) : list A :=
  if 0 <=? n then take (Z.to_nat n) l
  else take (length l - Z.to_nat (- n)) l.

(** The sort key of the articles: [x.published_date or datetime.min]. *)
Definition published_key (art : RawArticle) : Z :=
  default datetime_min (published_date art).

(** [art.published_date and art.published_date >= cutoff_date] *)
Definition is_recent (cutoff_date : Z) (art : RawArticle) : Prop :=
  match published_date art with
  | Some published => cutoff_date <= published
  | None => False
  end.

#[global] Instance is_recent_dec cutoff_date art :
  Decision (is_recent cutoff_date art).
Proof. unfold is_recent. destruct (published_date art); apply _. Defined.

(** [fetch_single_feed(feed, max_articles)] at clock reading [now], from
    the list [articles] built from the entries of the parsed feed on:
    the articles of the last two days, newest first, cut to
    [max_articles]. *)
Definition fetch_single_feed (now : Z) (max_articles : Z)
    (articles : list RawArticle) : list RawArticle :=
  let cutoff_date := now - timedelta_days 2 in
  let articles := base.filter (is_recent cutoff_date) articles in
  slice_to max_articles (sorted_reverse published_key articles).

End Step1Run.
(** ** What the slugs of a run look like *)

Module Step1Slugs.
Import Step1Ingestion Step1Run.

(** The sort key of [run_step1]: [x.published_date or datetime.min]. *)
Definition date_key (a : Step2Dedup.ProcessedArticle) : Z :=
  default datetime_min (Step2Dedup.published_date a).

(** A slug that ends in one of [_1] .. [_9]: the test behind
    [slug_collision_count]. *)
Definition suffixed (s : string) : Prop :=
  existsb (endswith s) collision_suffixes = true.

#[global] Instance suffixed_dec s : Decision (suffixed s).
Proof. unfold suffixed. apply _. Defined.

Section Slugs.
Variable sha256_hexdigest : string -> string.

(** An article as the loop builds it: no content hash yet, and as slug
    the base slug of its title or one of its nine variants. *)
Definition slug_of_title (a : Step2Dedup.ProcessedArticle) : Prop :=
  Step2Dedup.content_hash a = "" /\
  exists k, (k <= 9)%nat /\
    Step2Dedup.slug a
    = candidate (base_slug sha256_hexdigest (Step2Dedup.title a)) k.

(** What holds of the loop variables throughout a run. *)
Definition slugs_ok (st : ingest_state) : Prop :=
  NoDup (Step2Dedup.slug <$> all_articles st) /\
  (forall a, a ∈ all_articles st ->
     Step2Dedup.slug a ∈ existing_slugs st) /\
  Forall slug_of_title (all_articles st) /\
  slug_collision_count st
  = size (base.filter suffixed (existing_slugs st)).
End Slugs.

End Step1Slugs.
(** ** Sample data for step 1 *)

Module Step1Samples.
Import Step1Run.

(** A digest that is the same for every title: the slugs of the examples
    differ by their words only. *)
Definition sha256_hexdigest (_ : string) : string :=
  "5f2c8a91d3e07b645f2c8a91d3e07b645f2c8a91d3e07b645f2c8a91d3e07b64".

(** Every pattern compiles, and none finds a match. *)
Definition re_compiles (pattern : string) : bool := true.
Definition re_search (pattern text : string) : bool := false.

Definition raw (ttl link : string) (published : Z) : RawArticle :=
  {| title := ttl; url := link; published_date := Some published;
     content := Some "OpenAI announces the release of GPT-5.";
     author := None; feed_name := "Example Feed"; feed_priority := 5 |}.

(** Two articles with one title, the second published later. *)
Definition first_report : RawArticle :=
  raw "GPT-5 Released by OpenAI" "https://example.com/a"
    (midnight 19884).
Definition second_report : RawArticle :=
  raw "GPT-5 Released by OpenAI" "https://example.org/b"
    (midnight 19884 + 3600 * 1000000).

Definition example_feed : FeedConfig :=
  {| name := "Example Feed"; feed_type := specialized; feed_enabled := true;
     priority := 5; filter := None |}.

Definition fetch (_ : nat) (_ : FeedConfig) : option (list RawArticle) :=
  Some [first_report; second_report].

Definition config : Step1Config :=
  {| enabled := true; max_articles_per_feed := 50 |}.

Definition empty_cache : cache_fs :=
  {| files := ∅; lock_file := None; backups := [] |}.

(** A filter with a blacklist, on the default fields. *)
Definition no_gpt : FeedFilter :=
  {| whitelist_keywords := []; blacklist_keywords := ["GPT"];
     whitelist_categories := []; whitelist_regex := None;
     blacklist_regex := None; apply_to_fields := ["title"; "description"] |}.

End Step1Samples.
(** ** Step 4: the news shards and a whole run *)

Module Step4Run.
Import Step4MultiDedup.

(** src/models/config.py *)
Record Step4Config := {
  enabled : bool;
  lookback_days : Z;
  fallback_to_no_merge : bool;
}.

(** src/models/news.py *)
Record Step4Result := {
  success : bool;
  unique_news : list NewsCluster;
  news_before_dedup : nat;
  news_after_dedup : nat;
  duplicates_found : nat;
  news_merged : nat;
  api_calls : nat;
  api_failures : nat;
  errors : list string;
  fallback_used : bool;
}.

(** A file of [cache/news], by what [CacheManager.load(key, NewsCluster)]
    makes of it: an entry whose [data] is a list of clusters, as
    [CacheManager.save] writes it, or anything else that [load] answers
    [None] for (no JSON, no [data]).  A file whose [data] is one object
    and not a list is not covered. *)
Inductive news_file :=
| NewsData (news : list NewsCluster)
| NotNews.

(** The [*.json] files of [cache/news], by stem. *)
Abbreviation news_dir := (gmap string news_file).

(** [cache_manager.load(key, NewsCluster)]: every item is validated, and
    any failure gives [None]. *)
Definition load (file : option news_file) : option (list NewsCluster) :=
  match file with
  | Some (NewsData news) =>
      if forallb validates news then Some news else None
  | _ => None
  end.

(** [stem.split("_")[-1]] *)
Definition last_field (stem : string) : string :=
  Step1Ingestion.str
    (foldl (fun cur c => if Ascii.eqb c "_" then [] else cur ++ [c])%list []
       (Step1Ingestion.chars stem)).

Definition news_name_le (a b : string * news_file) : Prop :=
  String.leb (a.1 ++ ".json") (b.1 ++ ".json") = true.

#[global] Instance news_name_le_dec : RelDecision news_name_le.
Proof. intros a b. unfold news_name_le. apply _. Defined.

(** [sorted(cache_dir.glob("*.json"))] *)
Definition sorted_glob (dir : news_dir) : list (string * news_file) :=
  merge_sort news_name_le (map_to_list dir).

Section Dates.
(** [datetime.strptime(date_str, "%Y-%m-%d")] as a day number, [None]
    for its [ValueError]; [strftime("%Y-%m-%d")] on a day number. *)
Variable strptime : string -> option Z.
Variable strftime : Z -> string.

(** What one turn of the loop of [_load_cached_news] adds. *)
Definition read_news_file (cutoff_date : Z) (stem : string)
    (file : news_file) : list NewsCluster :=
  match strptime (last_field stem) with
  | None => []
  | Some day =>
      let file_date := midnight day in
      if file_date <? cutoff_date then []
      else default [] (load (Some file))
  end.

(** [_load_cached_news(cache_manager, lookback_days)] at clock reading
    [now]; [None] is a directory [cache/news] that does not exist. *)
Definition _load_cached_news (cache_dir : option news_dir)
    (lookback_days : Z) (now : Z) : list NewsCluster :=
  let cutoff_date := now - timedelta_days lookback_days in
  match cache_dir with
  | None => []
  | Some dir =>
      foldl (fun all_cached_news file =>
               all_cached_news ++ read_news_file cutoff_date file.1 file.2)%list
        [] (sorted_glob dir)
  end.

(** [_save_news_to_cache(cache_manager, news)] at clock reading [now]:
    the directory is made when missing and today's file written anew. *)
Definition _save_news_to_cache (now : Z) (news : list NewsCluster)
    (cache_dir : option news_dir) : option news_dir :=
  let today_str := strftime (day_of now) in
  Some (<["news_" ++ today_str := NewsData news]> (default ∅ cache_dir)).

Section Run.
Context {set_order : PySetOrder}.
Variable utcnow : nat -> Z.
(** [_call_gemini_deduplication(today_news, cached_news, config,
    api_key)] after its retries: the judgments, or the text of the
    exception. *)
Variable gemini :
  list NewsCluster -> list NewsCluster -> string + list NewsDeduplicationPair.
(** The text of the [ValidationError] of a merge. *)
Variable validation_error : string.

Definition passed_on (today_news : list NewsCluster) (fallback : bool)
    (problems : list string) : Step4Result :=
  {| success := true; unique_news := today_news;
     news_before_dedup := length today_news;
     news_after_dedup := length today_news;
     duplicates_found := 0; news_merged := 0; api_calls := 0;
     api_failures := 0; errors := problems; fallback_used := fallback |}.

Definition failed (today_news : list NewsCluster) (calls failures : nat)
    (problems : list string) : Step4Result :=
  {| success := false; unique_news := [];
     news_before_dedup := length today_news; news_after_dedup := 0;
     duplicates_found := 0; news_merged := 0; api_calls := calls;
     api_failures := failures; errors := problems; fallback_used := false |}.

(** [run_step4(config, today_news, cache_manager, api_key)]: the result
    and the directory [cache/news] afterwards.  [now_load] is the clock
    reading of the load, [now_save] that of the save, and [now_resave]
    that of the second save of a run that falls back after the call. *)
Definition run_step4 (config : Step4Config) (today_news : list NewsCluster)
    (api_key : option string) (now_load now_save now_resave : Z)
    (cache_dir : option news_dir) : Step4Result * option news_dir :=
  if negb (enabled config) then (passed_on today_news false [], cache_dir)
  else match today_news with
  | [] => (passed_on [] false [], cache_dir)
  | _ :: _ =>
  let cached_news :=
    _load_cached_news cache_dir (lookback_days config) now_load in
  match cached_news with
  | [] => (passed_on today_news false [],
           _save_news_to_cache now_save today_news cache_dir)
  | _ :: _ =>
  match api_key with
  | None | Some "" =>
      if fallback_to_no_merge config
      then (passed_on today_news true ["No API key provided"],
            _save_news_to_cache now_save today_news cache_dir)
      else (failed today_news 0 0
              ["No API key provided and fallback disabled"], cache_dir)
  | Some _ =>
      (* the inner [try]: the call, then the merge *)
      let attempt :=
        match gemini today_news cached_news with
        | inl e => inl (e, 0%nat, 0%nat)
        | inr duplicate_pairs =>
            match _merge_duplicate_news utcnow today_news cached_news
                    duplicate_pairs with
            | None => inl (validation_error, 1%nat, length duplicate_pairs)
            | Some unique_news => inr (unique_news, length duplicate_pairs)
            end
        end in
      match attempt with
      | inr (unique_news, found) =>
          ({| success := true; unique_news := unique_news;
              news_before_dedup := length today_news;
              news_after_dedup := length unique_news;
              duplicates_found := found; news_merged := found;
              api_calls := 1; api_failures := 0; errors := [];
              fallback_used := false |},
           _save_news_to_cache now_save unique_news cache_dir)
      | inl (e, calls, found) =>
          let problems := [String.append "Gemini API call failed: " e] in
          if fallback_to_no_merge config
          then ({| success := true; unique_news := today_news;
                   news_before_dedup := length today_news;
                   news_after_dedup := length today_news;
                   duplicates_found := found; news_merged := 0;
                   api_calls := calls; api_failures := 1;
                   errors := problems; fallback_used := true |},
                _save_news_to_cache now_resave today_news
                  (_save_news_to_cache now_save today_news cache_dir))
          else (failed today_news calls 1 problems, cache_dir)
      end
  end
  end
  end.
End Run.
End Dates.

(** The clusters of the shard of a day as [load] reads them back. *)
Definition shard_news (cache_dir : option news_dir) (stem : string)
    : list NewsCluster :=
  default [] (load (default ∅ cache_dir !! stem)).

End Step4Run.
(** ** Sample data for a run of step 4 *)

Module Step4Samples.
Import Step4MultiDedup Step4Run.

(** The shard of 2024-06-09 holds the cached cluster of three articles
    and the one with eleven keywords. *)
Definition yesterday : option news_dir :=
  Some {[ "news_2024-06-09"
            := NewsData [Samples.cached_gpt5_large; Samples.cached_wordy] ]}.

(** Gemini judges today's first cluster a duplicate of the cached one of
    three articles. *)
Definition gemini (today_news cached_news : list NewsCluster)
    : string + list NewsDeduplicationPair :=
  inr [Samples.judgment "news-today-0001234" "news-cache-0003333"].

Definition unreachable (today_news cached_news : list NewsCluster)
    : string + list NewsDeduplicationPair :=
  inl "503 Service Unavailable".

Definition with_fallback : Step4Config :=
  {| enabled := true; lookback_days := 3; fallback_to_no_merge := true |}.
Definition without_fallback : Step4Config :=
  {| enabled := true; lookback_days := 3; fallback_to_no_merge := false |}.

End Step4Samples.
(** ** Slug collisions (C5) *)

Module Step1Facts.
Import Step1Ingestion.

Section Collisions.
Variable sha256_hexdigest : string -> string.
Variables (title : string) (existing : gset string).

Lemma collision_loop_step fuel base slug counter :
  collision_loop (S fuel) title base existing slug counter =
    if decide (slug ∈ existing) then
      if (10 <=? counter)%nat
      then Some (inl (ValueError
             ("Too many slug collisions for title: " ++ title)))
      else collision_loop fuel title base existing
             (variant base counter) (S counter)
    else Some (inr slug).
Proof. reflexivity. Qed.

Lemma collision_loop_hit base m : forall k fuel,
  (k + m <= 9)%nat -> (m < fuel)%nat ->
  (forall j, (k <= j < k + m)%nat -> candidate base j ∈ existing) ->
  candidate base (k + m) ∉ existing ->
  collision_loop fuel title base existing (candidate base k) (S k)
  = Some (inr (candidate base (k + m))).
Proof.
  induction m as [|m IH]; intros k fuel Hk Hfuel Hocc Hfree.
  - destruct fuel as [|fuel]; [lia|].
    rewrite collision_loop_step, Nat.add_0_r in *.
    by rewrite decide_False.
  - destruct fuel as [|fuel]; [lia|].
    rewrite collision_loop_step.
    rewrite decide_True by (apply Hocc; lia).
    destruct (Nat.leb_spec 10 (S k)); [lia|].
    change (variant base (S k)) with (candidate base (S k)).
    replace (k + S m)%nat with (S k + m)%nat in * by lia.
    apply IH; [lia | lia | | done].
    intros j Hj. apply Hocc. lia.
Qed.

Lemma collision_loop_exhausted base n : forall k fuel,
  (k + n = 9)%nat -> (n < fuel)%nat ->
  (forall j, (k <= j <= 9)%nat -> candidate base j ∈ existing) ->
  collision_loop fuel title base existing (candidate base k) (S k)
  = Some (inl (ValueError ("Too many slug collisions for title: " ++ title))).
Proof.
  induction n as [|n IH]; intros k fuel Hk Hfuel Hocc;
    (destruct fuel as [|fuel]; [lia|]);
    rewrite collision_loop_step, decide_True by (apply Hocc; lia).
  - destruct (Nat.leb_spec 10 (S k)); [done | lia].
  - destruct (Nat.leb_spec 10 (S k)); [lia|].
    change (variant base (S k)) with (candidate base (S k)).
    apply IH; [lia | lia |]. intros j Hj. apply Hocc. lia.
Qed.

(** A bounded linear search either finds a least index where the
    decidable property fails or sees it hold throughout. *)
Lemma least_free (P : nat -> Prop) `{!forall j, Decision (P j)} n :
  (forall j, (j <= n)%nat -> P j) \/
  (exists k, (k <= n)%nat /\ ~ P k /\ forall j, (j < k)%nat -> P j).
Proof.
  induction n as [|n [IH | (k & Hk & Hnk & Hlt)]].
  - destruct (decide (P O)) as [H0 | H0].
    + left. intros j Hj. by replace j with O by lia.
    + right. exists O. split; [lia | split; [done | intros; lia]].
  - destruct (decide (P (S n))) as [Hn | Hn].
    + left. intros j Hj. destruct (decide (j = S n)) as [-> | ?];
        [done | apply IH; lia].
    + right. exists (S n). split; [lia | split; [done | intros; apply IH; lia]].
  - right. exists k. split; [lia | split; done].
Qed.

(** The loop always ends within its eleven iterations. *)
Lemma collision_loop_total :
  is_Some (generate_slug sha256_hexdigest title existing).
Proof.
  unfold generate_slug, generate_slug_fuel.
  set (base := base_slug sha256_hexdigest title).
  destruct (least_free (fun j => candidate base j ∈ existing) 9)
    as [Hall | (k & Hk & Hfree & Hocc)].
  - change base with (candidate base 0) at 2.
    rewrite (collision_loop_exhausted base 9); [done | lia | lia |].
    intros j Hj. apply Hall. lia.
  - change base with (candidate base 0) at 2.
    rewrite (collision_loop_hit base k 0 11); [done | lia | lia | | done].
    intros j Hj. apply Hocc. lia.
Qed.
End Collisions.

(** C5.  For every title and every set of used slugs: [generate_slug]
    returns the base slug (word part, dash, hash part) when it is unused;
    otherwise it returns the first of the variants [base_1 .. base_9] that
    is unused; and it raises the too-many-collisions [ValueError] exactly
    when the base slug and all nine variants are used. *)
Theorem generate_slug_collision_growth
    (sha256_hexdigest : string -> string) (title : string)
    (existing : gset string) :
  let base := base_slug sha256_hexdigest title in
  let result := generate_slug sha256_hexdigest title existing in
  base = word_part title ++ "-" ++ hash_part sha256_hexdigest title /\
  (base ∉ existing -> result = Some (inr base)) /\
  (forall k, (1 <= k <= 9)%nat ->
     base ∈ existing ->
     (forall j, (1 <= j < k)%nat -> variant base j ∈ existing) ->
     variant base k ∉ existing ->
     result = Some (inr (variant base k))) /\
  (raises_collisions result <->
     base ∈ existing /\
     forall k, (1 <= k <= 9)%nat -> variant base k ∈ existing).
Proof.
  intros base result. split; [reflexivity|].
  assert (Hcand : forall j, (1 <= j)%nat -> candidate base j = variant base j)
    by (intros [|j] ?; [lia | done]).
  split; [|split].
  - intros Hfree. subst result. unfold generate_slug, generate_slug_fuel.
    fold base. cbv zeta.
    apply (collision_loop_hit title existing base 0 0 11);
      [lia | lia | intros; lia | done].
  - intros k Hk Hbase Hocc Hfree. subst result.
    unfold generate_slug, generate_slug_fuel. fold base. cbv zeta.
    rewrite <- (Hcand k) by lia.
    apply (collision_loop_hit title existing base k 0 11); [lia | lia | |].
    + intros [|j] Hj; [done|]. rewrite Hcand by lia. apply Hocc. lia.
    + rewrite Hcand by lia. done.
  - split.
    + intros [msg Hraise].
      destruct (least_free (fun j => candidate base j ∈ existing) 9)
        as [Hall | (k & Hk & Hfree & Hocc)].
      * split; [apply (Hall 0%nat); lia|].
        intros k Hk. rewrite <- Hcand by lia. apply Hall. lia.
      * subst result. unfold generate_slug, generate_slug_fuel in Hraise.
        fold base in Hraise. cbv zeta in Hraise.
        assert (Hhit : collision_loop 11 title base existing base 1
                       = Some (inr (candidate base k))).
        { apply (collision_loop_hit title existing base k 0 11);
            [lia | lia | | done].
          intros j Hj. apply Hocc. lia. }
        congruence.
    + intros [Hbase Hall]. eexists. subst result.
      unfold generate_slug, generate_slug_fuel. fold base. cbv zeta.
      apply (collision_loop_exhausted title existing base 9 0 11); [lia | lia |].
      intros [|j] Hj; [done|]. rewrite Hcand by lia. apply Hall. lia.
Qed.

(** C5, on a sample title: with the base slug and its variants [_1] to
    [_8] taken, the slug returned is the variant [_9]. *)
Lemma generate_slug_collision_growth_witness :
  let sha256_hexdigest := fun _ : string => "5f2c8a91d3e07b64" in
  let base := "gpt-5-released-by-openai-5f2c8a91" in
  let taken : gset string :=
    list_to_set (base :: (variant base <$> [1; 2; 3; 4; 5; 6; 7; 8]%nat)) in
  base_slug sha256_hexdigest "GPT-5 Released by OpenAI" = base /\
  generate_slug sha256_hexdigest "GPT-5 Released by OpenAI" taken
  = Some (inr "gpt-5-released-by-openai-5f2c8a91_9").
Proof.
  intros sha256_hexdigest base taken. split; [reflexivity|].
  destruct (generate_slug_collision_growth sha256_hexdigest
              "GPT-5 Released by OpenAI" taken) as (_ & _ & Hgrow & _).
  apply (Hgrow 9%nat).
  - lia.
  - apply (bool_decide_unpack _). vm_compute. exact I.
  - intros j Hj.
    assert (Hcase : (j = 1 \/ j = 2 \/ j = 3 \/ j = 4 \/ j = 5 \/ j = 6 \/
                     j = 7 \/ j = 8)%nat) by lia.
    destruct Hcase as [-> | [-> | [-> | [-> | [-> | [-> | [-> | ->]]]]]]];
      apply (bool_decide_unpack _); vm_compute; exact I.
  - apply (bool_decide_unpack _). vm_compute. exact I.
Defined.

End Step1Facts.

(** ** The lock file and the clean-up of run_step0 (C9, C4) *)

Module Step0Facts.
Import Fs CacheManager Step0Cache.

(** Runs the monadic plumbing of a computation on the cache directory. *)
Ltac fs_run :=
  repeat (unfold mbind, Fs_bind, Fs.bind, Fs.get, Fs.put, Fs.ret, Fs.raise; cbn).

Lemma release_lock_file_spec fs :
  release_lock_file fs
  = (Return tt, {| files := files fs; lock_file := None;
                   backups := backups fs |}).
Proof.
  unfold release_lock_file. fs_run. destruct fs as [f [mtime|] b]; reflexivity.
Qed.

(** A handler that returns makes the whole [try] return. *)
Lemma try_except_returns {A} (m : M A) (handler : string -> M A) fs :
  (forall e fs1, exists a fs2, handler e fs1 = (Return a, fs2)) ->
  exists a fs', try_except m handler fs = (Return a, fs').
Proof.
  intros Hh. unfold try_except. destruct (m fs) as [[a | e] fs1]; eauto.
Qed.

Lemma acquire_lock_file_free t fs :
  lock_file fs = None ->
  acquire_lock_file t fs
  = (Return true, {| files := files fs; lock_file := Some t;
                     backups := backups fs |}).
Proof. intros Hfree. unfold acquire_lock_file. fs_run. by rewrite Hfree. Qed.

Lemma acquire_lock_file_held t mtime fs :
  lock_file fs = Some mtime -> t - mtime <= 3600 * usec_per_sec ->
  acquire_lock_file t fs = (Return false, fs).
Proof.
  intros Hheld Hage. unfold acquire_lock_file. fs_run. rewrite Hheld.
  destruct (Z.ltb_spec (3600 * usec_per_sec) (t - mtime)); [lia | done].
Qed.

(** C9.  [run_step0] always returns a result and leaves no lock file
    behind, whatever the configuration, the environment and the cache
    directory it starts from; this includes the run that finds an
    unexpired lock of another instance, which returns [success = False]
    and still deletes that lock.  Hence a lock acquisition that follows
    at once succeeds. *)
Theorem run_step0_leaves_no_lock (config : Step0Config) (env : environment)
    (fs : cache_fs) :
  let after := (run_step0 config env fs).2 in
  (exists result, (run_step0 config env fs).1 = Return result) /\
  lock_file after = None /\
  (forall t, exists fs', acquire_lock_file t after = (Return true, fs')
                         /\ lock_file fs' = Some t) /\
  (forall mtime,
     lock_file fs = Some mtime ->
     now env - mtime <= 3600 * usec_per_sec ->
     (run_step0 config env fs).1 = Return lock_failed_result /\
     success lock_failed_result = false /\
     files after = files fs).
Proof.
  intros after. subst after. unfold run_step0, try_finally.
  destruct (try_except_returns (run_step0_body config env)
    (fun e => ret {| success := false; cache_cleaned := 0;
                     cache_backed_up := false;
                     errors := [String.append "Critical failure: " e] |}) fs)
    as (result & fs1 & Hrun); [by eauto|].
  rewrite Hrun, release_lock_file_spec. cbn.
  split; [by eauto|]. split; [done|]. split.
  - intros t. eexists. by rewrite acquire_lock_file_free.
  - intros mtime Hheld Hage.
    assert (Hbody : run_step0_body config env fs
                    = (Return lock_failed_result, fs)).
    { unfold run_step0_body. unfold mbind at 1. unfold Fs_bind, bind.
      by rewrite (acquire_lock_file_held _ mtime). }
    unfold try_except in Hrun. rewrite Hbody in Hrun.
    by simplify_eq.
Qed.

(** *** Clean-up *)

Lemma cleanup_turn now fs key max_days :
  (bool_decide (is_Some (files fs !! _get_cache_path key))
   && negb match files fs !! _get_cache_path key with
           | Some (Entry cached_at) =>
               timedelta_whole_days (now - cached_at) <? max_days
           | _ => false
           end)
  = stale now fs key max_days.
Proof.
  unfold stale. destruct (files fs !! _get_cache_path key) as [[t|]|]; done.
Qed.

Lemma cleanup_loop_step now key max_days rest cleaned fs :
  cleanup_loop now ((key, max_days) :: rest) cleaned fs
  = if stale now fs key max_days
    then cleanup_loop now rest (S cleaned)
           {| files := base.delete (_get_cache_path key) (files fs);
              lock_file := lock_file fs; backups := backups fs |}
    else cleanup_loop now rest cleaned fs.
Proof.
  rewrite <- cleanup_turn. cbn [cleanup_loop].
  unfold cache_exists, is_fresh, get_age, delete. fs_run.
  destruct (files fs !! _get_cache_path key) as [[t|]|] eqn:Hf;
    cbn; rewrite ?Hf; cbn; try done.
  by destruct (_ <? _).
Qed.

Lemma doomed_delete_other now fs key rest path :
  path <> _get_cache_path key ->
  doomed now {| files := base.delete (_get_cache_path key) (files fs);
                lock_file := lock_file fs; backups := backups fs |} rest path
  = doomed now fs rest path.
Proof.
  intros Hne. unfold doomed. induction rest as [|[k d] rest IH]; [done|].
  cbn [existsb fst snd]. rewrite IH. f_equal.
  destruct (String.eqb_spec path (_get_cache_path k)) as [-> | ?]; [|done].
  cbn. unfold stale. cbn. by rewrite lookup_delete_ne.
Qed.

Lemma cleanup_loop_spec now retention_days : forall cleaned fs,
  exists n fs',
    cleanup_loop now retention_days cleaned fs = (Return n, fs') /\
    lock_file fs' = lock_file fs /\ backups fs' = backups fs /\
    (forall path,
       files fs' !! path
       = if doomed now fs retention_days path then None
         else files fs !! path) /\
    (size (files fs) + cleaned = size (files fs') + n)%nat.
Proof.
  induction retention_days as [|[key d] rest IH]; intros cleaned fs.
  - exists cleaned, fs. by repeat split.
  - rewrite cleanup_loop_step.
    destruct (stale now fs key d) eqn:Hstale.
    + destruct (IH (S cleaned)
        {| files := base.delete (_get_cache_path key) (files fs);
           lock_file := lock_file fs; backups := backups fs |})
        as (n & fs' & -> & Hlock & Hbak & Hfiles & Hsize).
      exists n, fs'. cbn in Hlock, Hbak, Hfiles, Hsize.
      split; [done|]. split; [done|]. split; [done|]. split.
      * intros path. rewrite Hfiles. unfold doomed at 2. cbn [existsb fst snd].
        destruct (String.eqb_spec path (_get_cache_path key)) as [-> | Hne].
        -- rewrite Hstale. cbn. rewrite lookup_delete_eq. by destruct (doomed _ _ _ _).
        -- cbn. fold (doomed now fs rest path).
           rewrite doomed_delete_other by done.
           by rewrite lookup_delete_ne.
      * assert (is_Some (files fs !! _get_cache_path key)) as [f Hf].
        { unfold stale in Hstale.
          destruct (files fs !! _get_cache_path key); [eauto | done]. }
        rewrite map_size_delete_Some in Hsize by eauto.
        assert (size (files fs) <> 0)%nat; [|lia].
        intros Hz. apply map_size_empty_inv in Hz. by rewrite Hz in Hf.
    + destruct (IH cleaned fs) as (n & fs' & -> & Hlock & Hbak & Hfiles & Hsize).
      exists n, fs'. repeat (split; [done|]). split; [|done].
      intros path. rewrite Hfiles. unfold doomed at 2. cbn [existsb fst snd].
      rewrite Hstale, andb_false_r. done.
Qed.

(** Deleting a file that [list_all] lists shortens the listing by one. *)
Lemma top_level_keys_delete fs path stem :
  is_Some (files fs !! path) -> top_level_stem path = Some stem ->
  length (top_level_keys fs)
  = S (length (top_level_keys
         {| files := base.delete path (files fs);
            lock_file := lock_file fs; backups := backups fs |})).
Proof.
  intros Hin%elem_of_dom Hstem. unfold top_level_keys. cbn.
  rewrite dom_delete_L.
  assert (Hperm : elements (dom (files fs))
                  ≡ₚ path :: elements (dom (files fs) ∖ {[path]})).
  { rewrite <- elements_union_singleton.
    - by rewrite <- union_difference_singleton_L.
    - intros [_ Hn]%elem_of_difference. by apply Hn, elem_of_singleton. }
  rewrite Hperm. cbn. by rewrite Hstem.
Qed.

(** When every key of the dictionary names a file that [list_all] lists,
    the listing shrinks by the number of files cleaned. *)
Lemma cleanup_loop_listing now retention_days :
  Forall (fun kd => is_Some (top_level_stem (_get_cache_path kd.1)))
    retention_days ->
  forall cleaned fs n fs',
    cleanup_loop now retention_days cleaned fs = (Return n, fs') ->
    (length (top_level_keys fs) + cleaned
     = length (top_level_keys fs') + n)%nat.
Proof.
  induction 1 as [|[key d] rest [stem Hstem] Hrest IH];
    intros cleaned fs n fs' Hrun.
  - cbn in Hrun. unfold ret in Hrun. by simplify_eq.
  - rewrite cleanup_loop_step in Hrun.
    destruct (stale now fs key d) eqn:Hstale.
    + apply IH in Hrun.
      rewrite (top_level_keys_delete fs (_get_cache_path key) stem); [lia | | done].
      unfold stale in Hstale.
      destruct (files fs !! _get_cache_path key); [eauto | done].
    + by apply IH.
Qed.

Lemma step0_policy_top_level articles_days news_days :
  Forall (fun kd => is_Some (top_level_stem (_get_cache_path kd.1)))
    (step0_policy articles_days news_days).
Proof. repeat constructor; by eexists. Qed.

Lemma has_slash_app s1 s2 :
  has_slash (s1 ++ s2) = has_slash s1 || has_slash s2.
Proof.
  unfold has_slash. induction s1 as [|c s1 IH]; [done|].
  change (String c s1 ++ s2) with (String c (s1 ++ s2)).
  cbn. by rewrite IH, orb_assoc.
Qed.

Lemma has_slash_shard_path category name :
  has_slash (shard_path category name) = true.
Proof.
  unfold shard_path. rewrite !has_slash_app. cbn. by rewrite orb_true_r.
Qed.

(** No shard path is the path of a key of [run_step0]'s policy. *)
Lemma doomed_shard_path now fs articles_days news_days category name :
  doomed now fs (step0_policy articles_days news_days)
    (shard_path category name) = false.
Proof.
  assert (Hne : forall key, has_slash (_get_cache_path key) = false ->
            String.eqb (shard_path category name) (_get_cache_path key) = false).
  { intros key Hkey. apply String.eqb_neq. intros Heq.
    by rewrite <- Heq, has_slash_shard_path in Hkey. }
  unfold doomed, step0_policy. cbn [existsb fst snd].
  rewrite !Hne by done. done.
Qed.

(** C4, as the code has it.  For every retention dictionary, [cleanup]
    returns and deletes exactly the files [<key>.json] of its keys that
    exist and are stale: age in whole days at least the configured number,
    or no [cached_at] to read.  Every other file stays as it was; with
    the dictionary [run_step0] builds this includes every date shard
    [<category>/<name>.json], whatever its age.  The counter [cleaned] is
    the number of files removed; with the dictionary of [run_step0] it is
    also the difference [initial_count - final_count] of the two listings
    that [run_step0] reports.  The lock file and the backups are not
    touched. *)
Theorem cleanup_removes_stale_entries (t : Z)
    (retention_days : list (string * Z)) (fs : cache_fs) :
  exists cleaned fs',
    cleanup t retention_days fs = (Return cleaned, fs') /\
    (forall path,
       files fs' !! path
       = if doomed t fs retention_days path then None else files fs !! path) /\
    (forall key days,
       (key, days) ∈ retention_days -> stale t fs key days = true ->
       files fs' !! _get_cache_path key = None) /\
    (forall articles_days news_days category name,
       retention_days = step0_policy articles_days news_days ->
       files fs' !! shard_path category name
       = files fs !! shard_path category name) /\
    size (files fs) = (size (files fs') + cleaned)%nat /\
    (forall articles_days news_days,
       retention_days = step0_policy articles_days news_days ->
       Z.of_nat (length (top_level_keys fs))
         - Z.of_nat (length (top_level_keys fs'))
       = Z.of_nat cleaned) /\
    lock_file fs' = lock_file fs /\ backups fs' = backups fs.
Proof.
  destruct (cleanup_loop_spec t retention_days 0 fs)
    as (n & fs' & Hrun & Hlock & Hbak & Hfiles & Hsize).
  exists n, fs'. split; [done|]. split; [done|]. split; [|split].
  - intros key days Hin Hstale. rewrite Hfiles.
    assert (doomed t fs retention_days (_get_cache_path key) = true) as ->; [|done].
    unfold doomed. apply existsb_exists. exists (key, days).
    split; [by apply list_elem_of_In|]. cbn.
    by rewrite String.eqb_refl, Hstale.
  - intros a n' category name ->. by rewrite Hfiles, doomed_shard_path.
  - split; [lia|]. split; [|done].
    intros a n' ->.
    pose proof (cleanup_loop_listing t _ (step0_policy_top_level a n')
                  0%nat fs n fs' Hrun) as Hlist.
    lia.
Qed.

(** C4, counterexample.  With the retention of three days that
    [run_step0] configures for [news], the shard
    [news/news_2024-06-01.json] written a hundred days before the
    clean-up is still there afterwards. *)
Lemma cleanup_keeps_old_shards : ~ cleanup_removes_old_shards.
Proof.
  intros Hclaim.
  specialize (Hclaim (20000 * usec_per_day) (step0_policy 10 3)
    {| files := {[ shard_path "news" "news_2024-06-01"
                     := Entry (19900 * usec_per_day) ]};
       lock_file := None; backups := [] |}
    "news" "news_2024-06-01" 3 (19900 * usec_per_day)).
  assert (Hkept : files (cleanup (20000 * usec_per_day) (step0_policy 10 3)
    {| files := {[ shard_path "news" "news_2024-06-01"
                     := Entry (19900 * usec_per_day) ]};
       lock_file := None; backups := [] |}).2
    !! shard_path "news" "news_2024-06-01" = Some (Entry (19900 * usec_per_day)))
    by (vm_compute; reflexivity).
  rewrite Hclaim in Hkept; [done | | by vm_compute | by vm_compute].
  unfold step0_policy. set_solver.
Qed.

End Step0Facts.

(** ** Merging duplicate news (C1, C2, C8) *)

Module Step4Facts.
Import Step4MultiDedup.
Local Open Scope list_scope.

Lemma validates_count_matches c : validates c = true -> count_matches c.
Proof.
  unfold validates, count_matches. rewrite !andb_true_iff.
  intros (_ & Hc). by apply Z.eqb_eq.
Qed.

Lemma validates_has_slug c : validates c = true -> article_slugs c <> [].
Proof.
  unfold validates. rewrite !andb_true_iff.
  intros ((_ & Hpos%Z.leb_le) & Hc%Z.eqb_eq) Hnil.
  rewrite Hnil in Hc. cbn in Hc. lia.
Qed.

Lemma NewsCluster_new_Some c u :
  NewsCluster_new c = Some u -> u = c /\ validates u = true.
Proof.
  unfold NewsCluster_new. destruct (validates c) eqn:Hv; [|done].
  by intros [= <-].
Qed.

(** Every value of an index is an element of the indexed list, filed
    under its own id. *)
Lemma index_by_id_lookup news_list id c :
  index_by_id news_list !! id = Some c -> c ∈ news_list /\ news_id c = id.
Proof.
  unfold index_by_id.
  assert (Hgen : forall l (m : gmap string NewsCluster),
    foldl (fun m news => <[news_id news := news]> m) m l !! id = Some c ->
    (c ∈ l /\ news_id c = id) \/ m !! id = Some c).
  { induction l as [|n l IH]; intros m Hl; [by right|].
    cbn in Hl. destruct (IH _ Hl) as [[Hin Hid] | Hm].
    - left. split; [by apply list_elem_of_further | done].
    - destruct (decide (news_id n = id)) as [Heq | Hne].
      + rewrite <- Heq, lookup_insert_eq in Hm. simplify_eq.
        left. split; [apply list_elem_of_here | done].
      + rewrite lookup_insert_ne in Hm by done. by right. }
  intros Hl. destruct (Hgen _ _ Hl) as [? | Hm]; [done|].
  by rewrite lookup_empty in Hm.
Qed.

Lemma replace_first_elem_of id u l :
  (exists c, c ∈ l /\ news_id c = id) -> u ∈ replace_first id u l.
Proof.
  induction l as [|n l IH]; intros (c & Hin & Hid).
  - by apply elem_of_nil in Hin.
  - cbn. destruct (decide (news_id n = id)); [apply list_elem_of_here|].
    apply list_elem_of_further, IH. apply elem_of_cons in Hin as [-> | Hin];
      [done | eauto].
Qed.

Lemma replace_first_Forall (P : NewsCluster -> Prop) id u l :
  P u -> Forall P l -> Forall P (replace_first id u l).
Proof.
  intros Hu. induction 1 as [|n l Hn Hl IH]; cbn; [done|].
  destruct (decide (news_id n = id)); by constructor.
Qed.

Lemma remove_id_Forall (P : NewsCluster -> Prop) id l :
  Forall P l -> Forall P (remove_id id l).
Proof.
  rewrite !Forall_forall. intros Hl c [_ Hc]%list_elem_of_filter. by apply Hl.
Qed.

Section Merge.
Context {set_order : PySetOrder}.
Variable utcnow : nat -> Z.

Lemma list_of_set_nonempty xs : xs <> [] -> list_of_set xs <> [].
Proof.
  destruct xs as [|x xs]; [done|]. intros _ Hnil.
  assert (Hx : x ∈ list_of_set (x :: xs))
    by (apply elem_of_list_of_set, list_elem_of_here).
  rewrite Hnil in Hx. by apply elem_of_nil in Hx.
Qed.

(** Building the merged cluster from a valid base succeeds, and the
    result takes everything but slugs, count, keywords and
    [updated_at] from the base. *)
Lemma build_updated_spec base to_merge t :
  validates base = true ->
  exists u,
    build_updated base to_merge t = Some u /\
    validates u = true /\
    news_id u = news_id base /\ title u = title base /\
    summary u = summary base /\ main_topic u = main_topic base /\
    created_at u = created_at base /\ updated_at u = Some t /\
    article_slugs u
      = list_of_set (article_slugs base ++ article_slugs to_merge) /\
    keywords u
      = take 10 (list_of_set (keywords base ++ keywords to_merge)).
Proof.
  intros Hbase. unfold build_updated, NewsCluster_new.
  set (merged := list_of_set (article_slugs base ++ article_slugs to_merge)).
  assert (Hne : merged <> []).
  { apply list_of_set_nonempty. intros [Hb _]%app_eq_nil.
    by apply (validates_has_slug base). }
  assert (Hv : validates {|
    news_id := news_id base; title := title base; summary := summary base;
    article_slugs := merged; article_count := Z.of_nat (length merged);
    main_topic := main_topic base;
    keywords := take 10 (list_of_set (keywords base ++ keywords to_merge));
    created_at := created_at base; updated_at := Some t |} = true).
  { unfold validates in *. cbn. rewrite !andb_true_iff in *.
    destruct Hbase as (((Ht & Hs) & _) & _).
    repeat split; [done | done | | by apply Z.eqb_eq].
    apply Z.leb_le. destruct merged; [done | cbn; lia]. }
  rewrite Hv. eexists. split; [done|]. by repeat split.
Qed.

Lemma choose_base_valid today_item cached_item :
  validates today_item = true -> validates cached_item = true ->
  validates (choose_base today_item cached_item).1 = true.
Proof. unfold choose_base. by destruct (_ <=? _). Qed.

(** One turn of the loop on a judgment whose two sides resolve. *)
Lemma merge_pair_resolved today_map cached_map st p today_item cached_item :
  today_map !! news_today_id p = Some today_item ->
  cached_map !! news_cached_id p = Some cached_item ->
  validates today_item = true -> validates cached_item = true ->
  let base := (choose_base today_item cached_item).1 in
  let to_merge := (choose_base today_item cached_item).2 in
  exists merged,
    build_updated base to_merge (utcnow (clock_reads st)) = Some merged /\
    merge_pair utcnow today_map cached_map st p
    = Some {|
        result_news :=
          if decide (base = cached_item)
          then replace_first (news_id cached_item) merged (result_news st)
          else remove_id (news_id cached_item) (result_news st) ++ [merged];
        merged_today_ids := {[news_today_id p]} ∪ merged_today_ids st;
        clock_reads := S (clock_reads st) |}.
Proof.
  intros Ht Hc Hvt Hvc base to_merge.
  destruct (build_updated_spec base to_merge (utcnow (clock_reads st)))
    as (merged & Hbuild & _); [by apply choose_base_valid|].
  exists merged. split; [done|].
  unfold merge_pair. rewrite Ht, Hc.
  subst base to_merge. destruct (choose_base today_item cached_item) as [b m].
  cbn in *. by rewrite Hbuild.
Qed.
End Merge.

(** C1, as the code has it.  A judgment whose two sides resolve merges
    into the base, and the merged cluster keeps the base's id, title,
    summary, topic and creation time; its slugs are those of both sides.
    The base is today's cluster when its count is at least the cached
    one's, ties included, and the cached cluster otherwise.  This holds
    at every turn of the loop, and when the judgment is the only one the
    merged cluster is in the list returned. *)
Theorem merge_base_selection {set_order : PySetOrder} (utcnow : nat -> Z)
    (today_news cached_news : list NewsCluster) (p : NewsDeduplicationPair)
    (today_item cached_item : NewsCluster) :
  index_by_id today_news !! news_today_id p = Some today_item ->
  index_by_id cached_news !! news_cached_id p = Some cached_item ->
  validates today_item = true -> validates cached_item = true ->
  let base := (choose_base today_item cached_item).1 in
  let to_merge := (choose_base today_item cached_item).2 in
  (article_count cached_item <= article_count today_item ->
     base = today_item /\ to_merge = cached_item) /\
  (article_count today_item < article_count cached_item ->
     base = cached_item /\ to_merge = today_item) /\
  (forall st, exists merged st',
     merge_pair utcnow (index_by_id today_news) (index_by_id cached_news) st p
       = Some st' /\
     keeps_identity_of merged base /\
     result_news st'
     = (if decide (base = cached_item)
        then replace_first (news_id cached_item) merged (result_news st)
        else remove_id (news_id cached_item) (result_news st) ++ [merged])) /\
  exists merged result,
    _merge_duplicate_news utcnow today_news cached_news [p] = Some result /\
    merged ∈ result /\
    keeps_identity_of merged base /\
    updated_at merged = Some (utcnow 0%nat) /\
    article_slugs merged
      = list_of_set (article_slugs base ++ article_slugs to_merge) /\
    article_count merged = Z.of_nat (length (article_slugs merged)).
Proof.
  intros Ht Hc Hvt Hvc base to_merge.
  split; [|split; [|split]].
  - intros Hle. subst base to_merge. unfold choose_base.
    by destruct (Z.leb_spec (article_count cached_item) (article_count today_item));
      [|lia].
  - intros Hlt. subst base to_merge. unfold choose_base.
    by destruct (Z.leb_spec (article_count cached_item) (article_count today_item));
      [lia|].
  - intros st.
    destruct (merge_pair_resolved utcnow _ _ st p _ _ Ht Hc Hvt Hvc)
      as (merged & Hbuild & Hstep).
    destruct (build_updated_spec (choose_base today_item cached_item).1
                (choose_base today_item cached_item).2
                (utcnow (clock_reads st)))
      as (u & Hu & _ & Hid & Hti & Hsu & Hto & Hcr & _);
      [by apply choose_base_valid|].
    rewrite Hbuild in Hu. injection Hu as <-.
    eexists merged, _. split; [exact Hstep|]. by repeat split.
  - set (st0 := {| result_news := cached_news; merged_today_ids := ∅;
                   clock_reads := 0 |}).
    destruct (merge_pair_resolved utcnow _ _ st0 p _ _ Ht Hc Hvt Hvc)
      as (merged & Hbuild & Hstep).
    destruct (build_updated_spec (choose_base today_item cached_item).1
                (choose_base today_item cached_item).2
                (utcnow (clock_reads st0)))
      as (u & Hu & Hvu & Hid & Hti & Hsu & Hto & Hcr & Hup & Hslugs & _);
      [by apply choose_base_valid|].
    rewrite Hbuild in Hu. injection Hu as <-.
    eexists merged, _. split.
    { unfold _merge_duplicate_news. cbn [merge_loop]. fold st0.
      rewrite Hstep. cbn. reflexivity. }
    split; [|split; [by repeat split | split; [done | split; [done|]]]].
    + apply elem_of_app. left. fold base. destruct (decide (base = cached_item)).
      * apply replace_first_elem_of. exists cached_item.
        by apply index_by_id_lookup in Hc as [? ?].
      * apply elem_of_app. right. apply list_elem_of_here.
    + by apply validates_count_matches.
Qed.

(** C1, the reading of the spec example: today's cluster has one
    article, the cached one three; the merged cluster keeps the cached
    id and counts four articles. *)
Lemma merge_base_selection_witness :
  exists merged result,
    _merge_duplicate_news (set_order := first_occurrence_order) Samples.clock
      [Samples.today_gpt5] [Samples.cached_gpt5_large]
      [Samples.judgment "news-today-0001234" "news-cache-0003333"]
    = Some result /\
    merged ∈ result /\
    news_id merged = "news-cache-0003333" /\ article_count merged = 4.
Proof.
  destruct (merge_base_selection (set_order := first_occurrence_order)
              Samples.clock [Samples.today_gpt5] [Samples.cached_gpt5_large]
              (Samples.judgment "news-today-0001234" "news-cache-0003333")
              Samples.today_gpt5 Samples.cached_gpt5_large
              eq_refl eq_refl eq_refl eq_refl)
    as (_ & _ & _ & merged & result & Hrun & Hin & Hid & _ & Hslugs & Hcount).
  exists merged, result. split; [exact Hrun|]. split; [exact Hin|].
  split; [exact (proj1 Hid)|]. rewrite Hcount, Hslugs. reflexivity.
Defined.

(** C1, counterexample.  Today's cluster and the cached one have one
    article each; the merged cluster carries today's id, not the cached
    one's. *)
Lemma merge_tie_takes_today_as_base :
  article_count Samples.today_gpt5 = article_count Samples.cached_gpt5 /\
  exists merged,
    _merge_duplicate_news (set_order := first_occurrence_order) Samples.clock
      [Samples.today_gpt5] [Samples.cached_gpt5]
      [Samples.judgment "news-today-0001234" "news-cache-0001111"]
    = Some [merged] /\
    news_id merged = news_id Samples.today_gpt5 /\
    news_id merged <> news_id Samples.cached_gpt5.
Proof.
  split; [reflexivity|]. eexists. split; [vm_compute; reflexivity|].
  split; [reflexivity | discriminate].
Qed.

(** *** Invariants of the result *)

Section Invariants.
Context {set_order : PySetOrder}.
Variable utcnow : nat -> Z.
Variables today_news cached_news : list NewsCluster.
Hypothesis today_valid : Forall (fun c => validates c = true) today_news.
Hypothesis cached_valid : Forall (fun c => validates c = true) cached_news.

Local Abbreviation sound_entry := (sound_entry today_news cached_news).

Lemma built_entry_sound base to_merge t merged :
  build_updated base to_merge t = Some merged -> sound_entry merged.
Proof.
  unfold build_updated. intros [-> Hv]%NewsCluster_new_Some.
  split; [done|]. right; right. split; [|by eexists].
  unfold keywords_bounded. cbn. rewrite length_take. lia.
Qed.

Lemma merge_pair_sound st p :
  Forall sound_entry (result_news st) ->
  exists st',
    merge_pair utcnow (index_by_id today_news) (index_by_id cached_news) st p
      = Some st' /\
    Forall sound_entry (result_news st').
Proof.
  intros Hst.
  destruct (index_by_id today_news !! news_today_id p) as [today_item|] eqn:Ht;
    [|exists st; unfold merge_pair; by rewrite Ht].
  destruct (index_by_id cached_news !! news_cached_id p) as [cached_item|] eqn:Hc;
    [|exists st; unfold merge_pair; by rewrite Ht, Hc].
  assert (Hvt : validates today_item = true).
  { apply index_by_id_lookup in Ht as [Hin _].
    by apply (proj1 (Forall_forall _ _) today_valid). }
  assert (Hvc : validates cached_item = true).
  { apply index_by_id_lookup in Hc as [Hin _].
    by apply (proj1 (Forall_forall _ _) cached_valid). }
  destruct (merge_pair_resolved utcnow _ _ st p _ _ Ht Hc Hvt Hvc)
    as (merged & Hbuild & ->).
  apply built_entry_sound in Hbuild.
  eexists. split; [done|]. cbn.
  destruct (decide _).
  - by apply replace_first_Forall.
  - apply Forall_app. split; [by apply remove_id_Forall | by constructor].
Qed.

Lemma merge_loop_sound pairs : forall st,
  Forall sound_entry (result_news st) ->
  exists st',
    merge_loop utcnow (index_by_id today_news) (index_by_id cached_news) pairs st
      = Some st' /\
    Forall sound_entry (result_news st').
Proof.
  induction pairs as [|p pairs IH]; intros st Hst; [by exists st|].
  destruct (merge_pair_sound st p Hst) as (st1 & Hstep & Hst1).
  destruct (IH st1 Hst1) as (st' & Hloop & Hst').
  exists st'. cbn. by rewrite Hstep.
Qed.

Lemma merge_sound pairs :
  exists result,
    _merge_duplicate_news utcnow today_news cached_news pairs = Some result /\
    Forall sound_entry result.
Proof.
  destruct (merge_loop_sound pairs
    {| result_news := cached_news; merged_today_ids := ∅; clock_reads := 0 |})
    as (st' & Hloop & Hst').
  { cbn. apply Forall_forall. intros c Hc. split.
    - by apply (proj1 (Forall_forall _ _) cached_valid).
    - right. by left. }
  eexists. unfold _merge_duplicate_news. rewrite Hloop. cbn.
  split; [done|]. apply Forall_app. split; [done|].
  apply Forall_forall. intros c [_ Hc]%list_elem_of_filter. split.
  - by apply (proj1 (Forall_forall _ _) today_valid).
  - by left.
Qed.
End Invariants.

(** C8, as the code has it.  On validated clusters the merge returns, and
    every cluster of the result has [article_count] equal to the number of
    its [article_slugs].  Each of them is either an input cluster passed
    through as it came or a merged cluster, and a merged cluster has at
    most ten keywords; so the result keeps the bound on keywords when the
    inputs have it. *)
Theorem merge_result_invariants {set_order : PySetOrder} (utcnow : nat -> Z)
    (today_news cached_news : list NewsCluster)
    (duplicate_pairs : list NewsDeduplicationPair) :
  Forall (fun c => validates c = true) today_news ->
  Forall (fun c => validates c = true) cached_news ->
  exists result,
    _merge_duplicate_news utcnow today_news cached_news duplicate_pairs
      = Some result /\
    Forall count_matches result /\
    Forall (passed_or_merged today_news cached_news) result /\
    (Forall keywords_bounded today_news ->
     Forall keywords_bounded cached_news ->
     Forall keywords_bounded result).
Proof.
  intros Htoday Hcached.
  destruct (merge_sound utcnow today_news cached_news Htoday Hcached
              duplicate_pairs) as (result & Hrun & Hsound).
  exists result. split; [done|].
  rewrite Forall_forall in Hsound. split; [|split].
  - apply Forall_forall. intros c Hc.
    by apply validates_count_matches, Hsound.
  - apply Forall_forall. intros c Hc. by apply Hsound.
  - intros Hbt Hbc. rewrite Forall_forall in Hbt, Hbc.
    apply Forall_forall. intros c Hc.
    destruct (Hsound c Hc) as (_ & [Hin | [Hin | [Hb _]]]); auto.
Qed.

(** C8, on the sample data: two clusters of today, one of them merged
    into the cached cluster of three articles. *)
Lemma merge_result_invariants_witness :
  exists result,
    _merge_duplicate_news (set_order := first_occurrence_order) Samples.clock
      [Samples.today_gpt5; Samples.today_gpt5_bis] [Samples.cached_gpt5_large]
      [Samples.judgment "news-today-0001234" "news-cache-0003333"]
    = Some result /\
    Forall count_matches result /\ Forall keywords_bounded result.
Proof.
  destruct (merge_result_invariants (set_order := first_occurrence_order)
              Samples.clock
              [Samples.today_gpt5; Samples.today_gpt5_bis]
              [Samples.cached_gpt5_large]
              [Samples.judgment "news-today-0001234" "news-cache-0003333"])
    as (result & Hrun & Hcount & _ & Hkw).
  - repeat constructor.
  - repeat constructor.
  - exists result. split; [exact Hrun|]. split; [exact Hcount|].
    apply Hkw; repeat constructor; unfold keywords_bounded; cbn; lia.
Defined.

(** C8, counterexample.  A validated cached cluster with eleven keywords
    that no judgment names passes through the merge with its eleven
    keywords. *)
Lemma merge_passes_long_keywords_through :
  validates Samples.cached_wordy = true /\
  validates Samples.today_gpt5 = true /\
  exists result,
    _merge_duplicate_news (set_order := first_occurrence_order) Samples.clock
      [Samples.today_gpt5] [Samples.cached_wordy] [] = Some result /\
    Samples.cached_wordy ∈ result /\
    ~ keywords_bounded Samples.cached_wordy.
Proof.
  split; [reflexivity|]. split; [reflexivity|].
  eexists. split; [vm_compute; reflexivity|].
  split; [apply list_elem_of_here|].
  unfold keywords_bounded. cbn. lia.
Qed.

(** *** Two judgments on one base *)

(** Settles a closed decidable proposition by evaluating its decision. *)
Ltac by_compute :=
  match goal with
  | |- ?P => apply (bool_decide_unpack P); vm_compute; exact I
  end.

(** C2.  Two clusters of today are each judged a duplicate of the same
    cached cluster, which has more articles than either and so is the base
    both times.  Whatever the order of set iteration and the clock, the
    list returned holds one cluster whose slugs are those of the base and
    of the pair processed last: the slugs of the pair processed first are
    in no cluster of the result, although that cluster of today has been
    dropped as merged.  Swapping the two judgments swaps which slugs
    survive, so the results differ. *)
Theorem merge_same_base_overwrites {set_order : PySetOrder} (utcnow : nat -> Z) :
  let today_news := [Samples.today_gpt5; Samples.today_gpt5_bis] in
  let cached_news := [Samples.cached_gpt5_large] in
  let first := Samples.judgment "news-today-0001234" "news-cache-0003333" in
  let second := Samples.judgment "news-today-0005678" "news-cache-0003333" in
  exists m12 m21,
    _merge_duplicate_news utcnow today_news cached_news [first; second]
      = Some [m12] /\
    _merge_duplicate_news utcnow today_news cached_news [second; first]
      = Some [m21] /\
    ("openai-gpt5-release" ∉ article_slugs m12) /\
    ("gpt5-launch-recap" ∈ article_slugs m12) /\
    ("openai-gpt5-release" ∈ article_slugs m21) /\
    ("gpt5-launch-recap" ∉ article_slugs m21) /\
    m12 <> m21.
Proof.
  intros today_news cached_news first second.
  set (base := Samples.cached_gpt5_large).
  (* the cluster each judgment builds, at either position *)
  assert (Hturn : forall p today_item st,
    index_by_id today_news !! news_today_id p = Some today_item ->
    news_cached_id p = "news-cache-0003333" ->
    validates today_item = true -> article_count today_item = 1 ->
    exists merged,
      merge_pair utcnow (index_by_id today_news) (index_by_id cached_news) st p
      = Some {| result_news := replace_first "news-cache-0003333" merged
                                 (result_news st);
                merged_today_ids := {[news_today_id p]} ∪ merged_today_ids st;
                clock_reads := S (clock_reads st) |} /\
      news_id merged = "news-cache-0003333" /\
      article_slugs merged
      = list_of_set (article_slugs base ++ article_slugs today_item)).
  { intros p today_item st Ht Hcid Hvt Hcount.
    assert (Hc : index_by_id cached_news !! news_cached_id p = Some base)
      by (rewrite Hcid; reflexivity).
    destruct (merge_pair_resolved utcnow _ _ st p _ _ Ht Hc Hvt eq_refl)
      as (merged & Hbuild & Hstep).
    assert (Hchoice : choose_base today_item base = (base, today_item)).
    { unfold choose_base. rewrite Hcount. reflexivity. }
    rewrite Hchoice in Hbuild, Hstep. cbn [fst snd] in Hbuild, Hstep.
    rewrite decide_True in Hstep by done.
    destruct (build_updated_spec base today_item (utcnow (clock_reads st)) eq_refl)
      as (u & Hu & _ & Hid & _ & _ & _ & _ & _ & Hslugs & _).
    rewrite Hbuild in Hu. injection Hu as <-.
    exists merged. by repeat split. }
  (* both orders of the two judgments *)
  assert (Hboth : forall p q tp tq,
    index_by_id today_news !! news_today_id p = Some tp ->
    index_by_id today_news !! news_today_id q = Some tq ->
    news_cached_id p = "news-cache-0003333" ->
    news_cached_id q = "news-cache-0003333" ->
    validates tp = true -> validates tq = true ->
    article_count tp = 1 -> article_count tq = 1 ->
    filter (fun news => news_id news
                        ∉ ({[news_today_id q]} ∪ ({[news_today_id p]} ∪ ∅)
                            : gset string)) today_news = [] ->
    exists merged,
      _merge_duplicate_news utcnow today_news cached_news [p; q] = Some [merged] /\
      article_slugs merged = list_of_set (article_slugs base ++ article_slugs tq)).
  { intros p q tp tq Hp Hq Hcp Hcq Hvp Hvq Hnp Hnq Hrest.
    unfold _merge_duplicate_news. cbn [merge_loop].
    destruct (Hturn p tp {| result_news := cached_news; merged_today_ids := ∅;
                            clock_reads := 0 |} Hp Hcp Hvp Hnp)
      as (m1 & -> & Hid1 & _).
    cbn [mbind option_bind result_news merged_today_ids clock_reads].
    destruct (Hturn q tq {| result_news := replace_first "news-cache-0003333" m1
                                            cached_news;
                            merged_today_ids := {[news_today_id p]} ∪ ∅;
                            clock_reads := 1 |} Hq Hcq Hvq Hnq)
      as (m2 & -> & _ & Hslugs2).
    cbn [mbind option_bind result_news merged_today_ids clock_reads].
    exists m2. split; [|done]. rewrite Hrest.
    subst cached_news. cbn [replace_first].
    rewrite decide_True by reflexivity. cbn [replace_first].
    rewrite decide_True by done. reflexivity. }
  destruct (Hboth first second Samples.today_gpt5 Samples.today_gpt5_bis
              eq_refl eq_refl eq_refl eq_refl eq_refl eq_refl eq_refl eq_refl
              eq_refl)
    as (m12 & Hrun12 & Hslugs12).
  destruct (Hboth second first Samples.today_gpt5_bis Samples.today_gpt5
              eq_refl eq_refl eq_refl eq_refl eq_refl eq_refl eq_refl eq_refl
              eq_refl)
    as (m21 & Hrun21 & Hslugs21).
  assert (H1 : "openai-gpt5-release" ∉ article_slugs m12).
  { rewrite Hslugs12, elem_of_list_of_set. cbn. by_compute. }
  assert (H2 : "gpt5-launch-recap" ∈ article_slugs m12).
  { rewrite Hslugs12, elem_of_list_of_set. cbn. by_compute. }
  assert (H3 : "openai-gpt5-release" ∈ article_slugs m21).
  { rewrite Hslugs21, elem_of_list_of_set. cbn. by_compute. }
  assert (H4 : "gpt5-launch-recap" ∉ article_slugs m21).
  { rewrite Hslugs21, elem_of_list_of_set. cbn. by_compute. }
  exists m12, m21. repeat (split; [done|]). by intros ->.
Qed.

End Step4Facts.

(** ** Loading, saving and deduplicating article shards (C3, C6, C7, C10) *)

Module Step2Facts.
Import Step2Dedup.
Local Open Scope list_scope.

(** *** The clock *)

Lemma usec_per_day_pos : 0 < usec_per_day.
Proof. reflexivity. Qed.

Lemma now_split t :
  t = midnight (day_of t) + time_of_day t /\
  0 <= time_of_day t < usec_per_day.
Proof.
  unfold midnight, day_of, time_of_day. split.
  - rewrite Z.mul_comm. apply Z.div_mod. pose proof usec_per_day_pos. lia.
  - apply Z.mod_pos_bound, usec_per_day_pos.
Qed.

(** A shard is older than the cutoff [now - d days] exactly when its day
    is more than [d] days back, or [d] days back with the run past
    midnight. *)
Lemma before_cutoff now d day :
  (midnight day <? now - timedelta_days d) = true <->
  day < day_of now - d \/ (day = day_of now - d /\ 0 < time_of_day now).
Proof.
  rewrite Z.ltb_lt. destruct (now_split now) as [Hnow Hbound].
  unfold midnight, timedelta_days in *. pose proof usec_per_day_pos. nia.
Qed.

Section Loading.
Variable strptime : string -> option Z.
Variable cutoff_date : Z.

Local Abbreviation read := (read_cache_file strptime cutoff_date).
Local Abbreviation loaded_from :=
  (fun file : string * shard_text => outcome_articles (read file.1 file.2)).

Lemma foldl_load_step_articles files : forall acc,
  (foldl (load_step strptime cutoff_date) acc files).1
  = acc.1 ++ mjoin (loaded_from <$> files).
Proof.
  induction files as [|[stem text] files IH]; intros [arts st]; cbn.
  - by rewrite app_nil_r.
  - rewrite IH. unfold load_step. cbn.
    destruct (read stem text); cbn; by rewrite ?app_assoc.
Qed.

Lemma elem_of_sorted_glob (dir : directory) stem text :
  (stem, text) ∈ sorted_glob dir <-> dir !! stem = Some text.
Proof.
  unfold sorted_glob. rewrite merge_sort_Permutation.
  apply elem_of_map_to_list.
Qed.

(** The articles returned are those of the files found [Loaded]. *)
Lemma elem_of_load_cached_articles (dir : directory) a :
  a ∈ (_load_cached_articles strptime (Some dir) cutoff_date).1 <->
  exists stem text arts,
    dir !! stem = Some text /\ read stem text = Loaded arts /\ a ∈ arts.
Proof.
  unfold _load_cached_articles. rewrite foldl_load_step_articles. cbn.
  rewrite list_elem_of_join. split.
  - intros (arts & Ha & Hfile). apply list_elem_of_fmap in Hfile
      as ([stem text] & -> & Hin%elem_of_sorted_glob). cbn in Ha.
    destruct (read stem text) as [| |arts] eqn:Hread;
      try (by apply elem_of_nil in Ha).
    by exists stem, text, arts.
  - intros (stem & text & arts & Hdir & Hread & Ha).
    exists arts. split; [done|]. apply list_elem_of_fmap.
    exists (stem, text). cbn. rewrite Hread. split; [done|].
    by apply elem_of_sorted_glob.
Qed.

Lemma read_loaded stem text day cached_day :
  strptime stem = Some day -> cutoff_date <= midnight day ->
  parse_day text = inr cached_day ->
  read stem text = Loaded (articles cached_day).
Proof.
  intros Hstem Hday Hparse. unfold read_cache_file. rewrite Hstem.
  destruct (Z.ltb_spec (midnight day) cutoff_date); [lia|].
  by rewrite Hparse.
Qed.

Lemma read_skipped stem text day :
  strptime stem = Some day -> midnight day < cutoff_date ->
  read stem text = Skipped.
Proof.
  intros Hstem Hday. unfold read_cache_file. rewrite Hstem.
  by destruct (Z.ltb_spec (midnight day) cutoff_date); [|lia].
Qed.


(** A file that is corrupted for the loader: a name that spells no date,
    or a date inside the window on a body that fails to parse. *)
Lemma read_corrupted stem text :
  strptime stem = None \/
  (exists day err, strptime stem = Some day /\ cutoff_date <= midnight day /\
                   parse_day text = inl err) ->
  read stem text = Corrupted.
Proof.
  unfold read_cache_file. intros [-> | (day & err & -> & Hday & ->)]; [done|].
  by destruct (Z.ltb_spec (midnight day) cutoff_date); [lia|].
Qed.
End Loading.

(** C3, as the code has it.  With the cutoff [now - d days], a readable
    shard whose name spells a day less than [d] days before today is
    loaded; the shard of the day exactly [d] days before today is loaded
    when the run happens at midnight sharp and skipped at any later time of
    day; an older shard is skipped.  A skipped file adds nothing: every
    article returned comes from a file found loaded. *)
Theorem load_retention_boundary (strptime : string -> option Z) (now d : Z)
    (dir : directory) (stem : string) (day : Z) (text : shard_text)
    (cached_day : CachedArticlesDay) :
  dir !! stem = Some text ->
  strptime stem = Some day ->
  parse_day text = inr cached_day ->
  let cutoff_date := now - timedelta_days d in
  let loaded := (_load_cached_articles strptime (Some dir) cutoff_date).1 in
  (day_of now - d < day ->
     forall a, a ∈ articles cached_day -> a ∈ loaded) /\
  (day = day_of now - d -> time_of_day now = 0 ->
     forall a, a ∈ articles cached_day -> a ∈ loaded) /\
  (day = day_of now - d -> 0 < time_of_day now ->
     read_cache_file strptime cutoff_date stem text = Skipped) /\
  (day < day_of now - d ->
     read_cache_file strptime cutoff_date stem text = Skipped) /\
  (forall a, a ∈ loaded ->
     exists stem' text' arts,
       dir !! stem' = Some text' /\
       read_cache_file strptime cutoff_date stem' text' = Loaded arts /\
       a ∈ arts).
Proof.
  intros Hdir Hstem Hparse cutoff_date loaded.
  assert (Hin : cutoff_date <= midnight day ->
                forall a, a ∈ articles cached_day -> a ∈ loaded).
  { intros Hday a Ha. apply elem_of_load_cached_articles.
    exists stem, text, (articles cached_day).
    split; [done|]. split; [by apply read_loaded with day|done]. }
  assert (Hcut : (midnight day <? cutoff_date) = true <->
            day < day_of now - d \/ (day = day_of now - d /\ 0 < time_of_day now))
    by apply before_cutoff.
  rewrite Z.ltb_lt in Hcut.
  split; [|split; [|split; [|split]]].
  - intros Hday. apply Hin.
    destruct (Z.le_gt_cases cutoff_date (midnight day)) as [|Hlt]; [done|].
    apply Hcut in Hlt. lia.
  - intros Hday Htod. apply Hin.
    destruct (Z.le_gt_cases cutoff_date (midnight day)) as [|Hlt]; [done|].
    apply Hcut in Hlt. lia.
  - intros Hday Htod. apply read_skipped with day; [done|]. apply Hcut. lia.
  - intros Hday. apply read_skipped with day; [done|]. apply Hcut. lia.
  - intros a Ha. by apply elem_of_load_cached_articles.
Qed.

(** C3, on sample shards: on 2024-06-10 at noon with three days of
    look-back the shard of 2024-06-08 is loaded and the shard of
    2024-06-07, the cutoff day, is skipped. *)
Lemma load_retention_boundary_witness :
  let dir : directory :=
    {[ "2024-06-07" := Samples.shard 0 ["openai-gpt5-release"];
       "2024-06-08" := Samples.shard 0 ["gpt5-launch-recap"] ]} in
  let cutoff_date := Samples.june_10_noon - timedelta_days 3 in
  Samples.article "gpt5-launch-recap"
    ∈ (_load_cached_articles Samples.strptime (Some dir) cutoff_date).1 /\
  read_cache_file Samples.strptime cutoff_date "2024-06-07"
    (Samples.shard 0 ["openai-gpt5-release"]) = Skipped.
Proof.
  intros dir cutoff_date. split.
  - refine (proj1 (load_retention_boundary Samples.strptime
      Samples.june_10_noon 3 dir "2024-06-08" 19882 _ _ eq_refl eq_refl eq_refl)
      _ _ _); [reflexivity | apply list_elem_of_here].
  - reflexivity.
Defined.

(** C3, counterexample.  On 2024-06-10 at noon with three days of
    look-back, the shard of 2024-06-07, dated exactly three days before
    today, is not loaded. *)
Lemma load_skips_cutoff_day_at_noon :
  Samples.strptime "2024-06-07" = Some (day_of Samples.june_10_noon - 3) /\
  _load_cached_articles Samples.strptime
    (Some {[ "2024-06-07" := Samples.shard 0 ["openai-gpt5-release"] ]})
    (Samples.june_10_noon - timedelta_days 3)
  = ([], {| files_loaded := 0; files_corrupted := 0 |}).
Proof. split; vm_compute; reflexivity. Qed.

(** *** One valid and one corrupted file *)

Lemma sorted_glob_two (stem1 stem2 : string) (text1 text2 : shard_text) :
  stem1 <> stem2 ->
  let dir : directory := <[stem1 := text1]> {[stem2 := text2]} in
  sorted_glob dir = [(stem1, text1); (stem2, text2)] \/
  sorted_glob dir = [(stem2, text2); (stem1, text1)].
Proof.
  intros Hne dir. apply Permutation_length_2_inv.
  unfold sorted_glob. rewrite merge_sort_Permutation. subst dir.
  rewrite map_to_list_insert by (by apply lookup_singleton_ne).
  by rewrite map_to_list_singleton.
Qed.

(** C6, amended.  The directory holds two shard files.  One is valid: its
    name spells a day inside the window and its body parses.  The other is
    corrupted and reached by the loader: its name spells no date, or it
    spells a day inside the window and reading its body fails (it is not
    JSON, it fails validation, or reading raises any other exception).
    Then loading returns exactly the articles of the valid file, with one
    file loaded and one file corrupted, whichever of the two comes first
    in the sorted listing; being a total function it does so without an
    exception. *)
Theorem load_isolates_corrupted_file (strptime : string -> option Z)
    (cutoff_date : Z) (valid_stem bad_stem : string)
    (valid_text bad_text : shard_text) (day : Z)
    (cached_day : CachedArticlesDay) :
  valid_stem <> bad_stem ->
  strptime valid_stem = Some day ->
  cutoff_date <= midnight day ->
  parse_day valid_text = inr cached_day ->
  (strptime bad_stem = None \/
   exists bad_day err,
     strptime bad_stem = Some bad_day /\ cutoff_date <= midnight bad_day /\
     parse_day bad_text = inl err) ->
  _load_cached_articles strptime
    (Some (<[valid_stem := valid_text]> {[bad_stem := bad_text]})) cutoff_date
  = (articles cached_day, {| files_loaded := 1; files_corrupted := 1 |}).
Proof.
  intros Hne Hstem Hday Hparse Hbad.
  pose proof (read_loaded strptime cutoff_date _ _ _ _ Hstem Hday Hparse) as Hv.
  pose proof (read_corrupted strptime cutoff_date bad_stem bad_text Hbad) as Hb.
  unfold _load_cached_articles.
  destruct (sorted_glob_two valid_stem bad_stem valid_text bad_text Hne)
    as [-> | ->]; cbn; unfold load_step; cbn; rewrite Hv, Hb; cbn;
    rewrite ?Hv, ?Hb; reflexivity.
Qed.

(** C6, on sample files: a readable shard next to one that is not JSON,
    both inside the window. *)
Lemma load_isolates_corrupted_file_witness :
  _load_cached_articles Samples.strptime
    (Some (<["2024-06-08" := Samples.shard 0 ["gpt5-launch-recap"]]>
             {["2024-06-09" := NotJson]}))
    (Samples.june_10_noon - timedelta_days 10)
  = ([Samples.article "gpt5-launch-recap"],
     {| files_loaded := 1; files_corrupted := 1 |}).
Proof.
  apply (load_isolates_corrupted_file Samples.strptime _ "2024-06-08"
           "2024-06-09" _ NotJson 19882
           {| date := 0; articles := [Samples.article "gpt5-launch-recap"];
              total_count := 1 |}).
  - discriminate.
  - reflexivity.
  - vm_compute. discriminate.
  - reflexivity.
  - right. exists 19883, JSONDecodeError.
    split; [reflexivity|]. split; [vm_compute; discriminate | reflexivity].
Defined.

(** C6, counterexample.  One valid shard and one corrupted shard whose
    body is not JSON, the corrupted one dated before the cutoff: the loop
    skips it on its date before the body is read, so it is not counted,
    and [files_corrupted] is 0 where the claim has 1. *)
Lemma load_skips_old_corrupted_file :
  parse_day NotJson = inl JSONDecodeError /\
  _load_cached_articles Samples.strptime
    (Some (<["2024-06-08" := Samples.shard 0 ["gpt5-launch-recap"]]>
             {["2024-06-01" := NotJson]}))
    (Samples.june_10_noon - timedelta_days 3)
  = ([Samples.article "gpt5-launch-recap"],
     {| files_loaded := 1; files_corrupted := 0 |}).
Proof. split; vm_compute; reflexivity. Qed.

(** *** Dictionaries in insertion order *)

Section DictFacts.
Context {V : Type} (key : V -> string).

Lemma elem_of_keys_setitem (d : list (string * V)) k v k' :
  k' ∈ PyDict.keys (PyDict.setitem d k v) <-> k' = k \/ k' ∈ PyDict.keys d.
Proof.
  unfold PyDict.keys. induction d as [|[k0 v0] d IH]; cbn.
  - rewrite list_elem_of_singleton, elem_of_nil. tauto.
  - destruct (decide (k0 = k)) as [-> | Hne]; cbn; rewrite !elem_of_cons.
    + tauto.
    + rewrite IH. tauto.
Qed.

Lemma elem_of_values_setitem (d : list (string * V)) k v x :
  x ∈ PyDict.values (PyDict.setitem d k v) -> x = v \/ x ∈ PyDict.values d.
Proof.
  unfold PyDict.values. induction d as [|[k0 v0] d IH]; cbn.
  - rewrite list_elem_of_singleton. tauto.
  - destruct (decide (k0 = k)) as [-> | Hne]; cbn; rewrite !elem_of_cons.
    + tauto.
    + intros [-> | Hx]; [tauto|]. destruct (IH Hx); tauto.
Qed.

Lemma well_keyed_setitem (d : list (string * V)) v :
  PyDict.well_keyed key d -> PyDict.well_keyed key (PyDict.setitem d (key v) v).
Proof.
  unfold PyDict.well_keyed. induction 1 as [|[k0 v0] d Hk Hd IH]; cbn.
  - by repeat constructor.
  - destruct (decide (k0 = key v)); by constructor.
Qed.

Lemma elem_of_keys_update xs : forall (d : list (string * V)) k,
  k ∈ PyDict.keys (PyDict.update key d xs) <->
  k ∈ PyDict.keys d \/ k ∈ key <$> xs.
Proof.
  unfold PyDict.update. induction xs as [|x xs IH]; intros d k; cbn [foldl].
  - rewrite fmap_nil, elem_of_nil. tauto.
  - rewrite IH, elem_of_keys_setitem, fmap_cons, elem_of_cons. tauto.
Qed.

Lemma elem_of_values_update xs : forall (d : list (string * V)) x,
  x ∈ PyDict.values (PyDict.update key d xs) ->
  x ∈ PyDict.values d \/ x ∈ xs.
Proof.
  unfold PyDict.update. induction xs as [|x0 xs IH]; intros d x; cbn [foldl].
  - tauto.
  - intros [Hx | Hx]%IH; rewrite elem_of_cons; [|tauto].
    apply elem_of_values_setitem in Hx. tauto.
Qed.

Lemma well_keyed_update xs : forall (d : list (string * V)),
  PyDict.well_keyed key d -> PyDict.well_keyed key (PyDict.update key d xs).
Proof.
  unfold PyDict.update. induction xs as [|x xs IH]; intros d Hd; cbn [foldl];
    [done|].
  by apply IH, well_keyed_setitem.
Qed.

Lemma well_keyed_keys (d : list (string * V)) :
  PyDict.well_keyed key d -> key <$> PyDict.values d = PyDict.keys d.
Proof.
  unfold PyDict.well_keyed, PyDict.values, PyDict.keys.
  induction 1 as [|[k v] d Hk Hd IH]; cbn in *; [done|]. by rewrite Hk, IH.
Qed.
End DictFacts.

(** *** Saving today's shard *)

(** The exceptions that the inner handler of the save lets through are
    those of an unreadable body. *)
Lemma existing_articles_of_None file :
  existing_articles_of file = None <-> file = Some Unreadable.
Proof.
  unfold existing_articles_of. destruct file as [[| |day|]|]; cbn;
    try (split; [discriminate | congruence]); try tauto.
  destruct (_ && _); split; (discriminate || congruence).
Qed.

Lemma existing_articles_of_Some (dir : directory) stem :
  dir !! stem <> Some Unreadable ->
  existing_articles_of (dir !! stem) = Some (shard_articles dir stem).
Proof.
  intros Hread. unfold existing_articles_of, shard_articles.
  destruct (dir !! stem) as [[| |day|]|]; cbn; try done.
  by destruct (_ && _).
Qed.

(** The list [all_articles] that [_save_articles_to_daily_cache] writes
    when the existing file does not stop it. *)
Lemma save_result now new_articles stem (dir : directory) :
  dir !! stem <> Some Unreadable ->
  _save_articles_to_daily_cache now new_articles stem dir
  = (true,
     <[stem := dump_day
         {| date := now;
            articles := PyDict.values
              (PyDict.update slug (PyDict.update slug [] (shard_articles dir stem))
                 new_articles);
            total_count := Z.of_nat (length (PyDict.values
              (PyDict.update slug (PyDict.update slug [] (shard_articles dir stem))
                 new_articles))) |}]> dir).
Proof.
  intros Hread. unfold _save_articles_to_daily_cache.
  by rewrite existing_articles_of_Some.
Qed.

(** An unreadable file stops the save: nothing is written. *)
Lemma save_fails now new_articles stem (dir : directory) :
  dir !! stem = Some Unreadable ->
  _save_articles_to_daily_cache now new_articles stem dir = (false, dir).
Proof.
  intros Hdir. unfold _save_articles_to_daily_cache. by rewrite Hdir.
Qed.

(** The save touches no other file. *)
Lemma save_other_files now new_articles stem (dir : directory) other :
  other <> stem ->
  (_save_articles_to_daily_cache now new_articles stem dir).2 !! other
  = dir !! other.
Proof.
  intros Hne. unfold _save_articles_to_daily_cache.
  destruct (existing_articles_of (dir !! stem)); cbn [snd]; [|done].
  by rewrite lookup_insert_ne.
Qed.

Lemma parse_dump_day now arts :
  parse_day (dump_day {| date := now; articles := arts;
                         total_count := Z.of_nat (length arts) |})
  = inr {| date := now; articles := arts;
           total_count := Z.of_nat (length arts) |}.
Proof.
  cbn. destruct (Z.leb_spec 0 (Z.of_nat (length arts))); [|lia].
  by rewrite Z.eqb_refl.
Qed.

(** The articles read back from the shard just saved. *)
Lemma shard_articles_saved now new_articles stem (dir : directory) :
  dir !! stem <> Some Unreadable ->
  shard_articles (_save_articles_to_daily_cache now new_articles stem dir).2 stem
  = PyDict.values
      (PyDict.update slug (PyDict.update slug [] (shard_articles dir stem))
         new_articles).
Proof.
  intros Hread. rewrite save_result by done. cbn [snd].
  unfold shard_articles at 1.
  by rewrite lookup_insert_eq, parse_dump_day.
Qed.

Lemma saved_slugs now new_articles stem (dir : directory) s :
  dir !! stem <> Some Unreadable ->
  s ∈ slug <$> shard_articles
        (_save_articles_to_daily_cache now new_articles stem dir).2 stem
  <-> s ∈ slug <$> shard_articles dir stem \/ s ∈ slug <$> new_articles.
Proof.
  intros Hread. rewrite shard_articles_saved by done.
  rewrite well_keyed_keys
    by (apply well_keyed_update, well_keyed_update; constructor).
  rewrite !elem_of_keys_update. cbn. rewrite elem_of_nil. tauto.
Qed.

(** C10, amended.  Today's shard exists.  The save touches no other file.
    When reading the body fails with a [JSONDecodeError] (it is not JSON)
    or a [ValidationError], the save reports success and the file is
    rewritten with the new articles alone (one per slug, the last one
    winning): what it held before is gone.  When reading the body raises
    any other exception, the save reports failure and leaves the
    directory as it is, unreadable file included.  When the body is
    valid, the save reports success and every article the file held is
    still there by its slug; so readable articles are lost in the first
    case only. *)
Theorem save_overwrites_corrupted_shard (now : Z)
    (new_articles : list ProcessedArticle) (stem : string) (dir : directory)
    (text : shard_text) :
  dir !! stem = Some text ->
  let saved := _save_articles_to_daily_cache now new_articles stem dir in
  (forall other, other <> stem -> saved.2 !! other = dir !! other) /\
  (parse_day text = inl JSONDecodeError \/
   parse_day text = inl ValidationError ->
     let written := PyDict.values (PyDict.update slug [] new_articles) in
     saved.1 = true /\
     saved.2 !! stem
       = Some (dump_day {| date := now; articles := written;
                           total_count := Z.of_nat (length written) |}) /\
     shard_articles saved.2 stem = written /\
     (forall a, a ∈ written -> a ∈ new_articles) /\
     (forall s, s ∈ slug <$> written <-> s ∈ slug <$> new_articles)) /\
  (parse_day text = inl OtherException -> saved = (false, dir)) /\
  (forall existing_day, parse_day text = inr existing_day ->
     saved.1 = true /\
     forall a, a ∈ articles existing_day ->
       slug a ∈ slug <$> shard_articles saved.2 stem).
Proof.
  intros Hdir saved. subst saved.
  split; [intros other Hne; by apply save_other_files|].
  split; [|split].
  - intros Herr written.
    assert (Hread : dir !! stem <> Some Unreadable).
    { rewrite Hdir. intros [= ->]. by destruct Herr. }
    assert (Hold : shard_articles dir stem = []).
    { unfold shard_articles. rewrite Hdir. by destruct Herr as [-> | ->]. }
    split; [by rewrite save_result|].
    split; [|split; [|split]].
    + rewrite save_result by done. cbn [snd].
      rewrite lookup_insert_eq, Hold. done.
    + rewrite shard_articles_saved, Hold; done.
    + intros a Ha. apply elem_of_values_update in Ha as [Ha | Ha]; [|done].
      by apply elem_of_nil in Ha.
    + intros s. subst written.
      rewrite well_keyed_keys by (apply well_keyed_update; constructor).
      rewrite elem_of_keys_update. cbn. rewrite elem_of_nil. tauto.
  - intros Herr. apply save_fails. rewrite Hdir. f_equal.
    destruct text as [| |day|]; cbn in Herr; try done.
    by destruct (_ && _).
  - intros existing_day Hparse.
    assert (Hread : dir !! stem <> Some Unreadable).
    { rewrite Hdir. by intros [= ->]. }
    split; [by rewrite save_result|].
    intros a Ha. apply saved_slugs; [done|]. left.
    unfold shard_articles. rewrite Hdir, Hparse.
    by apply list_elem_of_fmap_2.
Qed.

(** C10, amended, on a sample shard whose text is not JSON: the save
    reports success and the shard then holds the new article alone. *)
Lemma save_overwrites_corrupted_shard_witness :
  let saved :=
    _save_articles_to_daily_cache Samples.june_10_noon
      [Samples.article "gpt5-launch-recap"] "2024-06-10"
      {[ "2024-06-10" := NotJson ]} in
  saved.1 = true /\
  shard_articles saved.2 "2024-06-10" = [Samples.article "gpt5-launch-recap"].
Proof.
  intros saved.
  assert (Hdir : ({[ "2024-06-10" := NotJson ]} : directory) !! "2024-06-10"
                 = Some NotJson) by reflexivity.
  destruct (save_overwrites_corrupted_shard Samples.june_10_noon
              [Samples.article "gpt5-launch-recap"] "2024-06-10"
              {[ "2024-06-10" := NotJson ]} NotJson Hdir)
    as (_ & Hlost & _).
  destruct (Hlost (or_introl eq_refl)) as (Hok & _ & Hread & _).
  split; [exact Hok | exact Hread].
Defined.

(** C10, counterexample.  Today's shard has a body on which parsing fails
    with an exception other than [JSONDecodeError], such as a number of
    five thousand digits, for which [json.loads] raises a [ValueError].
    The save reports failure and the file is not rewritten: the shard is
    as unreadable as before and does not hold the new article. *)
Lemma save_leaves_unreadable_shard :
  let dir : directory := {[ "2024-06-10" := Unreadable ]} in
  let saved :=
    _save_articles_to_daily_cache Samples.june_10_noon
      [Samples.article "gpt5-launch-recap"] "2024-06-10" dir in
  parse_day Unreadable = inl OtherException /\
  saved.1 = false /\
  saved.2 !! "2024-06-10" = Some Unreadable /\
  shard_articles saved.2 "2024-06-10" = [].
Proof. repeat split; vm_compute; reflexivity. Qed.

(** A shard whose [total_count] does not match its two articles fails
    validation; after the save it holds the new article alone. *)
Lemma save_drops_miscounted_articles :
  let broken :=
    DayJson {| date := 0;
               articles := [Samples.article "openai-gpt5-release";
                            Samples.article "gpt5-first-look"];
               total_count := 5 |} in
  parse_day broken = inl ValidationError /\
  shard_articles
    (_save_articles_to_daily_cache Samples.june_10_noon
       [Samples.article "gpt5-launch-recap"] "2024-06-10"
       {[ "2024-06-10" := broken ]}).2 "2024-06-10"
  = [Samples.article "gpt5-launch-recap"].
Proof. split; vm_compute; reflexivity. Qed.

(** *** Running the deduplication twice *)

Lemma slug_map_of_known cached s :
  is_Some (slug_map_of cached !! s) <-> s ∈ slug <$> cached.
Proof.
  unfold slug_map_of.
  assert (Hgen : forall l (m : gmap string ProcessedArticle),
    is_Some (foldl (fun m art => <[slug art := art]> m) m l !! s)
    <-> is_Some (m !! s) \/ s ∈ slug <$> l).
  { induction l as [|a l IH]; intros m; cbn [foldl].
    - rewrite fmap_nil, elem_of_nil. tauto.
    - rewrite IH, fmap_cons, elem_of_cons, lookup_insert_is_Some.
      destruct (decide (slug a = s)) as [Heq | Hne]; [by intuition|].
      split; [intros [[? | [_ ?]] | ?]; by auto|].
      intros [? | [? | ?]]; [by eauto | congruence | by auto]. }
  rewrite Hgen, lookup_empty. split; [intros [[? [=]] | ?]; done | tauto].
Qed.




(** The directory a run leaves: untouched when nothing is unique, today's
    shard rewritten otherwise. *)
Lemma run_step2_directory strptime strftime now_load now_save input
    (dir : directory) :
  (run_step2 strptime strftime now_load now_save input dir).2
  = match (dedup_loop input
             (slug_map_of (_load_cached_articles strptime (Some dir)
                             (now_load - timedelta_days 10)).1) [] 0).1.2 with
    | [] => dir
    | unique =>
        (_save_articles_to_daily_cache now_save unique
           (strftime (day_of now_save)) dir).2
    end.
Proof.
  unfold run_step2.
  destruct (_load_cached_articles strptime (Some dir) _) as [cached st].
  cbn [fst]. destruct (dedup_loop input (slug_map_of cached) [] 0)
    as [[m unique] dups]. cbn [fst snd].
  destruct unique; [done|].
  by destruct (_save_articles_to_daily_cache _ _ _ _).
Qed.

Section Twice.
Variable strptime : string -> option Z.
Variable strftime : Z -> string.
Variables now_load1 now_save1 now_load2 now_save2 : Z.
Variable input : list ProcessedArticle.
Variable dir : directory.

Local Abbreviation today := (strftime (day_of now_save1)).
Local Abbreviation cutoff1 := (now_load1 - timedelta_days 10).
Local Abbreviation cutoff2 := (now_load2 - timedelta_days 10).
Local Abbreviation first_run :=
  (run_step2 strptime strftime now_load1 now_save1 input dir).

(** Today's file name reads back as today. *)
Hypothesis today_reads_back : strptime today = Some (day_of now_save1).
(** Today's shard is inside the window of the second run. *)
Hypothesis today_in_window : cutoff2 <= midnight (day_of now_save1).
(** No shard that the first run had in its window has left it. *)
Hypothesis window_kept : forall stem day,
  strptime stem = Some day -> cutoff1 <= midnight day -> cutoff2 <= midnight day.
(** Today's shard does not stop the save of the first run. *)
Hypothesis today_readable : dir !! today <> Some Unreadable.


End Twice.




(** A second way for the second run to find unique articles, on one day:
    today's shard is unreadable in a way that stops the save (here at
    noon and an hour later), so the first run stores nothing and the
    second run finds the article unique again. *)
Lemma run_step2_twice_unreadable_today :
  let batch := [Samples.article "openai-gpt5-release"] in
  let dir : directory := {[ "2024-06-10" := Unreadable ]} in
  let later := Samples.june_10_noon + 3600 * 1000000 in
  let first :=
    run_step2 Samples.strptime Samples.strftime Samples.june_10_noon
      Samples.june_10_noon batch dir in
  let second :=
    run_step2 Samples.strptime Samples.strftime later later batch first.2 in
  unique_articles first.1 = batch /\
  cache_updated first.1 = false /\
  first.2 = dir /\
  unique_articles second.1 = batch /\
  duplicates_found (stats second.1) = 0%nat.
Proof. repeat split; vm_compute; reflexivity. Qed.

End Step2Facts.

(** ** More on the deduplication step *)

Module Step2More.
Import Step2Dedup Step2Facts Step2Counts.
Local Open Scope list_scope.

(** *** The deduplication loop *)

(** What the loop adds to [unique_articles]: a sublist of the articles it
    walks, free of repeated slugs and of slugs known at the start; every
    article walked is known at the start or shares its slug with an added
    one, and the first article of an unknown slug is the one added. *)
Lemma dedup_loop_spec todo : forall slug_map unique duplicates,
  exists added,
    (dedup_loop todo slug_map unique duplicates).1.2 = unique ++ added /\
    ((dedup_loop todo slug_map unique duplicates).2 + length added
     = duplicates + length todo)%nat /\
    added `sublist_of` todo /\
    NoDup (slug <$> added) /\
    (forall a, a ∈ added -> slug_map !! slug a = None) /\
    (forall a, a ∈ todo ->
       is_Some (slug_map !! slug a) \/ slug a ∈ slug <$> added) /\
    (forall l1 a l2,
       todo = l1 ++ a :: l2 -> slug_map !! slug a = None ->
       slug a ∉ slug <$> l1 -> a ∈ added).
Proof.
  induction todo as [|a todo IH]; intros slug_map unique duplicates.
  - exists []. cbn. rewrite app_nil_r.
    split; [done|]. split; [done|]. split; [done|]. split; [constructor|].
    split; [by intros a Ha%elem_of_nil|].
    split; [by intros a Ha%elem_of_nil|].
    intros [|? l1] ? ? [=].
  - cbn [dedup_loop].
    destruct (decide (is_Some (slug_map !! slug a))) as [Hknown | Hnew].
    + destruct (IH slug_map unique (S duplicates))
        as (added & Hu & Hd & Hsub & Hnd & Hfresh & Hcov & Hfirst).
      exists added. split; [done|]. split; [cbn; lia|].
      split; [by apply sublist_cons|]. split; [done|]. split; [done|]. split.
      * intros b [-> | Hb]%elem_of_cons; [by left | by apply Hcov].
      * intros [|b l1] a' l2 Heq Hnone Hl1; cbn in Heq; simplify_eq.
        -- rewrite Hnone in Hknown. by destruct Hknown.
        -- apply (Hfirst l1 a' l2); [done | done |].
           intros Hin. apply Hl1. rewrite fmap_cons. by apply list_elem_of_further.
    + apply eq_None_not_Some in Hnew.
      destruct (IH (<[slug a := a]> slug_map) (unique ++ [a]) duplicates)
        as (added & Hu & Hd & Hsub & Hnd & Hfresh & Hcov & Hfirst).
      assert (Hother : forall b, b ∈ added ->
                slug b <> slug a /\ slug_map !! slug b = None).
      { intros b Hb. specialize (Hfresh b Hb).
        apply lookup_insert_None in Hfresh as [? ?]. by split. }
      exists (a :: added). split; [by rewrite Hu, <- app_assoc|].
      split; [cbn; lia|]. split; [by apply sublist_skip|]. split.
      { rewrite fmap_cons. apply NoDup_cons. split; [|done].
        intros (b & Heq & Hb)%list_elem_of_fmap.
        by destruct (Hother b Hb) as [Hne _]. }
      split.
      { intros b [-> | Hb]%elem_of_cons; [done | by apply Hother]. }
      split.
      * intros b [-> | Hb]%elem_of_cons.
        -- right. rewrite fmap_cons. apply list_elem_of_here.
        -- rewrite fmap_cons, elem_of_cons.
           destruct (Hcov b Hb) as [Hb' | Hb']; [|by auto].
           apply lookup_insert_is_Some in Hb' as [Heq | [_ Hb']]; auto.
      * intros [|b l1] a' l2 Heq Hnone Hl1; cbn in Heq; simplify_eq.
        -- apply list_elem_of_here.
        -- apply list_elem_of_further. apply (Hfirst l1 a' l2); [done | |].
           ++ rewrite lookup_insert_ne; [done|]. intros Heq. apply Hl1.
              rewrite fmap_cons, Heq. apply list_elem_of_here.
           ++ intros Hin. apply Hl1. rewrite fmap_cons.
              by apply list_elem_of_further.
Qed.

(** The result record of a run, field by field. *)
Lemma run_step2_result strptime strftime now_load now_save input
    (dir : directory) :
  let loaded := _load_cached_articles strptime (Some dir)
                  (now_load - timedelta_days 10) in
  let looped := dedup_loop input (slug_map_of loaded.1) [] 0 in
  (run_step2 strptime strftime now_load now_save input dir).1
  = {| success := true;
       unique_articles := looped.1.2;
       stats := {| input_articles := length input;
                   cache_articles := length loaded.1;
                   duplicates_found := looped.2;
                   unique_articles_count := length looped.1.2;
                   deduplication_rate := dedup_rate looped.2 input;
                   cache_files_loaded := files_loaded loaded.2;
                   cache_files_corrupted := files_corrupted loaded.2 |};
       cache_updated :=
         match looped.1.2 with
         | [] => false
         | _ :: _ =>
             (_save_articles_to_daily_cache now_save looped.1.2
                (strftime (day_of now_save)) dir).1
         end;
       errors := [] |}.
Proof.
  intros loaded looped. subst loaded looped. unfold run_step2.
  destruct (_load_cached_articles strptime (Some dir) _) as [cached st].
  cbn [fst snd]. destruct (dedup_loop input (slug_map_of cached) [] 0)
    as [[m unique] dups]. cbn [fst snd].
  destruct unique; [done|].
  by destruct (_save_articles_to_daily_cache _ _ _ _).
Qed.

(** X1.  Whatever the cache directory holds, [run_step2] succeeds, and its
    unique articles are a sublist of the input (same order) with pairwise
    distinct slugs, none of which is the slug of an article loaded from
    the cache; the duplicates and the unique articles add up to the
    input, and the statistics report these very numbers. *)
Theorem run_step2_unique_articles (strptime : string -> option Z)
    (strftime : Z -> string) (now_load now_save : Z)
    (input : list ProcessedArticle) (dir : directory) :
  let result := (run_step2 strptime strftime now_load now_save input dir).1 in
  let cached := (_load_cached_articles strptime (Some dir)
                   (now_load - timedelta_days 10)).1 in
  success result = true /\ errors result = [] /\
  unique_articles result `sublist_of` input /\
  NoDup (slug <$> unique_articles result) /\
  (forall a, a ∈ unique_articles result -> slug a ∉ slug <$> cached) /\
  (duplicates_found (stats result) + length (unique_articles result)
   = length input)%nat /\
  unique_articles_count (stats result) = length (unique_articles result) /\
  input_articles (stats result) = length input /\
  cache_articles (stats result) = length cached.
Proof.
  intros result cached. subst result. rewrite run_step2_result. cbv zeta.
  fold cached.
  cbn [success errors unique_articles stats duplicates_found
       unique_articles_count input_articles cache_articles].
  destruct (dedup_loop_spec input (slug_map_of cached) [] 0)
    as (added & Hu & Hd & Hsub & Hnd & Hfresh & _).
  rewrite Hu. cbn [app]. repeat (split; [done|]). split; [|split; [lia | done]].
  intros a Ha Hin. apply slug_map_of_known in Hin as [b Hb].
  by rewrite (Hfresh a Ha) in Hb.
Qed.

(** X2.  First occurrence wins: an input article whose slug is neither in
    the cache nor carried by an earlier input article is among the unique
    articles, and every input slug is either cached or that of a unique
    article. *)
Theorem run_step2_first_occurrence_wins (strptime : string -> option Z)
    (strftime : Z -> string) (now_load now_save : Z)
    (input : list ProcessedArticle) (dir : directory) :
  let result := (run_step2 strptime strftime now_load now_save input dir).1 in
  let cached := (_load_cached_articles strptime (Some dir)
                   (now_load - timedelta_days 10)).1 in
  (forall earlier a later,
     input = earlier ++ a :: later ->
     slug a ∉ slug <$> cached -> slug a ∉ slug <$> earlier ->
     a ∈ unique_articles result) /\
  (forall a, a ∈ input ->
     slug a ∈ slug <$> cached \/ slug a ∈ slug <$> unique_articles result).
Proof.
  intros result cached. subst result. rewrite run_step2_result. cbv zeta.
  fold cached.
  cbn [success errors unique_articles stats duplicates_found
       unique_articles_count input_articles cache_articles].
  destruct (dedup_loop_spec input (slug_map_of cached) [] 0)
    as (added & Hu & _ & _ & _ & _ & Hcov & Hfirst).
  rewrite Hu. cbn [app]. split.
  - intros earlier a later Heq Hcached Hearlier.
    apply (Hfirst earlier a later); [done | | done].
    apply eq_None_not_Some. by rewrite slug_map_of_known.
  - intros a Ha. destruct (Hcov a Ha) as [Hk | Hk]; [left | by right].
    by apply slug_map_of_known.
Qed.

(** *** Dictionaries: where entries come from and which write wins *)

Section DictMore.
Context {V : Type} (key : V -> string).

Lemma keys_setitem (d : list (string * V)) k v :
  PyDict.keys (PyDict.setitem d k v)
  = if decide (k ∈ PyDict.keys d) then PyDict.keys d else PyDict.keys d ++ [k].
Proof.
  unfold PyDict.keys. induction d as [|[k0 v0] d IH]; cbn; [done|].
  destruct (decide (k0 = k)) as [-> | Hne]; cbn.
  - by rewrite decide_True by apply list_elem_of_here.
  - rewrite IH. destruct (decide (k ∈ d.*1)) as [Hin | Hnin].
    + by rewrite decide_True by (by apply list_elem_of_further).
    + rewrite decide_False; [done|].
      intros [? | ?]%elem_of_cons; congruence.
Qed.

Lemma NoDup_keys_setitem (d : list (string * V)) k v :
  NoDup (PyDict.keys d) -> NoDup (PyDict.keys (PyDict.setitem d k v)).
Proof.
  intros Hd. rewrite keys_setitem. destruct (decide _) as [|Hnin]; [done|].
  apply NoDup_app. split; [done|]. split; [|apply NoDup_singleton].
  intros x Hx ->%list_elem_of_singleton. done.
Qed.

Lemma NoDup_keys_update xs : forall (d : list (string * V)),
  NoDup (PyDict.keys d) -> NoDup (PyDict.keys (PyDict.update key d xs)).
Proof.
  unfold PyDict.update. induction xs as [|x xs IH]; intros d Hd; cbn [foldl];
    [done|].
  by apply IH, NoDup_keys_setitem.
Qed.

Lemma setitem_fresh (d : list (string * V)) k v :
  k ∉ PyDict.keys d -> PyDict.setitem d k v = d ++ [(k, v)].
Proof.
  unfold PyDict.keys. induction d as [|[k0 v0] d IH]; cbn; [done|].
  intros [Hne Hd]%not_elem_of_cons.
  rewrite decide_False by done. by rewrite IH.
Qed.

(** Writing values whose keys are new and distinct appends them. *)
Lemma update_fresh xs : forall (d : list (string * V)),
  NoDup (PyDict.keys d ++ (key <$> xs)) ->
  PyDict.update key d xs = d ++ ((fun x => (key x, x)) <$> xs).
Proof.
  unfold PyDict.update. induction xs as [|x xs IH]; intros d Hd; cbn [foldl].
  - by rewrite fmap_nil, app_nil_r.
  - rewrite fmap_cons in Hd. apply NoDup_app in Hd as (Hkeys & Hdisj & Hxs).
    apply NoDup_cons in Hxs as [Hx Hxs].
    rewrite setitem_fresh
      by (intros Hin; apply (Hdisj _ Hin), list_elem_of_here).
    rewrite IH.
    + by rewrite <- app_assoc.
    + unfold PyDict.keys in *. rewrite fmap_app. cbn.
      apply NoDup_app. split; [|split; [|done]].
      * apply NoDup_app. split; [done|]. split; [|apply NoDup_singleton].
        intros k Hk ->%list_elem_of_singleton.
        apply (Hdisj _ Hk), list_elem_of_here.
      * intros k [Hk | ->%list_elem_of_singleton]%elem_of_app Hin; [|done].
        by apply (Hdisj _ Hk), list_elem_of_further.
Qed.

Lemma elem_of_setitem_keep (d : list (string * V)) k v k' v' :
  k' <> k -> (k', v') ∈ d -> (k', v') ∈ PyDict.setitem d k v.
Proof.
  intros Hne. induction d as [|[k0 v0] d IH]; cbn.
  - by intros ?%elem_of_nil.
  - intros [[= <- <-] | Hin]%elem_of_cons.
    + rewrite decide_False by done. apply list_elem_of_here.
    + destruct (decide (k0 = k)); apply list_elem_of_further; auto.
Qed.

Lemma elem_of_setitem_new (d : list (string * V)) k v :
  (k, v) ∈ PyDict.setitem d k v.
Proof.
  induction d as [|[k0 v0] d IH]; cbn; [apply list_elem_of_here|].
  destruct (decide (k0 = k)); [apply list_elem_of_here|].
  by apply list_elem_of_further.
Qed.

Lemma elem_of_setitem_inv (d : list (string * V)) k v k' v' :
  NoDup (PyDict.keys d) ->
  (k', v') ∈ PyDict.setitem d k v ->
  (k' = k /\ v' = v) \/ (k' <> k /\ (k', v') ∈ d).
Proof.
  unfold PyDict.keys. induction d as [|[k0 v0] d IH]; cbn.
  - intros _ [= -> ->]%list_elem_of_singleton. by left.
  - intros [Hk0 Hd]%NoDup_cons. destruct (decide (k0 = k)) as [-> | Hne].
    + intros [[= -> ->] | Hin]%elem_of_cons; [by left|].
      right. split; [|by apply list_elem_of_further].
      intros ->. apply Hk0. by apply (list_elem_of_fmap_2 fst) in Hin.
    + intros [[= -> ->] | Hin]%elem_of_cons.
      * right. split; [done | apply list_elem_of_here].
      * destruct (IH Hd Hin) as [? | [? ?]]; [by left|].
        right. split; [done | by apply list_elem_of_further].
Qed.

(** An entry of the updated dictionary is one of the values written,
    under its key, or an entry that was there and that no write touched. *)
Lemma elem_of_update_inv xs : forall (d : list (string * V)) k v,
  NoDup (PyDict.keys d) ->
  (k, v) ∈ PyDict.update key d xs ->
  (v ∈ xs /\ key v = k) \/ ((k, v) ∈ d /\ k ∉ key <$> xs).
Proof.
  unfold PyDict.update. induction xs as [|x xs IH]; intros d k v Hd; cbn [foldl].
  - intros Hin. right. split; [done|]. rewrite fmap_nil. apply not_elem_of_nil.
  - intros Hin. apply IH in Hin as [[Hv Hk] | [Hin Hk]];
      [| | by apply NoDup_keys_setitem].
    + left. split; [by apply list_elem_of_further | done].
    + apply elem_of_setitem_inv in Hin as [[-> ->] | [Hne Hin]]; [| | done].
      * left. split; [apply list_elem_of_here | done].
      * right. split; [done|]. rewrite fmap_cons.
        apply not_elem_of_cons. by split.
Qed.

Lemma elem_of_update_keep xs : forall (d : list (string * V)) k v,
  (k, v) ∈ d -> k ∉ key <$> xs -> (k, v) ∈ PyDict.update key d xs.
Proof.
  unfold PyDict.update. induction xs as [|x xs IH]; intros d k v Hin Hk;
    cbn [foldl]; [done|].
  rewrite fmap_cons in Hk. apply not_elem_of_cons in Hk as [Hne Hk].
  apply IH; [|done]. by apply elem_of_setitem_keep.
Qed.

(** The last value written under a key is the one the dictionary holds. *)
Lemma elem_of_update_last (d : list (string * V)) before x after :
  key x ∉ key <$> after ->
  (key x, x) ∈ PyDict.update key d (before ++ x :: after).
Proof.
  intros Hlast. unfold PyDict.update. rewrite foldl_app. cbn [foldl].
  apply (elem_of_update_keep after); [|done]. apply elem_of_setitem_new.
Qed.

Lemma elem_of_values (d : list (string * V)) v :
  v ∈ PyDict.values d <-> exists k, (k, v) ∈ d.
Proof.
  unfold PyDict.values. rewrite list_elem_of_fmap. split.
  - intros ([k v'] & -> & Hin). by exists k.
  - intros (k & Hin). by exists (k, v).
Qed.

Lemma well_keyed_elem_of (d : list (string * V)) k v :
  PyDict.well_keyed key d -> (k, v) ∈ d -> key v = k.
Proof.
  unfold PyDict.well_keyed. rewrite Forall_forall. intros Hd Hin.
  by apply (Hd (k, v)).
Qed.
End DictMore.

(** *** What a save leaves in the shard *)

(** X3.  When reading the existing shard raises an exception other than
    [JSONDecodeError] and [ValidationError], [_save_articles_to_daily_cache]
    returns [False] and writes nothing.  In every other case it returns
    [True], and afterwards the shard parses, with [total_count] equal to
    the number of its articles, and holds one article per slug.  Each
    article in it is a new one, or an article the shard held before whose
    slug no new article carries.  Of the new articles with one slug the
    last wins; an article held before stays when it was the last of its
    slug and no new article replaces it. *)
Theorem save_keeps_one_article_per_slug (now : Z)
    (new_articles : list ProcessedArticle) (stem : string) (dir : directory) :
  let saved := _save_articles_to_daily_cache now new_articles stem dir in
  let written := shard_articles saved.2 stem in
  let old := shard_articles dir stem in
  (dir !! stem = Some Unreadable -> saved = (false, dir)) /\
  (dir !! stem <> Some Unreadable ->
   saved.1 = true /\
   (exists text,
      saved.2 !! stem = Some text /\
      parse_day text = inr {| date := now; articles := written;
                              total_count := Z.of_nat (length written) |}) /\
   NoDup (slug <$> written) /\
   (forall a, a ∈ written ->
      a ∈ new_articles \/ (a ∈ old /\ slug a ∉ slug <$> new_articles)) /\
   (forall before a after,
      new_articles = before ++ a :: after -> slug a ∉ slug <$> after ->
      a ∈ written) /\
   (forall before a after,
      old = before ++ a :: after -> slug a ∉ slug <$> after ->
      slug a ∉ slug <$> new_articles -> a ∈ written)).
Proof.
  intros saved written old. subst saved written old.
  split; [by apply save_fails|]. intros Hread.
  rewrite shard_articles_saved by done.
  set (old := shard_articles dir stem).
  set (d1 := PyDict.update slug [] old).
  assert (Hd1 : NoDup (PyDict.keys d1)) by (apply NoDup_keys_update; constructor).
  assert (Hw1 : PyDict.well_keyed slug d1)
    by (apply well_keyed_update; constructor).
  split; [by rewrite save_result|].
  split; [|split; [|split; [|split]]].
  - eexists. rewrite save_result by done. cbn [snd]. rewrite lookup_insert_eq.
    split; [done|]. apply parse_dump_day.
  - rewrite well_keyed_keys by (by apply well_keyed_update).
    by apply NoDup_keys_update.
  - intros a [k Ha]%elem_of_values.
    apply elem_of_update_inv in Ha as [[Ha _] | [Ha Hk]]; [by left | | done].
    right. pose proof (well_keyed_elem_of slug _ _ _ Hw1 Ha) as <-.
    split; [|done].
    apply elem_of_update_inv in Ha as [[Ha _] | [Ha _]];
      [done | by apply elem_of_nil in Ha | constructor].
  - intros before a after -> Hlast. apply elem_of_values. exists (slug a).
    by apply elem_of_update_last.
  - intros before a after Hold Hlast Hnew. apply elem_of_values.
    exists (slug a). apply elem_of_update_keep; [|done].
    subst d1. rewrite Hold. by apply elem_of_update_last.
Qed.

(** *** What a run leaves in the store *)

(** X4.  When today's file name reads back as today, today's shard is
    inside the window of the run, its readable articles have distinct
    slugs (as in every shard a save has written) and reading it does not
    raise an exception that stops the save (one other than
    [JSONDecodeError] and [ValidationError]), a run of [run_step2] writes
    no file but today's shard, and it appends: afterwards the shard reads
    as the articles it held before followed by the unique articles of the
    run. *)
Theorem run_step2_appends_to_today (strptime : string -> option Z)
    (strftime : Z -> string) (now_load now_save : Z)
    (input : list ProcessedArticle) (dir : directory) :
  let today := strftime (day_of now_save) in
  let run := run_step2 strptime strftime now_load now_save input dir in
  strptime today = Some (day_of now_save) ->
  now_load - timedelta_days 10 <= midnight (day_of now_save) ->
  NoDup (slug <$> shard_articles dir today) ->
  dir !! today <> Some Unreadable ->
  (forall other, other <> today -> run.2 !! other = dir !! other) /\
  shard_articles run.2 today
  = shard_articles dir today ++ unique_articles run.1.
Proof.
  intros today run Hback Hwindow Hold Hread. subst run.
  rewrite run_step2_directory, run_step2_result. cbv zeta.
  cbn [unique_articles].
  set (cached := (_load_cached_articles strptime (Some dir)
                    (now_load - timedelta_days 10)).1).
  destruct (dedup_loop_spec input (slug_map_of cached) [] 0)
    as (added & Hadded & _ & _ & Hnd & Hnone & _).
  rewrite Hadded. cbn [app].
  assert (Hfresh : forall a, a ∈ added -> slug a ∉ slug <$> cached).
  { intros a Ha Hin. apply slug_map_of_known in Hin as [b Hb].
    by rewrite (Hnone a Ha) in Hb. }
  clear Hadded Hnone. destruct added as [|u added].
  - split; [done|]. by rewrite app_nil_r.
  - split.
    + intros other Hne. by apply save_other_files.
    + rewrite shard_articles_saved by done. fold today.
      rewrite (update_fresh slug (shard_articles dir today) []) by done.
      rewrite app_nil_l, update_fresh.
      * unfold PyDict.values. rewrite fmap_app, <- !list_fmap_compose.
        by rewrite !list_fmap_id.
      * unfold PyDict.keys. rewrite <- list_fmap_compose.
        apply NoDup_app. split; [done|]. split; [|done].
        intros s (a & -> & Ha)%list_elem_of_fmap Hs.
        apply list_elem_of_fmap in Hs as (b & Heq & Hb).
        apply (Hfresh b Hb). rewrite <- Heq. apply list_elem_of_fmap_2.
        unfold shard_articles in Ha.
        destruct (dir !! today) as [text|] eqn:Hdir;
          [|by apply elem_of_nil in Ha].
        destruct (parse_day text) as [|cached_day] eqn:Hparse;
          [by apply elem_of_nil in Ha|].
        apply elem_of_load_cached_articles.
        exists today, text, (articles cached_day).
        split; [done|]. split; [|done].
        by apply read_loaded with (day_of now_save).
Qed.

(** *** Every file is accounted for *)

Section Counting.
Variable strptime : string -> option Z.
Variable cutoff_date : Z.

Local Abbreviation outcome_is kind :=
  (fun file : string * shard_text =>
     kind (read_cache_file strptime cutoff_date file.1 file.2) = true).

Lemma foldl_load_step_stats files : forall acc,
  let final := foldl (load_step strptime cutoff_date) acc files in
  files_loaded final.2
    = (files_loaded acc.2 + length (filter (outcome_is is_loaded) files))%nat /\
  files_corrupted final.2
    = (files_corrupted acc.2
       + length (filter (outcome_is is_corrupted) files))%nat.
Proof.
  induction files as [|[stem text] files IH]; intros [arts st]; cbn [foldl].
  - cbn. lia.
  - destruct (IH (load_step strptime cutoff_date (arts, st) (stem, text)))
      as [Hl Hc]. cbv zeta. rewrite Hl, Hc. rewrite !filter_cons.
    unfold load_step. cbn [fst snd].
    destruct (read_cache_file strptime cutoff_date stem text);
      cbn [is_loaded is_corrupted files_loaded files_corrupted snd];
      repeat case_decide; try done; cbn [length]; split; lia.
Qed.

Lemma outcome_partition (files : list (string * shard_text)) :
  (length (filter (outcome_is is_loaded) files)
   + length (filter (outcome_is is_corrupted) files)
   + length (filter (outcome_is is_skipped) files) = length files)%nat.
Proof.
  induction files as [|[stem text] files IH]; [done|].
  rewrite !filter_cons. cbn [fst snd].
  destruct (read_cache_file strptime cutoff_date stem text);
    cbn [is_loaded is_corrupted is_skipped];
    repeat case_decide; try done; cbn [length]; lia.
Qed.

Lemma nothing_loaded_no_articles (files : list (string * shard_text)) :
  length (filter (outcome_is is_loaded) files) = 0%nat ->
  mjoin ((fun file : string * shard_text =>
            outcome_articles
              (read_cache_file strptime cutoff_date file.1 file.2)) <$> files)
  = [].
Proof.
  induction files as [|[stem text] files IH]; [done|].
  rewrite filter_cons, fmap_cons. cbn [fst snd].
  destruct (read_cache_file strptime cutoff_date stem text);
    cbn [is_loaded outcome_articles]; case_decide; try done;
    cbn [length]; try done; intros Hlen; cbn; by rewrite IH.
Qed.
End Counting.

(** X5.  Loading accounts for every [*.json] file of the directory once:
    the files loaded, the files counted corrupted and the files skipped as
    older than the cutoff add up to the number of files, and the two
    counters it reports are the numbers of files of the first two kinds,
    whatever the order of the listing.  When no file is loaded no article
    is returned; a directory that does not exist gives no article and two
    zero counters. *)
Theorem load_accounts_for_every_file (strptime : string -> option Z)
    (cutoff_date : Z) (dir : directory) :
  let loaded := _load_cached_articles strptime (Some dir) cutoff_date in
  files_loaded loaded.2 = files_with strptime cutoff_date is_loaded dir /\
  files_corrupted loaded.2 = files_with strptime cutoff_date is_corrupted dir /\
  (files_loaded loaded.2 + files_corrupted loaded.2
   + files_with strptime cutoff_date is_skipped dir = size dir)%nat /\
  (files_loaded loaded.2 = 0%nat -> loaded.1 = []) /\
  _load_cached_articles strptime None cutoff_date
  = ([], {| files_loaded := 0; files_corrupted := 0 |}).
Proof.
  intros loaded. subst loaded. unfold _load_cached_articles, files_with.
  destruct (foldl_load_step_stats strptime cutoff_date (sorted_glob dir)
              ([], {| files_loaded := 0; files_corrupted := 0 |}))
    as [Hl Hc].
  cbv zeta in Hl, Hc. cbn [snd files_loaded files_corrupted] in Hl, Hc.
  assert (Hperm : sorted_glob dir ≡ₚ map_to_list dir)
    by apply merge_sort_Permutation.
  rewrite Hl, Hc. rewrite <- !Hperm.
  split; [done|]. split; [done|]. split; [|split; [|done]].
  - cbn. rewrite outcome_partition. rewrite Hperm. apply length_map_to_list.
  - cbn. intros Hnone. rewrite foldl_load_step_articles. cbn.
    by apply nothing_loaded_no_articles.
Qed.

(** X4, on sample data: noon of 2024-06-10, today's shard already holding
    one article; the run appends the one new article of the batch. *)
Lemma run_step2_appends_to_today_witness :
  let dir : directory :=
    {[ "2024-06-10" := Samples.shard 0 ["openai-gpt5-release"] ]} in
  let run :=
    run_step2 Samples.strptime Samples.strftime Samples.june_10_noon
      Samples.june_10_noon
      [Samples.article "openai-gpt5-release";
       Samples.article "gpt5-launch-recap"] dir in
  shard_articles run.2 "2024-06-10"
  = [Samples.article "openai-gpt5-release";
     Samples.article "gpt5-launch-recap"].
Proof.
  intros dir run.
  destruct (run_step2_appends_to_today Samples.strptime Samples.strftime
              Samples.june_10_noon Samples.june_10_noon
              [Samples.article "openai-gpt5-release";
               Samples.article "gpt5-launch-recap"] dir) as [_ Happend].
  - reflexivity.
  - vm_compute. discriminate.
  - apply (bool_decide_unpack _). vm_compute. exact I.
  - vm_compute. discriminate.
  - exact Happend.
Defined.

End Step2More.
(** ** More on the cache directory: lock, backups, clean-up *)

Module Step0More.
Import Fs CacheManager CacheEntries Step0Cache Step0Warnings Step0Facts.
Local Open Scope list_scope.

(** *** The backups *)

Lemma elem_of_take_or_drop {A} (l : list A) n x :
  x ∈ l -> x ∈ take n l \/ x ∈ drop n l.
Proof. rewrite <- (take_drop n l) at 1. by intros ?%elem_of_app. Qed.

Lemma elem_of_drop_source {A} (l : list A) n x : x ∈ drop n l -> x ∈ l.
Proof.
  intros Hx. rewrite <- (take_drop n l). apply elem_of_app. by right.
Qed.

(** The snapshots once the new one is written, over one of its name if
    there is one. *)
Lemma elem_of_copied (stamp : Z) (l : list Z) b :
  b ∈ stamp :: base.filter (fun b => b ≠ stamp) l <-> b = stamp \/ b ∈ l.
Proof.
  rewrite elem_of_cons, list_elem_of_filter.
  destruct (decide (b = stamp)) as [-> | Hne]; [by split; auto|].
  split; [intros [? | [_ ?]]; auto | intros [? | ?]; auto].
Qed.

(** X6.  A backup that copies the cache leaves the snapshots sorted by
    time stamp and at most five of them; each is the new snapshot or one
    that was there; a snapshot that is gone is no newer than any that is
    kept; nothing is removed while there are at most five; and the new
    snapshot is kept when no snapshot carries a later stamp.  When the
    copy fails the call raises and no snapshot is removed, so that more
    than five can remain: nothing changes when the copy fails before the
    directory of the new snapshot is made, and the new snapshot stays
    behind next to all the old ones when the copy fails part-way.  The
    files of the cache and the lock are left alone in every case. *)
Theorem backup_keeps_newest_five (env : environment) (fs : cache_fs) :
  let stamp := now env `div` usec_per_sec in
  let after := (_backup_cache env fs).2 in
  files after = files fs /\ lock_file after = lock_file fs /\
  (copytree env = FailedBefore ->
     _backup_cache env fs = (Raise "copytree failed", fs)) /\
  (copytree env = FailedPartway ->
     (_backup_cache env fs).1 = Raise "copytree failed" /\
     (forall b, b ∈ backups after <-> b = stamp \/ b ∈ backups fs)) /\
  (copytree env = Copied ->
     (_backup_cache env fs).1 = Return tt /\
     Sorted Z.le (backups after) /\
     (length (backups after) <= 5)%nat /\
     (forall b, b ∈ backups after -> b = stamp \/ b ∈ backups fs) /\
     (forall gone kept,
        gone = stamp \/ gone ∈ backups fs ->
        gone ∉ backups after -> kept ∈ backups after -> gone <= kept) /\
     ((length (backups fs) < 5)%nat ->
        forall b, b = stamp \/ b ∈ backups fs -> b ∈ backups after) /\
     ((forall b, b ∈ backups fs -> b <= stamp) -> stamp ∈ backups after)).
Proof.
  intros stamp after. subst after.
  unfold _backup_cache, mbind, Fs_bind, Fs.bind, Fs.get, Fs.put, Fs.raise.
  cbn [fst snd]. fold stamp.
  pose proof (elem_of_copied stamp (backups fs)) as Hcopied.
  destruct (copytree env); cbn [fst snd files lock_file backups];
    (split; [done|]); (split; [done|]);
    [|by (split; [|split]) | by (split; [|split])].
  split; [intros [=]|]. split; [intros [=]|]. intros _.
  set (all := stamp :: filter (fun b => b ≠ stamp) (backups fs)).
  set (snapshots := merge_sort Z.le all).
  assert (Hperm : snapshots ≡ₚ all) by apply merge_sort_Permutation.
  assert (Hsorted : StronglySorted Z.le snapshots)
    by (apply StronglySorted_merge_sort; apply _).
  assert (Hall : forall b, b ∈ snapshots <-> b = stamp \/ b ∈ backups fs).
  { intros b. rewrite Hperm. apply Hcopied. }
  set (k := (length snapshots - 5)%nat).
  set (kept := if (5 <? length snapshots)%nat then drop k snapshots
               else snapshots).
  assert (Hkept : kept = drop k snapshots \/
                  (kept = snapshots /\ (length snapshots <= 5)%nat)).
  { subst kept. destruct (Nat.ltb_spec 5 (length snapshots)); auto. }
  assert (Hsub : forall b, b ∈ kept -> b ∈ snapshots).
  { intros b. destruct Hkept as [-> | [-> _]]; [|done].
    apply elem_of_drop_source. }
  assert (Holder : forall gone b,
            gone ∈ snapshots -> gone ∉ kept -> b ∈ kept -> gone <= b).
  { intros gone b Hgone Hnot Hb.
    destruct Hkept as [Hk | [Hk _]]; rewrite Hk in *; [|done].
    destruct (elem_of_take_or_drop snapshots k gone Hgone) as [Ht | ?];
      [|done].
    rewrite <- (take_drop k snapshots) in Hsorted.
    apply StronglySorted_app in Hsorted as (Hle & _ & _). by apply Hle. }
  fold all. fold snapshots. fold k. fold kept.
  split; [done|]. split.
  { apply StronglySorted_Sorted.
    destruct Hkept as [-> | [-> _]]; [|done].
    rewrite <- (take_drop k snapshots) in Hsorted.
    by apply StronglySorted_app in Hsorted as (_ & _ & ?). }
  split.
  { destruct Hkept as [-> | [-> ?]]; [|done]. rewrite length_drop. lia. }
  split; [by intros b ?%Hsub%Hall|]. split.
  { intros gone b Hgone. apply Holder. by apply Hall. }
  split.
  - intros Hfew b Hb%Hall.
    assert (Hlen : (length snapshots <= 5)%nat).
    { rewrite Hperm. unfold all. cbn [length].
      pose proof (length_filter (fun b => b ≠ stamp) (backups fs)). lia. }
    subst kept. by destruct (Nat.ltb_spec 5 (length snapshots)); [lia|].
  - intros Hnewest.
    assert (Hstamp : stamp ∈ snapshots) by (apply Hall; by left).
    destruct (decide (stamp ∈ kept)) as [|Hnot]; [done|]. exfalso.
    assert (exists b, b ∈ kept) as [b Hb].
    { destruct Hkept as [Hk | [Hk _]]; [|exists stamp; by rewrite Hk].
      destruct (decide (length snapshots <= 5)%nat) as [Hshort | Hlong].
      - exists stamp. rewrite Hk. unfold k.
        by replace (length snapshots - 5)%nat with 0%nat by lia.
      - rewrite Hk. destruct (drop k snapshots) as [|b rest] eqn:Hdrop.
        + apply (f_equal length) in Hdrop. rewrite length_drop in Hdrop.
          unfold k in Hdrop. change (length (@nil Z)) with 0%nat in Hdrop. lia.
        + exists b. apply list_elem_of_here. }
    pose proof (Holder stamp b Hstamp Hnot Hb) as Hle.
    pose proof (Hsub b Hb) as Hb'. apply Hall in Hb'.
    destruct Hb' as [-> | Hb']; [done|].
    specialize (Hnewest b Hb').
    assert (b = stamp) as -> by lia. done.
Qed.

(** Five snapshots and a copy that fails part-way: six snapshots are
    there afterwards, the incomplete one among them. *)
Lemma backup_failed_leaves_six :
  let env := {| check_gemini := false; gemini_healthy := false;
                repo_writable := true; mkdir_ok := true;
                copytree := FailedPartway; now := 19884 * usec_per_day |} in
  let fs := {| files := ∅; lock_file := None;
               backups := [1717000000; 1717100000; 1717200000; 1717300000;
                           1717400000] |} in
  (_backup_cache env fs).1 = Raise "copytree failed" /\
  backups (_backup_cache env fs).2
  = [19884 * 86400; 1717000000; 1717100000; 1717200000; 1717300000;
     1717400000].
Proof. split; vm_compute; reflexivity. Qed.

(** *** The lock *)

(** X7.  Once [acquire_lock_file] has answered [True], the lock carries
    the time of that acquisition; for the hour that follows every other
    acquisition is refused and changes nothing, at exactly 3600 seconds
    still; past the hour the lock is taken over; and after
    [release_lock_file] an acquisition succeeds at once. *)
Theorem lock_excludes_for_an_hour (fs : cache_fs) (t1 t2 : Z) :
  (acquire_lock_file t1 fs).1 = Return true ->
  let held := (acquire_lock_file t1 fs).2 in
  lock_file held = Some t1 /\ files held = files fs /\
  (t2 - t1 <= 3600 * usec_per_sec ->
     acquire_lock_file t2 held = (Return false, held)) /\
  (3600 * usec_per_sec < t2 - t1 ->
     (acquire_lock_file t2 held).1 = Return true /\
     lock_file (acquire_lock_file t2 held).2 = Some t2) /\
  (acquire_lock_file t2 (release_lock_file held).2).1 = Return true.
Proof.
  intros Hgot held.
  assert (Hheld : lock_file held = Some t1 /\ files held = files fs).
  { subst held. revert Hgot. unfold acquire_lock_file. fs_run.
    destruct (lock_file fs) as [mtime|]; cbn; [|done].
    by destruct (_ <? _). }
  destruct Hheld as [Hlock Hfiles]. split; [done|]. split; [done|].
  split; [|split].
  - intros Hfresh. by apply acquire_lock_file_held with t1.
  - intros Hstale. unfold acquire_lock_file. fs_run. rewrite Hlock.
    by destruct (Z.ltb_spec (3600 * usec_per_sec) (t2 - t1)); [|lia].
  - rewrite release_lock_file_spec. cbn [snd].
    by rewrite acquire_lock_file_free.
Qed.

Lemma lock_excludes_for_an_hour_witness :
  let fs := {| files := ∅; lock_file := None; backups := [] |} in
  let held := (acquire_lock_file 0 fs).2 in
  acquire_lock_file (3600 * usec_per_sec) held = (Return false, held) /\
  (acquire_lock_file (3600 * usec_per_sec + 1) held).1 = Return true.
Proof.
  intros fs held.
  destruct (lock_excludes_for_an_hour fs 0 (3600 * usec_per_sec) eq_refl)
    as (_ & _ & Hrefused & _).
  destruct (lock_excludes_for_an_hour fs 0 (3600 * usec_per_sec + 1) eq_refl)
    as (_ & _ & _ & Htaken & _).
  split; [apply Hrefused; lia | apply Htaken; lia].
Defined.

(** *** A whole run of step 0 *)

Lemma retention_policy_spec config fs :
  retention_policy config fs
  = match retention config !! "articles_days",
          retention config !! "news_days" with
    | Some a, Some n => (Return (step0_policy a n), fs)
    | None, _ => (Raise "'articles_days'", fs)
    | Some _, None => (Raise "'news_days'", fs)
    end.
Proof.
  unfold retention_policy, retention_of, mbind, Fs_bind, Fs.bind.
  destruct (retention config !! "articles_days") as [a|]; [|done].
  by destruct (retention config !! "news_days") as [n|].
Qed.

(** The acquisition that succeeds writes the lock and nothing else. *)
Lemma acquire_lock_file_got t fs :
  (acquire_lock_file t fs).1 = Return true ->
  acquire_lock_file t fs
  = (Return true, {| files := files fs; lock_file := Some t;
                     backups := backups fs |}).
Proof.
  unfold acquire_lock_file. fs_run.
  destruct (lock_file fs) as [mtime|]; cbn; [|done].
  by destruct (_ <? _).
Qed.

(** The backup stage of the run: it returns whether or not the copy goes
    through, and touches the snapshots only; it leaves these alone when
    no backup is asked for and when the copy fails before the new
    snapshot exists, and adds the new snapshot when the copy fails
    part-way. *)
Lemma backup_stage config env (errors1 : list string) fs :
  exists fs',
    (if backup_on_error config
     then try_except (_backup_cache env ;; ret (true, errors1))
            (fun e => ret (false,
               errors1 ++ [String.append "Cache backup failed: " e]))
     else ret (false, errors1)) fs
    = (Return (backup_on_error config && copytree_ok env,
               if backup_on_error config && negb (copytree_ok env)
               then errors1 ++ ["Cache backup failed: copytree failed"]
               else errors1), fs') /\
    files fs' = files fs /\ lock_file fs' = lock_file fs /\
    (backup_on_error config = false \/ copytree env = FailedBefore ->
     backups fs' = backups fs) /\
    (backup_on_error config = true -> copytree env = FailedPartway ->
     forall b, b ∈ backups fs'
               <-> b = now env `div` usec_per_sec \/ b ∈ backups fs).
Proof.
  destruct (backup_on_error config); cbn [andb];
    [|exists fs; repeat split; done].
  unfold try_except, mbind, Fs_bind, Fs.bind, _backup_cache, Fs.get, Fs.put,
    Fs.raise, Fs.ret, copytree_ok.
  destruct (copytree env); cbn [negb fst snd];
    (eexists; split; [reflexivity|]); cbn [files lock_file backups];
    (split; [done|]); (split; [done|]); split; try done.
  - by intros [[=] | [=]].
  - by intros [[=] | [=]].
  - intros _ _ b. apply elem_of_copied.
Qed.

(** The clean-up stage of the run. *)
Lemma cleanup_stage config env (errors2 : list string) fs :
  cleanup_on_start config = true ->
  (try_except
     (policy ← retention_policy config;
      initial ← CacheManager.list_all;
      CacheManager.cleanup (now env) policy ;;
      final ← CacheManager.list_all;
      ret (Z.of_nat (length initial) - Z.of_nat (length final), errors2))
     (fun e => ret (0, errors2 ++ [String.append "Cache cleanup failed: " e])))
    fs
  = match retention config !! "articles_days",
          retention config !! "news_days" with
    | Some a, Some n =>
        let cleaned := CacheManager.cleanup (now env) (step0_policy a n) fs in
        (Return (Z.of_nat (size (files fs)) - Z.of_nat (size (files cleaned.2)),
                 errors2), cleaned.2)
    | None, _ =>
        (Return (0, errors2 ++ ["Cache cleanup failed: 'articles_days'"]), fs)
    | Some _, None =>
        (Return (0, errors2 ++ ["Cache cleanup failed: 'news_days'"]), fs)
    end.
Proof.
  intros _. unfold try_except. unfold mbind at 1. unfold Fs_bind, Fs.bind.
  rewrite retention_policy_spec.
  destruct (retention config !! "articles_days") as [a|]; [|done].
  destruct (retention config !! "news_days") as [n|]; [|done].
  unfold list_all, mbind, Fs_bind, Fs.bind, Fs.get, Fs.ret. cbv zeta.
  destruct (cleanup_loop_spec (now env) (step0_policy a n) 0 fs)
    as (cleaned & fs' & Hrun & _ & _ & _ & Hsize).
  pose proof (cleanup_loop_listing (now env) _ (step0_policy_top_level a n)
                0%nat fs cleaned fs' Hrun) as Hlist.
  unfold cleanup. rewrite Hrun. cbn [fst snd]. do 2 f_equal. f_equal. lia.
Qed.
Lemma bind_returns {A B} (m : M A) (k : A -> M B) fs a fs' :
  m fs = (Return a, fs') -> (m ≫= k) fs = k a fs'.
Proof. intros Hm. unfold mbind, Fs_bind, Fs.bind. by rewrite Hm. Qed.

(** The run from the lock to the result, when the lock is got and the
    cache directory can be made: the backup stage returns, the clean-up
    stage decides the rest, and the lock is released at the end. *)
Lemma run_step0_stages config env fs :
  (acquire_lock_file (now env) fs).1 = Return true ->
  mkdir_ok env = true ->
  let backed := backup_on_error config && copytree_ok env in
  let errors2 :=
    if backup_on_error config && negb (copytree_ok env)
    then step0_warnings env ++ ["Cache backup failed: copytree failed"]
    else step0_warnings env in
  exists fs2,
    files fs2 = files fs /\
    (backup_on_error config = false \/ copytree env = FailedBefore ->
     backups fs2 = backups fs) /\
    (backup_on_error config = true -> copytree env = FailedPartway ->
     forall b, b ∈ backups fs2
               <-> b = now env `div` usec_per_sec \/ b ∈ backups fs) /\
    run_step0 config env fs
    = match
        (if cleanup_on_start config
         then try_except
                (policy ← retention_policy config;
                 initial ← CacheManager.list_all;
                 CacheManager.cleanup (now env) policy ;;
                 final ← CacheManager.list_all;
                 ret (Z.of_nat (length initial) - Z.of_nat (length final),
                      errors2))
                (fun e => ret (0, errors2
                                    ++ [String.append "Cache cleanup failed: " e]))
         else ret (0, errors2)) fs2
      with
      | (Return (cleaned, errors3), fs3) =>
          (Return {| success := bool_decide (errors3 = []);
                     cache_cleaned := cleaned; cache_backed_up := backed;
                     errors := errors3 |},
           {| files := files fs3; lock_file := None; backups := backups fs3 |})
      | (Raise e, fs3) =>
          (Return {| success := false; cache_cleaned := 0;
                     cache_backed_up := false;
                     errors := [String.append "Critical failure: " e] |},
           {| files := files fs3; lock_file := None; backups := backups fs3 |})
      end.
Proof.
  intros Hgot Hmkdir backed errors2.
  destruct (backup_stage config env (step0_warnings env)
              {| files := files fs; lock_file := Some (now env);
                 backups := backups fs |})
    as (fs2 & Hbackup & Hfiles & _ & Hbackups & Hpartway).
  exists fs2. split; [done|]. split; [done|]. split; [done|].
  unfold run_step0, try_finally, run_step0_body.
  unfold try_except at 1.
  rewrite (bind_returns _ _ _ _ _ (acquire_lock_file_got _ _ Hgot)).
  cbn [negb]. rewrite Hmkdir.
  rewrite (bind_returns (ret ()) _ _ () _ eq_refl).
  assert (Hwarn :
    (if negb (repo_writable env)
     then (if check_gemini env && negb (gemini_healthy env)
           then ["Gemini API health check failed - API may be unavailable"]
           else []) ++ ["Repository write permissions check failed"]
     else (if check_gemini env && negb (gemini_healthy env)
           then ["Gemini API health check failed - API may be unavailable"]
           else []))
    = step0_warnings env).
  { unfold step0_warnings.
    destruct (repo_writable env); cbn [negb]; [by rewrite app_nil_r | done]. }
  rewrite Hwarn.
  rewrite (bind_returns _ _ _ _ _ Hbackup). fold backed errors2.
  set (stage := if cleanup_on_start config then _ else _).
  unfold mbind, Fs_bind, Fs.bind.
  destruct (stage fs2) as [[[cleaned errors3] | e] fs3];
    unfold Fs.ret; by rewrite release_lock_file_spec.
Qed.
Lemma doomed_same_files t fs fs' retention_days path :
  files fs' = files fs ->
  doomed t fs' retention_days path = doomed t fs retention_days path.
Proof. intros Hfiles. unfold doomed, stale. by rewrite Hfiles. Qed.

Lemma step0_warnings_nil env :
  step0_warnings env = [] <->
  (check_gemini env = true -> gemini_healthy env = true) /\
  repo_writable env = true.
Proof.
  unfold step0_warnings.
  destruct (check_gemini env), (gemini_healthy env), (repo_writable env); cbn;
    split; try done; intros [Hg Hr]; try done; by specialize (Hg eq_refl).
Qed.

(** X8.  A run that gets the lock, with both retention periods
    configured and the clean-up switched on, returns a result and deletes
    exactly the stale entries among the six files that [run_step0] names;
    it does so whether or not the backup is asked for and whether or not
    the copy goes through.  [cache_cleaned] is the number of files
    deleted; [cache_backed_up] tells whether a snapshot was taken in
    full; [success] is [True] exactly when the Gemini check (if asked
    for), the permission check and the backup (if asked for) all went
    through; the lock is gone at the end.  The backups are as they were
    when no backup is asked for and when the copy fails before the
    directory of the snapshot is made; a copy that fails part-way leaves
    its snapshot behind, next to all those that were there. *)
Theorem run_step0_cleans_six_entries (config : Step0Config)
    (env : environment) (fs : cache_fs) (articles_days news_days : Z) :
  (acquire_lock_file (now env) fs).1 = Return true ->
  mkdir_ok env = true ->
  cleanup_on_start config = true ->
  retention config !! "articles_days" = Some articles_days ->
  retention config !! "news_days" = Some news_days ->
  let after := (run_step0 config env fs).2 in
  exists result,
    (run_step0 config env fs).1 = Return result /\
    (forall path,
       files after !! path
       = if doomed (now env) fs (step0_policy articles_days news_days) path
         then None else files fs !! path) /\
    cache_cleaned result
    = Z.of_nat (size (files fs)) - Z.of_nat (size (files after)) /\
    (cache_backed_up result = true <->
       backup_on_error config = true /\ copytree env = Copied) /\
    (success result = true <->
       (check_gemini env = true -> gemini_healthy env = true) /\
       repo_writable env = true /\
       (backup_on_error config = true -> copytree env = Copied)) /\
    (success result = true <-> errors result = []) /\
    lock_file after = None /\
    (backup_on_error config = false \/ copytree env = FailedBefore ->
       backups after = backups fs) /\
    (backup_on_error config = true -> copytree env = FailedPartway ->
       forall b, b ∈ backups after
                 <-> b = now env `div` usec_per_sec \/ b ∈ backups fs).
Proof.
  intros Hgot Hmkdir Hclean Harticles Hnews after. subst after.
  destruct (run_step0_stages config env fs Hgot Hmkdir)
    as (fs2 & Hfiles & Hbackups & Hpartway & Hrun).
  rewrite Hclean, (cleanup_stage config env _ fs2 Hclean) in Hrun.
  rewrite Harticles, Hnews in Hrun. cbv zeta in Hrun.
  destruct (cleanup_loop_spec (now env)
              (step0_policy articles_days news_days) 0 fs2)
    as (cleaned & fs3 & Hloop & _ & Hbak & Hdoomed & _).
  unfold cleanup in Hrun. rewrite Hloop in Hrun. cbn [fst snd] in Hrun.
  rewrite Hrun. cbn [fst snd files lock_file backups success cache_cleaned
                     cache_backed_up errors].
  eexists. split; [reflexivity|].
  cbn [success cache_cleaned cache_backed_up errors].
  assert (Hok : copytree_ok env = true <-> copytree env = Copied).
  { unfold copytree_ok. by destruct (copytree env). }
  split; [|split; [|split; [|split; [|split; [|split; [|split]]]]]].
  - intros path. rewrite Hdoomed, Hfiles.
    by rewrite (doomed_same_files _ fs fs2).
  - by rewrite Hfiles.
  - rewrite andb_true_iff, Hok. by destruct (backup_on_error config).
  - rewrite bool_decide_eq_true, <- Hok.
    destruct (backup_on_error config), (copytree_ok env); cbn [andb negb].
    + rewrite step0_warnings_nil. by intuition.
    + split; [by intros [_ [=]]%app_eq_nil|].
      intros (_ & _ & Hcopy). by specialize (Hcopy eq_refl).
    + rewrite step0_warnings_nil. by intuition.
    + rewrite step0_warnings_nil. by intuition.
  - by rewrite bool_decide_eq_true.
  - done.
  - intros Hnone. rewrite Hbak. by apply Hbackups.
  - intros Hasked Hcopy b. rewrite Hbak. by apply Hpartway.
Qed.

(** X8, on sample data: retention of ten and three days, the copy of the
    backup failing part-way; the entry [news.json], written four days
    before the run, is deleted all the same, the run reports one file
    cleaned and no success, and the snapshot of the failed copy is there
    afterwards. *)
Lemma run_step0_cleans_six_entries_witness :
  let config := {| retention := {[ "articles_days" := 10; "news_days" := 3 ]};
                   backup_on_error := true; cleanup_on_start := true |} in
  let env := {| check_gemini := false; gemini_healthy := false;
                repo_writable := true; mkdir_ok := true;
                copytree := FailedPartway; now := 19884 * usec_per_day |} in
  let fs := {| files := {[ "news.json" := Entry (19880 * usec_per_day);
                           "articles.json" := Entry (19880 * usec_per_day) ]};
               lock_file := None; backups := [] |} in
  exists result,
    (run_step0 config env fs).1 = Return result /\
    files (run_step0 config env fs).2 !! "news.json" = None /\
    files (run_step0 config env fs).2 !! "articles.json"
    = Some (Entry (19880 * usec_per_day)) /\
    cache_cleaned result = 1 /\ success result = false /\
    19884 * 86400 ∈ backups (run_step0 config env fs).2.
Proof.
  intros config env fs.
  destruct (run_step0_cleans_six_entries config env fs 10 3
              eq_refl eq_refl eq_refl eq_refl eq_refl)
    as (result & Hrun & Hfiles & Hcleaned & _ & Hsuccess & _ & _ & _ & Hleft).
  exists result. split; [exact Hrun|].
  split; [by rewrite Hfiles|]. split; [by rewrite Hfiles|].
  split; [rewrite Hcleaned; reflexivity|]. split.
  - destruct (success result); [|reflexivity].
    destruct Hsuccess as [Hok _].
    destruct (Hok eq_refl) as (_ & _ & Hcopy). by specialize (Hcopy eq_refl).
  - apply (Hleft eq_refl eq_refl). left. reflexivity.
Defined.

(** X9.  When a retention period is missing from the configuration the
    clean-up deletes nothing, however old the entries: the run still
    returns a result, with [success = False], [cache_cleaned = 0] and, as
    its last error, the clean-up failure that names the missing key (of
    two missing keys, [articles_days]). *)
Theorem run_step0_missing_retention_key (config : Step0Config)
    (env : environment) (fs : cache_fs) :
  (acquire_lock_file (now env) fs).1 = Return true ->
  mkdir_ok env = true ->
  cleanup_on_start config = true ->
  retention config !! "articles_days" = None \/
  retention config !! "news_days" = None ->
  let after := (run_step0 config env fs).2 in
  let missing :=
    match retention config !! "articles_days" with
    | Some _ => "news_days"
    | None => "articles_days"
    end in
  exists result,
    (run_step0 config env fs).1 = Return result /\
    files after = files fs /\ lock_file after = None /\
    success result = false /\ cache_cleaned result = 0 /\
    last (errors result)
    = Some ("Cache cleanup failed: '" ++ missing ++ "'")%string.
Proof.
  intros Hgot Hmkdir Hclean Hmissing after missing. subst after missing.
  destruct (run_step0_stages config env fs Hgot Hmkdir)
    as (fs2 & Hfiles & _ & _ & Hrun).
  rewrite Hclean, (cleanup_stage config env _ fs2 Hclean) in Hrun.
  set (errors2 := if backup_on_error config && negb (copytree_ok env)
                  then _ else _) in Hrun.
  assert (Hcase :
    exists key,
      key = match retention config !! "articles_days" with
            | Some _ => "news_days"
            | None => "articles_days"
            end /\
      run_step0 config env fs
      = (Return {| success :=
                     bool_decide
                       (errors2 ++ [("Cache cleanup failed: '" ++ key ++ "'")%string]
                        = []);
                   cache_cleaned := 0;
                   cache_backed_up := backup_on_error config && copytree_ok env;
                   errors :=
                     errors2 ++ [("Cache cleanup failed: '" ++ key ++ "'")%string] |},
         {| files := files fs2; lock_file := None; backups := backups fs2 |})).
  { destruct (retention config !! "articles_days") as [a|];
      [|by exists "articles_days"].
    destruct (retention config !! "news_days") as [n|];
      [by destruct Hmissing | by exists "news_days"]. }
  destruct Hcase as (key & <- & ->). eexists. split; [reflexivity|].
  cbn [fst snd files lock_file success cache_cleaned errors].
  split; [done|]. split; [done|]. split; [|split; [done|]].
  - apply bool_decide_eq_false. by intros [_ ?]%app_eq_nil.
  - by rewrite last_snoc.
Qed.

Lemma run_step0_missing_retention_key_witness :
  let config := {| retention := {[ "articles_days" := 10 ]};
                   backup_on_error := false; cleanup_on_start := true |} in
  let env := {| check_gemini := false; gemini_healthy := false;
                repo_writable := true; mkdir_ok := true;
                copytree := Copied; now := 20000 * usec_per_day |} in
  let fs := {| files := {[ "news.json" := Entry (19880 * usec_per_day) ]};
               lock_file := None; backups := [] |} in
  exists result,
    (run_step0 config env fs).1 = Return result /\
    files (run_step0 config env fs).2 !! "news.json"
    = Some (Entry (19880 * usec_per_day)) /\
    errors result = ["Cache cleanup failed: 'news_days'"].
Proof.
  intros config env fs.
  destruct (run_step0_missing_retention_key config env fs
              eq_refl eq_refl eq_refl (or_intror eq_refl))
    as (result & Hrun & Hfiles & _).
  exists result. split; [exact Hrun|]. split; [by rewrite Hfiles|].
  revert Hrun. vm_compute. by intros [= <-].
Defined.

(** *** Entries and their age *)

Lemma whole_days_lt delta max_days :
  (timedelta_whole_days delta <? max_days)
  = bool_decide (delta < timedelta_days max_days).
Proof.
  unfold timedelta_whole_days, timedelta_days.
  pose proof Step2Facts.usec_per_day_pos as Hpos.
  pose proof (Z.div_mod delta usec_per_day) as Hdiv.
  pose proof (Z.mod_pos_bound delta usec_per_day Hpos) as Hmod.
  destruct (Z.ltb_spec (delta `div` usec_per_day) max_days) as [Hlt | Hge];
    symmetry; [apply bool_decide_eq_true | apply bool_decide_eq_false]; nia.
Qed.

(** X10.  An entry written by [save] exists, and its age at a later
    reading of the clock is the time passed since.  It is fresh for
    exactly [max_days] days: [is_fresh] answers [True] up to, and not at,
    [max_days] times twenty-four hours after the save.  A clean-up keeps
    it until then and deletes it from then on, leaving the other files
    alone. *)
Theorem saved_entry_expires_after_retention (fs : cache_fs) (key : string)
    (saved_at t max_days : Z) :
  let fs1 := (save saved_at key fs).2 in
  let cleaned := cleanup t [(key, max_days)] fs1 in
  cache_exists key fs1 = (Return true, fs1) /\
  get_age t key fs1 = (Return (Some (t - saved_at)), fs1) /\
  is_fresh t key max_days fs1
  = (Return (bool_decide (t < saved_at + timedelta_days max_days)), fs1) /\
  (t < saved_at + timedelta_days max_days -> cleaned = (Return 0%nat, fs1)) /\
  (saved_at + timedelta_days max_days <= t ->
     cleaned.1 = Return 1%nat /\
     files cleaned.2 !! _get_cache_path key = None /\
     forall path, path <> _get_cache_path key ->
       files cleaned.2 !! path = files fs !! path).
Proof.
  intros fs1 cleaned.
  assert (Hentry : files fs1 !! _get_cache_path key = Some (Entry saved_at)).
  { subst fs1. unfold save. fs_run. apply lookup_insert_eq. }
  assert (Hother : forall path, path <> _get_cache_path key ->
            files fs1 !! path = files fs !! path).
  { intros path Hne. subst fs1. unfold save. fs_run.
    by apply lookup_insert_ne. }
  assert (Hfresh : bool_decide (t - saved_at < timedelta_days max_days)
                   = bool_decide (t < saved_at + timedelta_days max_days)).
  { apply bool_decide_ext. lia. }
  assert (Hstale : stale t fs1 key max_days
                   = negb (bool_decide
                             (t < saved_at + timedelta_days max_days))).
  { unfold stale. by rewrite Hentry, whole_days_lt, Hfresh. }
  split; [|split; [|split; [|split]]].
  - unfold cache_exists. fs_run. rewrite Hentry.
    by rewrite bool_decide_eq_true_2 by eauto.
  - unfold get_age. fs_run. by rewrite Hentry.
  - unfold is_fresh, get_age. fs_run. rewrite Hentry.
    by rewrite whole_days_lt, Hfresh.
  - intros Hin. subst cleaned. unfold cleanup. rewrite cleanup_loop_step.
    rewrite Hstale, bool_decide_eq_true_2 by done. done.
  - intros Hout. subst cleaned. unfold cleanup. rewrite cleanup_loop_step.
    rewrite Hstale, bool_decide_eq_false_2 by lia. cbn.
    split; [done|]. split; [apply lookup_delete_eq|].
    intros path Hne. rewrite lookup_delete_ne by done. by apply Hother.
Qed.

(** *** Clean-up twice *)

Lemma cleanup_loop_nothing_stale t retention_days : forall cleaned fs,
  (forall key days,
     (key, days) ∈ retention_days -> stale t fs key days = false) ->
  cleanup_loop t retention_days cleaned fs = (Return cleaned, fs).
Proof.
  induction retention_days as [|[key days] rest IH]; intros cleaned fs Hnone;
    [done|].
  rewrite cleanup_loop_step, (Hnone key days) by apply list_elem_of_here.
  apply IH. intros k d Hin. apply Hnone. by apply list_elem_of_further.
Qed.

(** X11.  A clean-up leaves nothing for a second clean-up at the same
    reading of the clock and with the same retention periods: the second
    one deletes no file and counts none. *)
Theorem cleanup_twice_deletes_nothing (t : Z)
    (retention_days : list (string * Z)) (fs : cache_fs) :
  let once := (cleanup t retention_days fs).2 in
  cleanup t retention_days once = (Return 0%nat, once).
Proof.
  intros once. subst once. unfold cleanup.
  destruct (cleanup_loop_spec t retention_days 0 fs)
    as (n & fs' & Hrun & _ & _ & Hfiles & _).
  rewrite Hrun. cbn [snd]. apply cleanup_loop_nothing_stale.
  intros key days Hin. unfold stale. rewrite Hfiles.
  destruct (doomed t fs retention_days (_get_cache_path key)) eqn:Hdoomed;
    [done|].
  assert (Hkept : stale t fs key days = false).
  { destruct (stale t fs key days) eqn:Hstale; [|done].
    assert (doomed t fs retention_days (_get_cache_path key) = true);
      [|congruence].
    unfold doomed. apply existsb_exists. exists (key, days).
    split; [by apply list_elem_of_In|]. cbn.
    by rewrite String.eqb_refl, Hstale. }
  exact Hkept.
Qed.

End Step0More.
(** ** More on the merge: what it leaves alone *)

Module Step4More.
Import Step4MultiDedup Step4Judgments Step4Facts.
Local Open Scope list_scope.

Lemma index_by_id_is_Some news_list id :
  is_Some (index_by_id news_list !! id) <-> id ∈ news_id <$> news_list.
Proof.
  unfold index_by_id.
  assert (Hgen : forall l (m : gmap string NewsCluster),
    is_Some (foldl (fun m news => <[news_id news := news]> m) m l !! id)
    <-> id ∈ news_id <$> l \/ is_Some (m !! id)).
  { induction l as [|n l IH]; intros m; cbn [foldl].
    - rewrite fmap_nil. split; [by right | intros [?%elem_of_nil | ?]; done].
    - rewrite IH, fmap_cons, elem_of_cons, lookup_insert_is_Some.
      destruct (decide (news_id n = id)) as [-> | Hne]; [by intuition|].
      split.
      + intros [? | [? | [_ ?]]]; auto; congruence.
      + intros [[? | ?] | ?]; auto; congruence. }
  rewrite Hgen, lookup_empty. split; [intros [? | [? [=]]]; done | by left].
Qed.

Lemma replace_first_keeps id u l c :
  c ∈ l -> news_id c <> id -> c ∈ replace_first id u l.
Proof.
  intros Hin Hne. induction l as [|n l IH]; [done|]. cbn.
  apply elem_of_cons in Hin as [<- | Hin].
  - rewrite decide_False by done. apply list_elem_of_here.
  - destruct (decide (news_id n = id)); apply list_elem_of_further; auto.
Qed.

Lemma replace_first_length id u l :
  length (replace_first id u l) = length l.
Proof.
  induction l as [|n l IH]; [done|]. cbn.
  destruct (decide (news_id n = id)); cbn; by rewrite ?IH.
Qed.

Lemma replace_first_inv id u l c :
  c ∈ replace_first id u l -> c = u \/ c ∈ l.
Proof.
  induction l as [|n l IH]; cbn; [by right|].
  destruct (decide (news_id n = id)).
  - intros [-> | ?]%elem_of_cons; [by left | right; by apply list_elem_of_further].
  - intros [-> | Hin]%elem_of_cons; [right; apply list_elem_of_here|].
    destruct (IH Hin); [by left | right; by apply list_elem_of_further].
Qed.

Lemma filter_length_le {A} (P Q : A -> Prop)
    `{!forall x, Decision (P x)} `{!forall x, Decision (Q x)} (l : list A) :
  (forall y, Q y -> P y) ->
  (length (filter Q l) <= length (filter P l))%nat.
Proof.
  intros Himp. induction l as [|y l IH]; [done|]. rewrite !filter_cons.
  destruct (decide (Q y)) as [Hq | Hq].
  - rewrite decide_True by auto. cbn. lia.
  - destruct (decide (P y)); cbn; lia.
Qed.

Lemma filter_length_lt {A} (P Q : A -> Prop)
    `{!forall x, Decision (P x)} `{!forall x, Decision (Q x)} (l : list A) x :
  (forall y, Q y -> P y) -> x ∈ l -> P x -> ~ Q x ->
  (length (filter Q l) < length (filter P l))%nat.
Proof.
  intros Himp Hin Hp Hq. induction l as [|y l IH];
    [by apply elem_of_nil in Hin|].
  rewrite !filter_cons. apply elem_of_cons in Hin as [<- | Hin].
  - rewrite decide_False, decide_True by done. cbn.
    pose proof (filter_length_le P Q l Himp). lia.
  - specialize (IH Hin). destruct (decide (Q y)) as [Hqy | Hqy].
    + rewrite decide_True by auto. cbn. lia.
    + destruct (decide (P y)); cbn; lia.
Qed.

Section Loop.
Context {set_order : PySetOrder}.
Variable utcnow : nat -> Z.
Variables today_news cached_news : list NewsCluster.

Local Abbreviation today_map := (index_by_id today_news).
Local Abbreviation cached_map := (index_by_id cached_news).

(** One turn of the loop, by whether the judgment resolves. *)
Lemma merge_pair_cases st p st' :
  merge_pair utcnow today_map cached_map st p = Some st' ->
  (~ resolves today_news cached_news p /\ st' = st) \/
  (resolves today_news cached_news p /\
   merged_today_ids st' = {[news_today_id p]} ∪ merged_today_ids st /\
   clock_reads st' = S (clock_reads st) /\
   exists today_item cached_item updated_news,
     today_item ∈ today_news /\ news_id today_item = news_today_id p /\
     cached_item ∈ cached_news /\ news_id cached_item = news_cached_id p /\
     (news_id updated_news = news_id today_item \/
      news_id updated_news = news_id cached_item) /\
     (result_news st'
      = replace_first (news_cached_id p) updated_news (result_news st) \/
      result_news st'
      = remove_id (news_cached_id p) (result_news st) ++ [updated_news])).
Proof.
  unfold merge_pair, resolves.
  rewrite <- !index_by_id_is_Some.
  destruct (today_map !! news_today_id p) as [today_item|] eqn:Ht;
    [|intros [= <-]; left; split; [by intros [[? [=]] _] | done]].
  destruct (cached_map !! news_cached_id p) as [cached_item|] eqn:Hc;
    [|intros [= <-]; left; split; [by intros [_ [? [=]]] | done]].
  apply index_by_id_lookup in Ht as [Htin Htid].
  apply index_by_id_lookup in Hc as [Hcin Hcid].
  destruct (choose_base today_item cached_item) as [base to_merge] eqn:Hbase.
  destruct (build_updated base to_merge (utcnow (clock_reads st)))
    as [updated_news|] eqn:Hbuild; [|done].
  cbn. intros [= <-]. right. split; [by split; eauto|].
  cbn [merged_today_ids clock_reads result_news].
  split; [done|]. split; [done|].
  exists today_item, cached_item, updated_news.
  split; [done|]. split; [done|]. split; [done|]. split; [done|]. split.
  - unfold build_updated in Hbuild.
    apply NewsCluster_new_Some in Hbuild as [-> _]. cbn.
    unfold choose_base in Hbase.
    destruct (_ <=? _); simplify_eq; auto.
  - rewrite Hcid. destruct (decide (base = cached_item)); auto.
Qed.

(** The ids marked as merged are those the resolving judgments name. *)
Lemma merge_loop_merged_ids pairs : forall st st',
  merge_loop utcnow today_map cached_map pairs st = Some st' ->
  forall id,
    id ∈ merged_today_ids st' <->
    id ∈ matched_today_ids today_news cached_news pairs \/
    id ∈ merged_today_ids st.
Proof.
  unfold matched_today_ids.
  induction pairs as [|p pairs IH]; intros st st' Hloop id; cbn in Hloop.
  - simplify_eq. rewrite filter_nil, fmap_nil.
    split; [by right | intros [?%elem_of_nil | ?]; done].
  - destruct (merge_pair utcnow today_map cached_map st p) as [st1|] eqn:Hp;
      [|done].
    cbn in Hloop. rewrite (IH _ _ Hloop), filter_cons.
    apply merge_pair_cases in Hp as [[Hno ->] | (Hyes & Hids & _)].
    + by rewrite decide_False.
    + rewrite decide_True, fmap_cons, elem_of_cons, Hids by done.
      rewrite elem_of_union, elem_of_singleton. by intuition.
Qed.

(** A cluster of [result_news] stays while no judgment names its id as
    the cached side. *)
Lemma merge_loop_keeps pairs : forall st st' c,
  merge_loop utcnow today_map cached_map pairs st = Some st' ->
  c ∈ result_news st ->
  news_id c ∉ news_cached_id <$> pairs ->
  c ∈ result_news st'.
Proof.
  induction pairs as [|p pairs IH]; intros st st' c Hloop Hin Hid;
    cbn in Hloop; [by simplify_eq|].
  destruct (merge_pair utcnow today_map cached_map st p) as [st1|] eqn:Hp;
    [|done].
  cbn in Hloop. rewrite fmap_cons in Hid.
  apply not_elem_of_cons in Hid as [Hne Hid].
  apply (IH st1); [done | | done].
  apply merge_pair_cases in Hp
    as [[_ ->] | (_ & _ & _ & t & k & u & _ & _ & _ & _ & _ & [-> | ->])].
  - done.
  - by apply replace_first_keeps.
  - apply elem_of_app. left. by apply list_elem_of_filter.
Qed.

(** No turn brings in an id that the two lists do not have. *)
Lemma merge_loop_ids pairs : forall st st',
  merge_loop utcnow today_map cached_map pairs st = Some st' ->
  (forall c, c ∈ result_news st ->
     news_id c ∈ news_id <$> cached_news ++ today_news) ->
  forall c, c ∈ result_news st' ->
    news_id c ∈ news_id <$> cached_news ++ today_news.
Proof.
  induction pairs as [|p pairs IH]; intros st st' Hloop Hst;
    cbn in Hloop; [by simplify_eq|].
  destruct (merge_pair utcnow today_map cached_map st p) as [st1|] eqn:Hp;
    [|done].
  cbn in Hloop. apply (IH st1); [done|].
  apply merge_pair_cases in Hp
    as [[_ ->] | (_ & _ & _ & t & k & u & Ht & _ & Hk & _ & Hu & Hres)];
    [done|].
  assert (Hnew : news_id u ∈ news_id <$> cached_news ++ today_news).
  { rewrite fmap_app, elem_of_app.
    destruct Hu as [-> | ->]; [right | left]; by apply list_elem_of_fmap_2. }
  intros c Hc. destruct Hres as [Hres | Hres]; rewrite Hres in Hc.
  - apply replace_first_inv in Hc as [-> | Hc]; auto.
  - apply elem_of_app in Hc as [[_ Hc]%list_elem_of_filter | Hc]; [auto|].
    by apply list_elem_of_singleton in Hc as ->.
Qed.

(** A judgment that does not resolve leaves the state as it is. *)
Lemma merge_loop_unresolved pairs : forall st,
  Forall (fun p => ~ resolves today_news cached_news p) pairs ->
  merge_loop utcnow today_map cached_map pairs st = Some st.
Proof.
  induction pairs as [|p pairs IH]; intros st Hpairs; [done|].
  apply Forall_cons in Hpairs as [Hp Hpairs]. cbn.
  assert (Hstep : merge_pair utcnow today_map cached_map st p = Some st).
  { unfold merge_pair.
    destruct (today_map !! news_today_id p) as [t|] eqn:Ht; [|done].
    destruct (cached_map !! news_cached_id p) as [k|] eqn:Hk; [|done].
    destruct Hp. split; apply index_by_id_is_Some; eauto. }
  rewrite Hstep. cbn. by apply IH.
Qed.
(** With no cluster of today judged twice, a turn adds at most one
    cluster to [result_news] and then takes at least one away from the
    clusters of today still to be passed on. *)
Lemma merge_loop_length pairs : forall st st',
  merge_loop utcnow today_map cached_map pairs st = Some st' ->
  NoDup (news_today_id <$> pairs) ->
  (forall p, p ∈ pairs -> news_today_id p ∉ merged_today_ids st) ->
  (length (result_news st')
   + length (filter (fun news => news_id news ∉ merged_today_ids st')
               today_news)
   <= length (result_news st)
      + length (filter (fun news => news_id news ∉ merged_today_ids st)
                  today_news))%nat.
Proof.
  induction pairs as [|p pairs IH]; intros st st' Hloop Hnodup Hfresh;
    cbn in Hloop; [by simplify_eq|].
  destruct (merge_pair utcnow today_map cached_map st p) as [st1|] eqn:Hp;
    [|done].
  cbn in Hloop. rewrite fmap_cons in Hnodup.
  apply NoDup_cons in Hnodup as [Hp_new Hnodup].
  apply merge_pair_cases in Hp
    as [[_ ->] | (_ & Hids & _ & t & k & u & Ht & Htid & _ & _ & _ & Hres)].
  - apply IH; [done | done |]. intros q Hq. apply Hfresh.
    by apply list_elem_of_further.
  - etrans.
    { apply (IH st1); [done | done |]. intros q Hq. rewrite Hids.
      intros [Heq%elem_of_singleton | Hin]%elem_of_union.
      - apply Hp_new. rewrite <- Heq. by apply list_elem_of_fmap_2.
      - apply (Hfresh q); [by apply list_elem_of_further | done]. }
    assert (Hturn : (length (result_news st1) <= S (length (result_news st)))%nat).
    { destruct Hres as [-> | ->].
      - rewrite replace_first_length. lia.
      - rewrite length_app. cbn.
        pose proof (length_filter
                      (fun n => news_id n ≠ news_cached_id p) (result_news st)).
        unfold remove_id. lia. }
    assert (Htail :
      (length (filter (fun news => news_id news ∉ merged_today_ids st1)
                 today_news)
       < length (filter (fun news => news_id news ∉ merged_today_ids st)
                   today_news))%nat).
    { apply (filter_length_lt _ _ _ t); [| done | |].
      - intros y Hy Hin. apply Hy. rewrite Hids. apply elem_of_union. by right.
      - rewrite Htid. apply (Hfresh p), list_elem_of_here.
      - intros Hnot. apply Hnot. rewrite Hids, Htid.
        apply elem_of_union. left. by apply elem_of_singleton. }
    lia.
Qed.
End Loop.

(** X12.  Whenever the merge returns, the list returned ends with the
    clusters of today that no resolving judgment names, in their order,
    each as it came; before them come the cached clusters and the merged
    ones.  So a cluster of today that a resolving judgment names is not
    passed on beside its merge, and one that only unresolved judgments
    name, or none, is passed on untouched. *)
Theorem merge_passes_unmatched_today_news {set_order : PySetOrder}
    (utcnow : nat -> Z) (today_news cached_news : list NewsCluster)
    (duplicate_pairs : list NewsDeduplicationPair)
    (result : list NewsCluster) :
  _merge_duplicate_news utcnow today_news cached_news duplicate_pairs
    = Some result ->
  exists front,
    result
    = front ++ filter (fun c => news_id c ∉
                         matched_today_ids today_news cached_news
                           duplicate_pairs) today_news /\
    (forall c, c ∈ today_news ->
       news_id c ∉ news_today_id <$> duplicate_pairs -> c ∈ result) /\
    (forall c, c ∈ front ->
       news_id c ∈ news_id <$> cached_news ++ today_news).
Proof.
  unfold _merge_duplicate_news. intros Hrun.
  destruct (merge_loop utcnow _ _ duplicate_pairs _) as [st|] eqn:Hloop;
    [|done].
  cbn in Hrun. injection Hrun as <-.
  pose proof (merge_loop_merged_ids utcnow _ _ _ _ _ Hloop) as Hids.
  cbn [merged_today_ids] in Hids.
  assert (Htail :
    filter (fun news => news_id news ∉ merged_today_ids st) today_news
    = filter (fun c => news_id c ∉
                matched_today_ids today_news cached_news duplicate_pairs)
        today_news).
  { apply list_filter_iff. intros c. rewrite Hids.
    split; [by intuition|]. intros Hc [? | ?%elem_of_empty]; done. }
  exists (result_news st). split; [by rewrite Htail|]. split.
  - intros c Hin Hid. apply elem_of_app. right. rewrite Htail.
    apply list_elem_of_filter. split; [|done].
    intros (p & Heq & [_ Hp]%list_elem_of_filter)%list_elem_of_fmap.
    apply Hid. rewrite Heq. by apply list_elem_of_fmap_2.
  - intros c Hc. apply (merge_loop_ids utcnow _ _ _ _ _ Hloop); [|done].
    cbn [result_news]. intros k Hk.
    rewrite fmap_app, elem_of_app. left. by apply list_elem_of_fmap_2.
Qed.

(** X12, on the sample data: of two clusters of today one is judged a
    duplicate of the cached cluster, the other is named only by a
    judgment whose cached id is unknown; the second ends the result. *)
Lemma merge_passes_unmatched_today_news_witness :
  let today_news := [Samples.today_gpt5; Samples.today_gpt5_bis] in
  let cached_news := [Samples.cached_gpt5_large] in
  let duplicate_pairs :=
    [Samples.judgment "news-today-0001234" "news-cache-0003333";
     Samples.judgment "news-today-0005678" "news-cache-0009999"] in
  let merged :=
    {| news_id := "news-cache-0003333"; title := "OpenAI Unveils GPT-5";
       summary := summary Samples.cached_gpt5_large;
       article_slugs := ["openai-unveils-gpt5"; "gpt5-first-look";
                         "gpt5-benchmarks"; "openai-gpt5-release"];
       article_count := 4; main_topic := "model release";
       keywords := ["model"; "GPT-5"; "OpenAI"; "release"];
       created_at := 1718900000000000;
       updated_at := Some 1719000000000000 |} in
  exists front,
    [merged; Samples.today_gpt5_bis] = front ++ [Samples.today_gpt5_bis].
Proof.
  intros today_news cached_news duplicate_pairs merged.
  destruct (merge_passes_unmatched_today_news
              (set_order := first_occurrence_order) Samples.clock
              today_news cached_news duplicate_pairs
              [merged; Samples.today_gpt5_bis] eq_refl)
    as (front & Hresult & _).
  exists front. exact Hresult.
Defined.

(** X13.  Whenever the merge returns, a cached cluster whose id no
    judgment names as its cached side is in the list returned, as it
    came. *)
Theorem merge_keeps_unjudged_cached_news {set_order : PySetOrder}
    (utcnow : nat -> Z) (today_news cached_news : list NewsCluster)
    (duplicate_pairs : list NewsDeduplicationPair)
    (result : list NewsCluster) :
  _merge_duplicate_news utcnow today_news cached_news duplicate_pairs
    = Some result ->
  forall c, c ∈ cached_news ->
    news_id c ∉ news_cached_id <$> duplicate_pairs -> c ∈ result.
Proof.
  unfold _merge_duplicate_news. intros Hrun c Hin Hid.
  destruct (merge_loop utcnow _ _ duplicate_pairs _) as [st|] eqn:Hloop;
    [|done].
  cbn in Hrun. injection Hrun as <-. apply elem_of_app. left.
  by apply (merge_loop_keeps utcnow _ _ _ _ _ _ Hloop).
Qed.

Lemma merge_keeps_unjudged_cached_news_witness :
  let merged :=
    {| news_id := "news-cache-0003333"; title := "OpenAI Unveils GPT-5";
       summary := summary Samples.cached_gpt5_large;
       article_slugs := ["openai-unveils-gpt5"; "gpt5-first-look";
                         "gpt5-benchmarks"; "openai-gpt5-release"];
       article_count := 4; main_topic := "model release";
       keywords := ["model"; "GPT-5"; "OpenAI"; "release"];
       created_at := 1718900000000000;
       updated_at := Some 1719000000000000 |} in
  Samples.cached_wordy ∈ [Samples.cached_wordy; merged].
Proof.
  intros merged.
  apply (merge_keeps_unjudged_cached_news
           (set_order := first_occurrence_order) Samples.clock
           [Samples.today_gpt5]
           [Samples.cached_wordy; Samples.cached_gpt5_large]
           [Samples.judgment "news-today-0001234" "news-cache-0003333"]
           [Samples.cached_wordy; merged] eq_refl).
  - apply list_elem_of_here.
  - apply (bool_decide_unpack _). vm_compute. exact I.
Defined.

(** X14.  Judgments that name no cluster of today, or no cached cluster,
    change nothing: when none of the judgments resolves, the merge returns
    the cached clusters followed by today's, each as it came, and builds
    no cluster. *)
Theorem merge_ignores_unresolved_judgments {set_order : PySetOrder}
    (utcnow : nat -> Z) (today_news cached_news : list NewsCluster)
    (duplicate_pairs : list NewsDeduplicationPair) :
  Forall (fun p => ~ resolves today_news cached_news p) duplicate_pairs ->
  _merge_duplicate_news utcnow today_news cached_news duplicate_pairs
  = Some (cached_news ++ today_news).
Proof.
  intros Hpairs. unfold _merge_duplicate_news.
  rewrite merge_loop_unresolved by done. cbn. do 2 f_equal.
  clear Hpairs. induction today_news as [|c rest IH]; [done|].
  rewrite filter_cons_True by apply not_elem_of_empty. by rewrite IH.
Qed.

Lemma merge_ignores_unresolved_judgments_witness :
  _merge_duplicate_news (set_order := first_occurrence_order) Samples.clock
    [Samples.today_gpt5] [Samples.cached_gpt5]
    [Samples.judgment "news-today-0001234" "news-cache-0009999";
     Samples.judgment "news-today-0000000" "news-cache-0001111"]
  = Some [Samples.cached_gpt5; Samples.today_gpt5].
Proof.
  apply (merge_ignores_unresolved_judgments
           (set_order := first_occurrence_order)).
  repeat constructor; apply (bool_decide_unpack _); vm_compute; exact I.
Defined.

(** X15.  When no cluster of today is named by two judgments, the list
    the merge returns is no longer than the cached clusters and today's
    together. *)
Theorem merge_never_grows {set_order : PySetOrder} (utcnow : nat -> Z)
    (today_news cached_news : list NewsCluster)
    (duplicate_pairs : list NewsDeduplicationPair)
    (result : list NewsCluster) :
  _merge_duplicate_news utcnow today_news cached_news duplicate_pairs
    = Some result ->
  NoDup (news_today_id <$> duplicate_pairs) ->
  (length result <= length cached_news + length today_news)%nat.
Proof.
  unfold _merge_duplicate_news. intros Hrun Hnodup.
  destruct (merge_loop utcnow _ _ duplicate_pairs _) as [st|] eqn:Hloop;
    [|done].
  cbn in Hrun. injection Hrun as <-.
  pose proof (merge_loop_length utcnow _ _ _ _ _ Hloop Hnodup) as Hlen.
  cbn [result_news merged_today_ids] in Hlen.
  assert (Hnone : forall p : NewsDeduplicationPair,
            p ∈ duplicate_pairs -> news_today_id p ∉ (∅ : gset string))
    by (intros p _; apply not_elem_of_empty).
  specialize (Hlen Hnone). rewrite length_app.
  etrans; [exact Hlen|]. apply Nat.add_le_mono_l, length_filter.
Qed.

Lemma merge_never_grows_witness :
  let merged :=
    {| news_id := "news-cache-0003333"; title := "OpenAI Unveils GPT-5";
       summary := summary Samples.cached_gpt5_large;
       article_slugs := ["openai-unveils-gpt5"; "gpt5-first-look";
                         "gpt5-benchmarks"; "openai-gpt5-release"];
       article_count := 4; main_topic := "model release";
       keywords := ["model"; "GPT-5"; "OpenAI"; "release"];
       created_at := 1718900000000000;
       updated_at := Some 1719000000000000 |} in
  (length [merged; Samples.today_gpt5_bis] <= 1 + 2)%nat.
Proof.
  intros merged.
  apply (merge_never_grows (set_order := first_occurrence_order)
           Samples.clock [Samples.today_gpt5; Samples.today_gpt5_bis]
           [Samples.cached_gpt5_large]
           [Samples.judgment "news-today-0001234" "news-cache-0003333"]
           [merged; Samples.today_gpt5_bis] eq_refl).
  apply (bool_decide_unpack _). vm_compute. exact I.
Defined.

End Step4More.
(** ** More on step 1: the slugs of a run, the sort, the filters *)

Module Step1More.
Import Step1Ingestion Step1Run Step1Slugs Step1Facts.
Local Open Scope list_scope.

(** *** The stable sort *)

Section SortedReverseFacts.
Context {A : Type} (key : A -> Z).

Lemma insert_reverse_Permutation a l :
  insert_reverse key a l ≡ₚ a :: l.
Proof.
  induction l as [|b l IH]; cbn; [done|].
  destruct (key a <? key b); [|done]. rewrite IH. apply Permutation_swap.
Qed.

Lemma sorted_reverse_Permutation l : sorted_reverse key l ≡ₚ l.
Proof.
  induction l as [|a l IH]; cbn; [done|].
  by rewrite insert_reverse_Permutation, IH.
Qed.

Lemma insert_reverse_Sorted a l :
  Sorted (fun x y => key y <= key x) l ->
  Sorted (fun x y => key y <= key x) (insert_reverse key a l).
Proof.
  induction 1 as [|b l Hl IH Hb]; cbn; [by repeat constructor|].
  destruct (Z.ltb_spec (key a) (key b)) as [Hlt | Hge].
  - constructor; [done|]. destruct l as [|c l]; cbn.
    + constructor. lia.
    + destruct (Z.ltb_spec (key a) (key c)); constructor; [|lia].
      by inversion Hb.
  - constructor; [by constructor|]. by constructor.
Qed.

Lemma sorted_reverse_Sorted l :
  Sorted (fun x y => key y <= key x) (sorted_reverse key l).
Proof.
  induction l as [|a l IH]; cbn; [constructor|].
  by apply insert_reverse_Sorted.
Qed.

Lemma insert_reverse_stable k a l :
  base.filter (fun x => key x = k) (insert_reverse key a l)
  = base.filter (fun x => key x = k) (a :: l).
Proof.
  induction l as [|b l IH]; cbn [insert_reverse]; [done|].
  destruct (Z.ltb_spec (key a) (key b)) as [Hlt | Hge]; [|done].
  rewrite filter_cons, IH, !filter_cons.
  destruct (decide (key b = k)), (decide (key a = k)); try done. lia.
Qed.
End SortedReverseFacts.

(** X16.  [sorted_reverse], the sort of [run_step1] (feeds by priority,
    articles by date), rearranges its list so that the keys never
    increase, and keeps the elements of one key in the order they came
    in. *)
Theorem sorted_reverse_is_stable {A : Type} (key : A -> Z) (l : list A) :
  sorted_reverse key l ≡ₚ l /\
  Sorted (fun x y => key y <= key x) (sorted_reverse key l) /\
  forall k, base.filter (fun x => key x = k) (sorted_reverse key l)
            = base.filter (fun x => key x = k) l.
Proof.
  split; [apply sorted_reverse_Permutation|].
  split; [apply sorted_reverse_Sorted|].
  intros k. induction l as [|a l IH]; [done|]. cbn [sorted_reverse foldr].
  fold (sorted_reverse key l).
  by rewrite insert_reverse_stable, !filter_cons, IH.
Qed.

(** *** The slugs a run hands out *)

Section Slugs.
Variable sha256_hexdigest : string -> string.
Variable re_compiles : string -> bool.
Variable re_search : string -> string -> bool.
Variable fetch : nat -> FeedConfig -> option (list RawArticle).

Lemma collision_loop_inv title base existing fuel : forall slug counter s,
  collision_loop fuel title base existing slug counter = Some (inr s) ->
  (s ∉ existing) /\
  (s = slug \/ exists k, (counter <= k <= 9)%nat /\ s = variant base k).
Proof.
  induction fuel as [|fuel IH]; intros slug counter s; [done|].
  rewrite collision_loop_step.
  destruct (decide (slug ∈ existing)) as [Hin | Hout].
  - destruct (Nat.leb_spec 10 counter) as [|Hlt]; [done|].
    intros [Hfresh [-> | (k & Hk & ->)]]%IH; (split; [done|]); right.
    + exists counter. split; [lia | done].
    + exists k. split; [lia | done].
  - intros [= <-]. split; [done | by left].
Qed.

(** The slug returned is not a used one, and is a candidate of the
    title. *)
Lemma generate_slug_fresh title existing s :
  generate_slug sha256_hexdigest title existing = Some (inr s) ->
  (s ∉ existing) /\
  exists k, (k <= 9)%nat /\
    s = candidate (base_slug sha256_hexdigest title) k.
Proof.
  unfold generate_slug, generate_slug_fuel.
  intros [Hfresh [-> | (k & Hk & ->)]]%collision_loop_inv; (split; [done|]).
  - exists 0%nat. split; [lia | done].
  - exists k. split; [lia|]. destruct k; [lia | done].
Qed.

(** Whatever [generate_slug] answers, the base slug is used afterwards:
    it was used before, or it is the slug returned. *)
Lemma generate_slug_base_taken title existing :
  match generate_slug sha256_hexdigest title existing with
  | Some (inr s) =>
      s = base_slug sha256_hexdigest title \/
      base_slug sha256_hexdigest title ∈ existing
  | _ => base_slug sha256_hexdigest title ∈ existing
  end.
Proof.
  unfold generate_slug, generate_slug_fuel.
  change 11%nat with (S 10). rewrite collision_loop_step.
  destruct (decide (base_slug sha256_hexdigest title ∈ existing));
    [|by left].
  cbn [Nat.leb].
  by destruct (collision_loop _ _ _ _ _ _) as [[|]|]; auto.
Qed.

(** One turn of the loop over the filtered articles. *)
Lemma assign_slug_cases st raw_art passed reason :
  let st' := assign_slug sha256_hexdigest st (raw_art, passed, reason) in
  feeds_ok st' = feeds_ok st /\ feeds_fail st' = feeds_fail st /\
  total_raw st' = total_raw st /\
  base_slug sha256_hexdigest (title raw_art) ∈ existing_slugs st' /\
  (st' = st \/
   exists s,
     (s ∉ existing_slugs st) /\
     (exists k, (k <= 9)%nat /\
        s = candidate (base_slug sha256_hexdigest (title raw_art)) k) /\
     existing_slugs st' = {[s]} ∪ existing_slugs st /\
     all_articles st'
     = (if passed then all_articles st ++ [processed raw_art s]
        else all_articles st) /\
     slug_collision_count st'
     = if decide (suffixed s) then S (slug_collision_count st)
       else slug_collision_count st).
Proof.
  intros st'. subst st'. unfold assign_slug.
  pose proof (generate_slug_base_taken (title raw_art) (existing_slugs st))
    as Hbase.
  destruct (generate_slug sha256_hexdigest (title raw_art) (existing_slugs st))
    as [[e | s]|] eqn:Hgen;
    cbn [feeds_ok feeds_fail total_raw existing_slugs all_articles
         slug_collision_count];
    try by (repeat split; auto).
  apply generate_slug_fresh in Hgen as [Hfresh Hk].
  split; [done|]. split; [done|]. split; [done|]. split.
  { apply elem_of_union. destruct Hbase as [-> | Hin]; [left | by right].
    by apply elem_of_singleton. }
  right. exists s. repeat (split; [done|]).
  destruct (decide (suffixed s)) as [Hs | Hs]; unfold suffixed in Hs.
  - by rewrite Hs.
  - by apply not_true_is_false in Hs as ->.
Qed.

Lemma size_filter_suffixed_insert s (X : gset string) :
  s ∉ X ->
  size (base.filter suffixed ({[s]} ∪ X))
  = if decide (suffixed s) then S (size (base.filter suffixed X))
    else size (base.filter suffixed X).
Proof.
  intros Hs. rewrite filter_union_L, size_union.
  - destruct (decide (suffixed s)) as [Hyes | Hno].
    + rewrite (filter_singleton_True_L _ _ Hyes). by rewrite size_singleton.
    + rewrite (filter_singleton_False_L _ _ Hno). by rewrite size_empty.
  - intros x [_ ->%elem_of_singleton]%elem_of_filter [_ ?]%elem_of_filter.
    done.
  - apply _.
Qed.

Lemma assign_slug_ok st entry :
  slugs_ok sha256_hexdigest st ->
  slugs_ok sha256_hexdigest (assign_slug sha256_hexdigest st entry).
Proof.
  destruct entry as [[raw_art passed] reason].
  intros (Hnodup & Hknown & Hformed & Hcount).
  destruct (assign_slug_cases st raw_art passed reason)
    as (_ & _ & _ & _ & [-> | (s & Hfresh & Hk & Hex & Hall & Hcnt)]);
    [done|].
  unfold slugs_ok. rewrite Hex, Hall, Hcnt.
  split; [|split; [|split]].
  - destruct passed; [|done]. rewrite fmap_app. apply NoDup_app.
    split; [done|]. split; [|apply NoDup_singleton].
    intros x (a & -> & Ha)%list_elem_of_fmap Heq%list_elem_of_singleton.
    apply Hfresh. cbn in Heq. rewrite <- Heq. by apply Hknown.
  - intros a Ha. apply elem_of_union.
    destruct passed; [|right; by apply Hknown].
    apply elem_of_app in Ha as [Ha | ->%list_elem_of_singleton];
      [right; by apply Hknown | left; by apply elem_of_singleton].
  - destruct passed; [|done]. apply Forall_app. split; [done|].
    by repeat constructor.
  - by rewrite size_filter_suffixed_insert, Hcount.
Qed.

Lemma foldl_assign_slug_ok entries : forall st,
  slugs_ok sha256_hexdigest st ->
  slugs_ok sha256_hexdigest (foldl (assign_slug sha256_hexdigest) st entries).
Proof.
  induction entries as [|e entries IH]; intros st Hst; [done|].
  cbn. by apply IH, assign_slug_ok.
Qed.

(** The counters of the feeds stay, and the articles grow by at most one
    a turn. *)
Lemma foldl_assign_slug_counters entries : forall st,
  let st' := foldl (assign_slug sha256_hexdigest) st entries in
  feeds_ok st' = feeds_ok st /\ feeds_fail st' = feeds_fail st /\
  total_raw st' = total_raw st /\
  existing_slugs st ⊆ existing_slugs st' /\
  (length (all_articles st') <= length (all_articles st) + length entries)%nat.
Proof.
  induction entries as [|[[raw_art passed] reason] entries IH]; intros st;
    [cbn; repeat split; [done | lia]|].
  cbn [foldl]. cbv zeta.
  destruct (IH (assign_slug sha256_hexdigest st (raw_art, passed, reason)))
    as (Hok & Hfail & Hraw & Hsub & Hlen).
  destruct (assign_slug_cases st raw_art passed reason)
    as (Hok1 & Hfail1 & Hraw1 & _ & Hcase).
  rewrite Hok, Hfail, Hraw, Hok1, Hfail1, Hraw1.
  split; [done|]. split; [done|]. split; [done|].
  destruct Hcase as [Hsame | (s & _ & _ & Hex & Hall & _)].
  - rewrite Hsame in Hsub, Hlen |- *. split; [done|]. cbn. lia.
  - split; [|cbn [length]; rewrite Hall in Hlen].
    { etrans; [|exact Hsub]. rewrite Hex. apply union_subseteq_r. }
    destruct passed; [rewrite length_app in Hlen; cbn [length] in Hlen|]; lia.
Qed.

Lemma foldl_assign_slug_size entries : forall st,
  (size (existing_slugs (foldl (assign_slug sha256_hexdigest) st entries))
   <= size (existing_slugs st) + length entries)%nat.
Proof.
  induction entries as [|[[raw_art passed] reason] entries IH]; intros st;
    [cbn; lia|].
  cbn [foldl length]. etrans; [apply IH|].
  destruct (assign_slug_cases st raw_art passed reason)
    as (_ & _ & _ & _ & [-> | (s & Hfresh & _ & -> & _)]); [lia|].
  rewrite size_union by (by apply disjoint_singleton_l).
  rewrite size_singleton. lia.
Qed.

(** Every article walked, kept or not, leaves its base slug used. *)
Lemma foldl_assign_slug_base entries : forall st raw_art passed reason,
  (raw_art, passed, reason) ∈ entries ->
  base_slug sha256_hexdigest (title raw_art)
  ∈ existing_slugs (foldl (assign_slug sha256_hexdigest) st entries).
Proof.
  induction entries as [|e entries IH]; intros st raw_art passed reason Hin;
    [by apply elem_of_nil in Hin|].
  cbn [foldl]. apply elem_of_cons in Hin as [<- | Hin]; [|by eapply IH].
  destruct (foldl_assign_slug_counters entries
              (assign_slug sha256_hexdigest st (raw_art, passed, reason)))
    as (_ & _ & _ & Hsub & _).
  apply Hsub.
  by destruct (assign_slug_cases st raw_art passed reason) as (_ & _ & _ & ? & _).
Qed.

Lemma apply_filters_articles raw_articles filter_config filtered :
  apply_filters re_compiles re_search raw_articles filter_config
  = Some filtered ->
  filtered.*1.*1 = raw_articles.
Proof.
  unfold apply_filters. destruct filter_config as [filter_config|].
  - intros Hall%mapM_Some. induction Hall as [|a e l k Ha Hall IH]; [done|].
    cbn. rewrite IH. f_equal.
    destruct (texts_to_check a _) as [texts|]; [|done].
    cbn [mbind option_bind] in Ha.
    destruct (verdict _ _ _ _) as [v|]; [|done]. cbn in Ha. by simplify_eq.
  - intros [= <-]. rewrite <- !list_fmap_compose. apply list_fmap_id.
Qed.

(** One feed: the invariant stays, one of the two feed counters goes up
    by one, and the articles grow by no more than the raw count. *)
Lemma ingest_feed_ok st feed_result st' :
  ingest_feed sha256_hexdigest re_compiles re_search st feed_result
  = Some st' ->
  slugs_ok sha256_hexdigest st ->
  slugs_ok sha256_hexdigest st' /\
  (feeds_ok st' + feeds_fail st' = S (feeds_ok st + feeds_fail st))%nat /\
  (length (all_articles st') + total_raw st
   <= length (all_articles st) + total_raw st')%nat /\
  (size (existing_slugs st') + total_raw st
   <= size (existing_slugs st) + total_raw st')%nat.
Proof.
  unfold ingest_feed. intros Hfeed Hst.
  destruct feed_result.2 as [raw_articles|].
  - set (filtered_opt := match feed_type feed_result.1 with
                         | specialized => _ | generalist => _ end) in Hfeed.
    destruct filtered_opt as [filtered|] eqn:Hfiltered; [|done].
    cbn in Hfeed. injection Hfeed as <-.
    assert (Hlen : length filtered = length raw_articles).
    { subst filtered_opt. destruct (feed_type feed_result.1).
      - injection Hfiltered as <-. by rewrite length_fmap.
      - apply apply_filters_articles in Hfiltered.
        by rewrite <- Hfiltered, !length_fmap. }
    set (st0 := {| all_articles := all_articles st;
                   feeds_ok := S (feeds_ok st) |}).
    destruct (foldl_assign_slug_counters filtered st0)
      as (-> & -> & -> & _ & Hgrow).
    pose proof (foldl_assign_slug_size filtered st0) as Hsize.
    split; [by apply foldl_assign_slug_ok|]. cbn in *. lia.
  - injection Hfeed as <-. cbn. split; [done | lia].
Qed.

Lemma ingest_feeds_ok feed_results : forall st st',
  ingest_feeds sha256_hexdigest re_compiles re_search st feed_results
  = Some st' ->
  slugs_ok sha256_hexdigest st ->
  slugs_ok sha256_hexdigest st' /\
  (feeds_ok st' + feeds_fail st'
   = feeds_ok st + feeds_fail st + length feed_results)%nat /\
  (length (all_articles st') + total_raw st
   <= length (all_articles st) + total_raw st')%nat /\
  (size (existing_slugs st') + total_raw st
   <= size (existing_slugs st) + total_raw st')%nat.
Proof.
  induction feed_results as [|fr rest IH]; intros st st' Hrun Hst;
    cbn in Hrun.
  - injection Hrun as <-. split; [done|]. cbn. lia.
  - destruct (ingest_feed _ _ _ st fr) as [st1|] eqn:Hfeed; [|done].
    cbn in Hrun.
    destruct (ingest_feed_ok _ _ _ Hfeed Hst) as (Hst1 & Hn1 & Ha1 & Hs1).
    destruct (IH _ _ Hrun Hst1) as (Hst' & Hn & Ha & Hs).
    split; [done|]. cbn [length]. lia.
Qed.

Lemma slugs_ok_initial :
  slugs_ok sha256_hexdigest
    {| all_articles := []; feeds_ok := 0; feeds_fail := 0; total_raw := 0;
       existing_slugs := ∅; slug_collision_count := 0 |}.
Proof.
  unfold slugs_ok. cbn. split; [constructor|].
  split; [by intros a ?%elem_of_nil|]. split; [constructor|].
  symmetry. apply size_empty_iff, filter_empty.
Qed.

(** A run that returns is a skipped one or has gone through the feeds. *)
Lemma run_step1_cases config feeds_config t fs result :
  (run_step1 sha256_hexdigest re_compiles re_search fetch config feeds_config
    t fs).1
  = Fs.Return result ->
  let enabled_feeds :=
    base.filter (fun f => feed_enabled f = true) (feeds feeds_config) in
  ((enabled config = false \/ enabled_feeds = []) /\
   run_step1 sha256_hexdigest re_compiles re_search fetch config feeds_config
     t fs
   = (Fs.Return skipped_result, fs)) \/
  (enabled config = true /\ enabled_feeds <> [] /\
   exists st,
     ingest_feeds sha256_hexdigest re_compiles re_search
       {| all_articles := []; feeds_ok := 0; feeds_fail := 0; total_raw := 0;
          existing_slugs := ∅; slug_collision_count := 0 |}
       (imap (fun i feed => (feed, fetch i feed))
          (sorted_reverse priority enabled_feeds)) = Some st /\
     run_step1 sha256_hexdigest re_compiles re_search fetch config
       feeds_config t fs
     = (Fs.Return
          {| success := true;
             articles := sorted_reverse date_key (all_articles st);
             feeds_fetched := feeds_ok st; feeds_failed := feeds_fail st;
             total_articles_raw := total_raw st;
             articles_after_filter :=
               length (sorted_reverse date_key (all_articles st));
             slug_collisions := slug_collision_count st; errors := [] |},
        {| files := <["articles.json" := Entry t]> (files fs);
           lock_file := lock_file fs; backups := backups fs |})).
Proof.
  intros Hrun enabled_feeds. unfold run_step1 in Hrun |- *.
  fold enabled_feeds in Hrun |- *.
  destruct (enabled config); cbn [negb] in *; [|by left; split; auto].
  destruct enabled_feeds as [|f rest] eqn:Hfeeds; [by left; split; auto|].
  right. split; [done|]. split; [done|].
  destruct (ingest_feeds _ _ _ _ _) as [st|]; [|done].
  by exists st.
Qed.
End Slugs.

(** X17.  The articles of a run that returns have pairwise distinct
    slugs; each has as slug the base slug of its title or one of the
    variants [_1] to [_9], and an empty content hash; and they come
    newest first, articles without a date last. *)
Theorem run_step1_slugs_distinct (sha256_hexdigest : string -> string)
    (re_compiles : string -> bool) (re_search : string -> string -> bool)
    (fetch : nat -> FeedConfig -> option (list RawArticle))
    (config : Step1Config) (feeds_config : FeedsConfig) (t : Z)
    (fs : cache_fs) (result : Step1Result) :
  (run_step1 sha256_hexdigest re_compiles re_search fetch config feeds_config
    t fs).1
  = Fs.Return result ->
  NoDup (Step2Dedup.slug <$> articles result) /\
  Forall (slug_of_title sha256_hexdigest) (articles result) /\
  Sorted (fun a b => date_key b <= date_key a) (articles result).
Proof.
  intros Hrun.
  destruct (run_step1_cases _ _ _ _ _ _ _ _ _ Hrun)
    as [[_ Heq] | (_ & _ & st & Hfeeds & Heq)];
    rewrite Heq in Hrun; injection Hrun as <-; cbn [articles].
  { split; [constructor|]. split; constructor. }
  destruct (ingest_feeds_ok _ _ _ _ _ _ Hfeeds (slugs_ok_initial _))
    as ((Hnodup & _ & Hformed & _) & _).
  pose proof (sorted_reverse_Permutation date_key (all_articles st)) as Hperm.
  split; [by rewrite Hperm|]. split; [by rewrite Hperm|].
  apply sorted_reverse_Sorted.
Qed.

(** X17, on sample data: a feed gives two articles with one title; the
    run returns them with two slugs. *)
Lemma run_step1_slugs_distinct_witness :
  exists result,
    (run_step1 Step1Samples.sha256_hexdigest Step1Samples.re_compiles
       Step1Samples.re_search Step1Samples.fetch Step1Samples.config
       {| feeds := [Step1Samples.example_feed] |} 0
       Step1Samples.empty_cache).1 = Fs.Return result /\
    length (articles result) = 2%nat /\
    NoDup (Step2Dedup.slug <$> articles result).
Proof.
  assert (Hrun : exists result,
    (run_step1 Step1Samples.sha256_hexdigest Step1Samples.re_compiles
       Step1Samples.re_search Step1Samples.fetch Step1Samples.config
       {| feeds := [Step1Samples.example_feed] |} 0
       Step1Samples.empty_cache).1 = Fs.Return result /\
    length (articles result) = 2%nat)
    by (eexists; split; vm_compute; reflexivity).
  destruct Hrun as (result & Hrun & Hlen). exists result.
  split; [exact Hrun|]. split; [exact Hlen|].
  exact (proj1 (run_step1_slugs_distinct _ _ _ _ _ _ _ _ _ Hrun)).
Defined.

(** X18.  A run that returns reports success and no error.  Its
    [articles_after_filter] is the number of its articles, which is at
    most [total_articles_raw]; the fetched and the failed feeds add up to
    the enabled feeds; and the entry [articles.json] is written at the
    time of the run.  A run that is switched off, or finds no enabled
    feed, returns the empty result and writes nothing. *)
Theorem run_step1_counters (sha256_hexdigest : string -> string)
    (re_compiles : string -> bool) (re_search : string -> string -> bool)
    (fetch : nat -> FeedConfig -> option (list RawArticle))
    (config : Step1Config) (feeds_config : FeedsConfig) (t : Z)
    (fs : cache_fs) (result : Step1Result) :
  let run :=
    run_step1 sha256_hexdigest re_compiles re_search fetch config feeds_config
      t fs in
  let enabled_feeds :=
    base.filter (fun f => feed_enabled f = true) (feeds feeds_config) in
  run.1 = Fs.Return result ->
  success result = true /\ errors result = [] /\
  articles_after_filter result = length (articles result) /\
  (articles_after_filter result <= total_articles_raw result)%nat /\
  (slug_collisions result <= total_articles_raw result)%nat /\
  (enabled config = false \/ enabled_feeds = [] ->
     result = skipped_result /\ run.2 = fs) /\
  (enabled config = true -> enabled_feeds <> [] ->
     (feeds_fetched result + feeds_failed result
      = length enabled_feeds)%nat /\
     files run.2 = <["articles.json" := Entry t]> (files fs) /\
     lock_file run.2 = lock_file fs /\ backups run.2 = backups fs).
Proof.
  intros run enabled_feeds Hrun. subst run.
  destruct (run_step1_cases _ _ _ _ _ _ _ _ _ Hrun)
    as [[Hskip Heq] | (Hen & Hfeeds_ne & st & Hfeeds & Heq)];
    rewrite Heq in Hrun |- *; injection Hrun as <-; cbn [fst snd].
  { split; [done|]. split; [done|]. split; [done|].
    split; [cbn; lia|]. split; [cbn; lia|]. split; [done|].
    intros Hen Hne. destruct Hskip as [Hskip | Hskip]; [congruence | done]. }
  cbn [success errors articles articles_after_filter total_articles_raw
       slug_collisions feeds_fetched feeds_failed files lock_file backups].
  destruct (ingest_feeds_ok _ _ _ _ _ _ Hfeeds (slugs_ok_initial _))
    as ((_ & _ & _ & Hcount) & Hn & Ha & Hs).
  cbn in Hn, Ha, Hs. rewrite size_empty in Hs.
  pose proof (sorted_reverse_Permutation date_key (all_articles st)) as Hperm.
  split; [done|]. split; [done|]. split; [done|].
  split; [rewrite Hperm; lia|]. split.
  { rewrite Hcount.
    assert (Hsub : base.filter suffixed (existing_slugs st)
                   ⊆ existing_slugs st)
      by (by intros x [_ ?]%elem_of_filter).
    apply subseteq_size in Hsub. lia. }
  split; [by intros [? | ?]; [congruence|]|].
  intros _ _. split; [|done]. rewrite Hn, length_imap.
  by rewrite (sorted_reverse_Permutation priority _).
Qed.

Lemma run_step1_counters_witness :
  exists result,
    (run_step1 Step1Samples.sha256_hexdigest Step1Samples.re_compiles
       Step1Samples.re_search Step1Samples.fetch Step1Samples.config
       {| feeds := [Step1Samples.example_feed] |} 0
       Step1Samples.empty_cache).1 = Fs.Return result /\
    total_articles_raw result = 2%nat /\
    articles_after_filter result = length (articles result).
Proof.
  assert (Hrun : exists result,
    (run_step1 Step1Samples.sha256_hexdigest Step1Samples.re_compiles
       Step1Samples.re_search Step1Samples.fetch Step1Samples.config
       {| feeds := [Step1Samples.example_feed] |} 0
       Step1Samples.empty_cache).1 = Fs.Return result /\
    total_articles_raw result = 2%nat)
    by (eexists; split; vm_compute; reflexivity).
  destruct Hrun as (result & Hrun & Hraw). exists result.
  split; [exact Hrun|]. split; [exact Hraw|].
  by destruct (run_step1_counters _ _ _ _ _ _ _ _ _ Hrun) as (_ & _ & ? & _).
Defined.

(** X19.  Every article walked by the loop, kept or rejected by the
    filter, leaves the base slug of its title used: from then on
    [generate_slug] never answers that base slug for the title again, so a
    later article with the same title gets a variant even when the earlier
    one was filtered out. *)
Theorem rejected_articles_take_their_slug
    (sha256_hexdigest : string -> string) (st : ingest_state)
    (entries : list (RawArticle * bool * option string))
    (raw_art : RawArticle) (passed : bool) (reason : option string) :
  (raw_art, passed, reason) ∈ entries ->
  let st' := foldl (assign_slug sha256_hexdigest) st entries in
  let base := base_slug sha256_hexdigest (title raw_art) in
  base ∈ existing_slugs st' /\
  generate_slug sha256_hexdigest (title raw_art) (existing_slugs st')
  <> Some (inr base).
Proof.
  intros Hin st' base.
  assert (Hbase : base ∈ existing_slugs st')
    by (by eapply foldl_assign_slug_base).
  split; [done|]. intros [Hfresh _]%generate_slug_fresh. done.
Qed.

Lemma rejected_articles_take_their_slug_witness :
  let st := {| all_articles := []; feeds_ok := 1; feeds_fail := 0;
               total_raw := 2; existing_slugs := ∅;
               slug_collision_count := 0 |} in
  let st' :=
    foldl (assign_slug Step1Samples.sha256_hexdigest) st
      [(Step1Samples.first_report, false, Some "Blacklist keyword matched")] in
  all_articles st' = [] /\
  generate_slug Step1Samples.sha256_hexdigest "GPT-5 Released by OpenAI"
    (existing_slugs st')
  <> Some (inr "gpt-5-released-by-openai-5f2c8a91").
Proof.
  intros st st'. split; [reflexivity|].
  apply (rejected_articles_take_their_slug Step1Samples.sha256_hexdigest st
           [(Step1Samples.first_report, false,
             Some "Blacklist keyword matched")]
           Step1Samples.first_report false
           (Some "Blacklist keyword matched")).
  apply list_elem_of_here.
Defined.

(** *** The collision counter *)

Lemma chars_app a b : chars (a ++ b)%string = chars a ++ chars b.
Proof.
  unfold chars. induction a as [|c a IH]; [done|].
  change (String c a ++ b)%string with (String c (a ++ b)%string).
  cbn. by rewrite IH.
Qed.

Lemma suffixed_variant base k :
  (1 <= k <= 9)%nat -> suffixed (variant base k).
Proof.
  intros Hk. unfold suffixed. apply existsb_exists.
  exists ("_" ++ pretty k)%string. split.
  - unfold collision_suffixes. apply list_elem_of_In.
    apply (list_elem_of_fmap_2 (fun i : nat => ("_" ++ pretty i)%string)).
    apply elem_of_seq. lia.
  - unfold endswith, variant. apply bool_decide_eq_true.
    exists (chars base). by rewrite !chars_app.
Qed.

Lemma NoDup_length_le_size (l : list string) (X : gset string) :
  NoDup l -> (forall x, x ∈ l -> x ∈ X) -> (length l <= size X)%nat.
Proof.
  intros Hnodup Hsub. rewrite <- (size_list_to_set (C := gset string) l) by done.
  apply subseteq_size. intros x Hx%elem_of_list_to_set. by apply Hsub.
Qed.

(** X20.  [slug_collisions] counts at least every article of the result
    whose slug is not the base slug of its title. *)
Theorem slug_collisions_counts_suffixed (sha256_hexdigest : string -> string)
    (re_compiles : string -> bool) (re_search : string -> string -> bool)
    (fetch : nat -> FeedConfig -> option (list RawArticle))
    (config : Step1Config) (feeds_config : FeedsConfig) (t : Z)
    (fs : cache_fs) (result : Step1Result) :
  (run_step1 sha256_hexdigest re_compiles re_search fetch config feeds_config
    t fs).1
  = Fs.Return result ->
  (length (base.filter
             (fun a => Step2Dedup.slug a
                       <> base_slug sha256_hexdigest (Step2Dedup.title a))
             (articles result))
   <= slug_collisions result)%nat.
Proof.
  intros Hrun.
  destruct (run_step1_cases _ _ _ _ _ _ _ _ _ Hrun)
    as [[_ Heq] | (_ & _ & st & Hfeeds & Heq)];
    rewrite Heq in Hrun; injection Hrun as <-;
    cbn [articles slug_collisions]; [done|].
  destruct (ingest_feeds_ok _ _ _ _ _ _ Hfeeds (slugs_ok_initial _))
    as ((Hnodup & Hknown & Hformed & Hcount) & _).
  pose proof (sorted_reverse_Permutation date_key (all_articles st)) as Hperm.
  rewrite Hperm, Hcount.
  set (variants := base.filter _ (all_articles st)).
  rewrite <- (length_fmap Step2Dedup.slug variants).
  assert (Hsub : variants `sublist_of` all_articles st)
    by apply sublist_filter.
  apply NoDup_length_le_size.
  - eapply sublist_NoDup; [exact Hnodup|]. by apply fmap_sublist.
  - intros x (a & -> & [Hvar Ha]%list_elem_of_filter)%list_elem_of_fmap.
    apply elem_of_filter. split; [|by apply Hknown].
    rewrite Forall_forall in Hformed.
    destruct (Hformed a Ha) as (_ & k & Hk & Hslug).
    rewrite Hslug in Hvar |- *. destruct k as [|k]; [done|].
    apply suffixed_variant. lia.
Qed.

Lemma slug_collisions_counts_suffixed_witness :
  exists result,
    (run_step1 Step1Samples.sha256_hexdigest Step1Samples.re_compiles
       Step1Samples.re_search Step1Samples.fetch Step1Samples.config
       {| feeds := [Step1Samples.example_feed] |} 0
       Step1Samples.empty_cache).1 = Fs.Return result /\
    (1 <= slug_collisions result)%nat.
Proof.
  assert (Hrun : exists result,
    (run_step1 Step1Samples.sha256_hexdigest Step1Samples.re_compiles
       Step1Samples.re_search Step1Samples.fetch Step1Samples.config
       {| feeds := [Step1Samples.example_feed] |} 0
       Step1Samples.empty_cache).1 = Fs.Return result /\
    length (base.filter
              (fun a => Step2Dedup.slug a
                        <> base_slug Step1Samples.sha256_hexdigest
                             (Step2Dedup.title a))
              (articles result)) = 1%nat)
    by (eexists; split; vm_compute; reflexivity).
  destruct Hrun as (result & Hrun & Hone). exists result.
  split; [exact Hrun|]. rewrite <- Hone.
  exact (slug_collisions_counts_suffixed _ _ _ _ _ _ _ _ _ Hrun).
Defined.

(** *** The filters *)

Lemma verdict_passed re_compiles re_search filter_config text v :
  verdict re_compiles re_search filter_config text = Some v ->
  (v.1 = true <-> v.2 = None) /\
  (v.1 = true <->
     (whitelist_keywords filter_config = [] \/
      any_keyword_in (whitelist_keywords filter_config) text = true) /\
     (nonempty (whitelist_regex filter_config) = true ->
      re_search (default "" (whitelist_regex filter_config)) text = true) /\
     any_keyword_in (blacklist_keywords filter_config) text = false /\
     (nonempty (blacklist_regex filter_config) = true ->
      re_search (default "" (blacklist_regex filter_config)) text = false)).
Proof.
  unfold verdict, search.
  assert (Hnil : any_keyword_in [] text = false) by done.
  destruct (whitelist_keywords filter_config) as [|w ws] eqn:Hw;
    [|destruct (any_keyword_in (w :: ws) text) eqn:Hwl]; cbn [andb negb];
    try (intros [= <-]; split; [done|]; split; [done|];
         by intros ([[=] | [=]] & _));
  (destruct (nonempty (whitelist_regex filter_config)) eqn:Hwn;
   [destruct (re_compiles (default "" (whitelist_regex filter_config)));
    [|done];
    destruct (re_search (default "" (whitelist_regex filter_config)) text)
      eqn:Hwr|]; cbn [mbind option_bind andb negb];
   try (intros [= <-]; split; [done|]; split; [done|]; intros (_ & Hre & _);
        by specialize (Hre eq_refl)));
  (destruct (blacklist_keywords filter_config) as [|b bs] eqn:Hb;
   [|destruct (any_keyword_in (b :: bs) text) eqn:Hbl]; cbn [andb negb];
   try (intros [= <-]; split; [done|]; split; [done|];
        by intros (_ & _ & [=] & _)));
  (destruct (nonempty (blacklist_regex filter_config)) eqn:Hbn;
   [destruct (re_compiles (default "" (blacklist_regex filter_config)));
    [|done];
    destruct (re_search (default "" (blacklist_regex filter_config)) text)
      eqn:Hbr|]; cbn [mbind option_bind andb negb fst snd];
   try (intros [= <-]; split; [done|]; split; [done|]; intros (_ & _ & _ & Hre);
        by specialize (Hre eq_refl)));
  (intros [= <-]; split; [done|]; split; [|done]; intros _;
   repeat split; auto; done).
Qed.

(** The verdict is there when the patterns that are set compile, and
    only a pattern that is set and does not compile takes it away. *)
Lemma verdict_is_Some re_compiles re_search filter_config text :
  (nonempty (whitelist_regex filter_config) = true ->
   re_compiles (default "" (whitelist_regex filter_config)) = true) ->
  (nonempty (blacklist_regex filter_config) = true ->
   re_compiles (default "" (blacklist_regex filter_config)) = true) ->
  is_Some (verdict re_compiles re_search filter_config text).
Proof.
  intros Hwl Hbl. unfold verdict, search.
  destruct (nonempty (whitelist_regex filter_config));
    [rewrite Hwl by done|];
    (destruct (nonempty (blacklist_regex filter_config));
     [rewrite Hbl by done|]);
    cbn [mbind option_bind];
    repeat (case_match; cbn [mbind option_bind negb]); done.
Qed.

Lemma verdict_None re_compiles re_search filter_config text :
  verdict re_compiles re_search filter_config text = None ->
  (nonempty (whitelist_regex filter_config) = true /\
   re_compiles (default "" (whitelist_regex filter_config)) = false) \/
  (nonempty (blacklist_regex filter_config) = true /\
   re_compiles (default "" (blacklist_regex filter_config)) = false).
Proof.
  intros Hnone.
  destruct (nonempty (whitelist_regex filter_config)) eqn:Hwn,
    (re_compiles (default "" (whitelist_regex filter_config))) eqn:Hwc,
    (nonempty (blacklist_regex filter_config)) eqn:Hbn,
    (re_compiles (default "" (blacklist_regex filter_config))) eqn:Hbc;
    auto; exfalso;
    (destruct (verdict_is_Some re_compiles re_search filter_config text)
       as [v Hv]; [by rewrite ?Hwn, ?Hwc | by rewrite ?Hbn, ?Hbc | congruence]).
Qed.

(** X21.  When [apply_filters] returns, it gives one verdict for each
    article, in the order of the articles, and a reason exactly for the
    rejected ones.  Without a filter configuration every article passes.
    With one, an article passes exactly when the four checks all let it
    through: a whitelist keyword occurs in its text when keywords are
    listed, the whitelist pattern matches when one is set, no blacklist
    keyword occurs, and the blacklist pattern, when set, does not
    match. *)
Theorem apply_filters_verdicts (re_compiles : string -> bool)
    (re_search : string -> string -> bool) (articles : list RawArticle)
    (filter_config : option FeedFilter)
    (results : list (RawArticle * bool * option string)) :
  apply_filters re_compiles re_search articles filter_config = Some results ->
  results.*1.*1 = articles /\
  Forall (fun r => r.1.2 = true <-> r.2 = None) results /\
  (filter_config = None -> Forall (fun r => r.1.2 = true) results) /\
  (forall f, filter_config = Some f ->
     Forall (fun r =>
       exists texts,
         texts_to_check r.1.1 (apply_to_fields f) = Some texts /\
         (r.1.2 = true <->
            (whitelist_keywords f = [] \/
             any_keyword_in (whitelist_keywords f) (join_space texts)
             = true) /\
            (nonempty (whitelist_regex f) = true ->
             re_search (default "" (whitelist_regex f)) (join_space texts)
             = true) /\
            any_keyword_in (blacklist_keywords f) (join_space texts)
            = false /\
            (nonempty (blacklist_regex f) = true ->
             re_search (default "" (blacklist_regex f)) (join_space texts)
             = false))) results).
Proof.
  intros Hrun. split; [by eapply apply_filters_articles|].
  unfold apply_filters in Hrun. destruct filter_config as [f|].
  - apply mapM_Some in Hrun.
    assert (Heach : Forall (fun r =>
      exists texts,
        texts_to_check r.1.1 (apply_to_fields f) = Some texts /\
        verdict re_compiles re_search f (join_space texts)
        = Some (r.1.2, r.2)) results).
    { induction Hrun as [|a r l k Ha Hall IH]; constructor; [|done].
      destruct (texts_to_check a (apply_to_fields f)) as [texts|] eqn:Ht;
        [|done].
      cbn [mbind option_bind] in Ha.
      destruct (verdict re_compiles re_search f (join_space texts))
        as [[passed reason]|] eqn:Hv; [|done].
      cbn in Ha. injection Ha as <-. exists texts. cbn. by rewrite Ht. }
    split; [|split; [done|]].
    + eapply Forall_impl; [exact Heach|]. intros r (texts & _ & Hv).
      by destruct (verdict_passed _ _ _ _ _ Hv) as [Hp _].
    + intros f' [= <-]. eapply Forall_impl; [exact Heach|].
      intros r (texts & Ht & Hv). exists texts. split; [done|].
      by destruct (verdict_passed _ _ _ _ _ Hv) as [_ Hp].
  - injection Hrun as <-.
    split; [|split; [|done]]; [|intros _];
      apply Forall_fmap, Forall_forall; by intros a _.
Qed.

Lemma apply_filters_verdicts_witness :
  exists results,
    apply_filters Step1Samples.re_compiles Step1Samples.re_search
      [Step1Samples.first_report; Step1Samples.second_report]
      (Some Step1Samples.no_gpt) = Some results /\
    results.*1.*1 = [Step1Samples.first_report; Step1Samples.second_report].
Proof.
  assert (Hrun : exists results,
    apply_filters Step1Samples.re_compiles Step1Samples.re_search
      [Step1Samples.first_report; Step1Samples.second_report]
      (Some Step1Samples.no_gpt) = Some results)
    by (eexists; vm_compute; reflexivity).
  destruct Hrun as [results Hrun]. exists results. split; [exact Hrun|].
  exact (proj1 (apply_filters_verdicts _ _ _ _ _ Hrun)).
Defined.

Lemma texts_to_check_default article :
  texts_to_check article ["title"; "description"]
  = Some match title article with
         | "" => []
         | String _ _ => [lower_str (title article)]
         end.
Proof.
  cbn [texts_to_check].
  change (getattr article "title") with (StrAttr (title article)).
  change (getattr article "description") with NoneAttr.
  by destruct (title article).
Qed.

(** X22.  With the default [apply_to_fields], [title] and [description],
    the filters read the title only: [description] names no attribute of
    an article, and the content is not consulted.  So no [AttributeError]
    arises: the call returns whenever the patterns that are set compile,
    and when it does not return, a pattern that is set does not compile
    ([re.error]).  When the call returns, two articles with the same
    title get the same verdict and reason, whatever else they hold. *)
Theorem default_fields_check_title_only (re_compiles : string -> bool)
    (re_search : string -> string -> bool)
    (filter_config : FeedFilter) (a1 a2 : RawArticle) :
  apply_to_fields filter_config = ["title"; "description"] ->
  title a1 = title a2 ->
  let run :=
    apply_filters re_compiles re_search [a1; a2] (Some filter_config) in
  (forall results,
     run = Some results ->
     exists passed reason,
       results = [(a1, passed, reason); (a2, passed, reason)]) /\
  ((nonempty (whitelist_regex filter_config) = true ->
    re_compiles (default "" (whitelist_regex filter_config)) = true) ->
   (nonempty (blacklist_regex filter_config) = true ->
    re_compiles (default "" (blacklist_regex filter_config)) = true) ->
   is_Some run) /\
  (run = None ->
   (nonempty (whitelist_regex filter_config) = true /\
    re_compiles (default "" (whitelist_regex filter_config)) = false) \/
   (nonempty (blacklist_regex filter_config) = true /\
    re_compiles (default "" (blacklist_regex filter_config)) = false)).
Proof.
  intros Hfields Htitle run. subst run. unfold apply_filters. cbn [mapM].
  rewrite Hfields, !texts_to_check_default, Htitle. cbn [mbind option_bind].
  set (text := join_space _).
  destruct (verdict re_compiles re_search filter_config text)
    as [[passed reason]|] eqn:Hv; cbn [fst snd].
  - split; [|split; [by eauto | done]].
    intros results [= <-]. by exists passed, reason.
  - split; [done|]. split.
    + intros Hwl Hbl.
      destruct (verdict_is_Some re_compiles re_search filter_config text
                  Hwl Hbl) as [v Hv']. congruence.
    + intros _. by apply verdict_None with re_search text.
Qed.

Lemma default_fields_check_title_only_witness :
  apply_filters Step1Samples.re_compiles Step1Samples.re_search
    [Step1Samples.first_report; Step1Samples.second_report]
    (Some Step1Samples.no_gpt)
  = Some [(Step1Samples.first_report, false,
           Some "Blacklist keyword matched");
          (Step1Samples.second_report, false,
           Some "Blacklist keyword matched")].
Proof.
  destruct (default_fields_check_title_only Step1Samples.re_compiles
              Step1Samples.re_search Step1Samples.no_gpt
              Step1Samples.first_report Step1Samples.second_report
              eq_refl eq_refl) as (Hsame & Hreturns & _).
  destruct (Hreturns (fun _ => eq_refl) (fun _ => eq_refl)) as [results Hrun].
  destruct (Hsame results Hrun) as (passed & reason & ->).
  rewrite Hrun. revert Hrun. vm_compute. by intros [= <- <-].
Defined.

(** *** What a fetch keeps *)

Lemma slice_to_take {A} (n : Z) (l : list A) :
  exists m, slice_to n l = take m l /\ (0 <= n -> m = Z.to_nat n).
Proof.
  unfold slice_to. destruct (Z.leb_spec 0 n); eexists; (split; [done|]);
    [done | lia].
Qed.

Lemma elem_of_take_source {A} (l : list A) m x : x ∈ take m l -> x ∈ l.
Proof.
  intros Hx. rewrite <- (take_drop m l). apply elem_of_app. by left.
Qed.

(** X26.  Of the articles built from a feed, [fetch_single_feed] keeps
    only articles of the list that carry a date no older than two days,
    newest first, and at most [max_articles] of them when that number is
    not negative.  An article of the last two days that is left out is no
    newer than any article kept; and when the articles of the last two
    days are no more than [max_articles], all of them are kept. *)
Theorem fetch_single_feed_keeps_newest (t max_articles : Z)
    (articles : list RawArticle) :
  let cutoff_date := t - timedelta_days 2 in
  let kept := fetch_single_feed t max_articles articles in
  (forall art, art ∈ kept -> art ∈ articles /\ is_recent cutoff_date art) /\
  Sorted (fun a b => published_key b <= published_key a) kept /\
  (0 <= max_articles -> (length kept <= Z.to_nat max_articles)%nat) /\
  (forall left_out art,
     left_out ∈ articles -> is_recent cutoff_date left_out ->
     left_out ∉ kept -> art ∈ kept ->
     published_key left_out <= published_key art) /\
  (Z.of_nat (length (base.filter (is_recent cutoff_date) articles))
   <= max_articles ->
   kept ≡ₚ base.filter (is_recent cutoff_date) articles).
Proof.
  intros cutoff_date kept. subst kept. unfold fetch_single_feed.
  fold cutoff_date.
  set (recent := base.filter (is_recent cutoff_date) articles).
  set (sorted := sorted_reverse published_key recent).
  assert (Hperm : sorted ≡ₚ recent) by apply sorted_reverse_Permutation.
  assert (Htrans : Transitive
            (fun a b : RawArticle => published_key b <= published_key a))
    by (intros a b c ? ?; lia).
  assert (Hsorted : StronglySorted
            (fun a b => published_key b <= published_key a) sorted)
    by (apply Sorted_StronglySorted; [done | apply sorted_reverse_Sorted]).
  destruct (slice_to_take max_articles sorted) as (m & -> & Hm).
  rewrite <- (take_drop m sorted) in Hsorted.
  apply StronglySorted_app in Hsorted as (Hle & Htake & _).
  split; [|split; [|split; [|split]]].
  - intros art Hart%elem_of_take_source. rewrite Hperm in Hart.
    by apply list_elem_of_filter in Hart as [? ?].
  - by apply StronglySorted_Sorted.
  - intros Hpos. rewrite (Hm Hpos), length_take. lia.
  - intros left_out art Hin Hrecent Hout Hart.
    assert (Hsrc : left_out ∈ sorted)
      by (rewrite Hperm; by apply list_elem_of_filter).
    rewrite <- (take_drop m sorted) in Hsrc.
    apply elem_of_app in Hsrc as [? | Hdrop]; [done|]. by apply Hle.
  - intros Hroom. rewrite <- Hperm.
    assert (Hpos : 0 <= max_articles) by lia.
    rewrite (Hm Hpos), take_ge; [done|].
    rewrite Hperm. fold recent in Hroom. lia.
Qed.

End Step1More.
(** ** A whole run of step 4 and the news shards *)

Module Step4RunFacts.
Import Step4MultiDedup Step4Run.
Local Open Scope list_scope.

Section Loading.
Variable strptime : string -> option Z.
Variable strftime : Z -> string.

Lemma foldl_read_news cutoff_date (files : list (string * news_file)) :
  forall acc,
    foldl (fun all_cached_news file =>
             all_cached_news
             ++ read_news_file strptime cutoff_date file.1 file.2) acc files
    = acc ++ mjoin ((fun file : string * news_file =>
                       read_news_file strptime cutoff_date file.1 file.2)
                    <$> files).
Proof.
  induction files as [|file files IH]; intros acc; cbn.
  - by rewrite app_nil_r.
  - by rewrite IH, app_assoc.
Qed.

(** A cluster is loaded when some file of the directory gives it. *)
Lemma elem_of_load_cached_news (dir : news_dir) lookback t c :
  c ∈ _load_cached_news strptime (Some dir) lookback t <->
  exists stem file,
    dir !! stem = Some file /\
    c ∈ read_news_file strptime (t - timedelta_days lookback) stem file.
Proof.
  unfold _load_cached_news. rewrite foldl_read_news, app_nil_l.
  rewrite list_elem_of_join. split.
  - intros (l & Hc & ([stem file] & -> & Hfile)%list_elem_of_fmap).
    exists stem, file. split; [|done].
    apply elem_of_map_to_list. unfold sorted_glob in Hfile.
    by rewrite merge_sort_Permutation in Hfile.
  - intros (stem & file & Hdir & Hc). eexists. split; [exact Hc|].
    apply (list_elem_of_fmap_2
             (fun f : string * news_file =>
                read_news_file strptime (t - timedelta_days lookback) f.1 f.2)
             _ (stem, file)).
    unfold sorted_glob. rewrite merge_sort_Permutation.
    by apply elem_of_map_to_list.
Qed.

Lemma load_Some file news :
  load file = Some news ->
  file = Some (NewsData news) /\ Forall (fun c => validates c = true) news.
Proof.
  unfold load. destruct file as [[l|]|]; try done.
  destruct (forallb validates l) eqn:Hvalid; [|done]. intros [= <-].
  split; [done|]. apply Forall_forall. intros c Hc.
  rewrite forallb_forall in Hvalid. by apply Hvalid, list_elem_of_In.
Qed.

Lemma load_valid news :
  Forall (fun c => validates c = true) news ->
  load (Some (NewsData news)) = Some news.
Proof.
  intros Hvalid. unfold load.
  assert (forallb validates news = true) as ->; [|done].
  apply forallb_forall. intros c Hc%list_elem_of_In.
  by apply (proj1 (Forall_forall _ _) Hvalid).
Qed.

(** Whatever is loaded from the cache has been validated. *)
Lemma load_cached_news_valid cache_dir lookback t :
  Forall (fun c => validates c = true)
    (_load_cached_news strptime cache_dir lookback t).
Proof.
  destruct cache_dir as [dir|]; [|constructor].
  apply Forall_forall. intros c (stem & file & _ & Hc)%elem_of_load_cached_news.
  unfold read_news_file in Hc.
  destruct (strptime (last_field stem)) as [day|]; [|by apply elem_of_nil in Hc].
  destruct (_ <? _); [by apply elem_of_nil in Hc|].
  destruct (load (Some file)) as [news|] eqn:Hload;
    [|by apply elem_of_nil in Hc].
  apply load_Some in Hload as [_ Hvalid].
  by apply (proj1 (Forall_forall _ _) Hvalid).
Qed.
End Loading.

(** X23.  A run of step 4 that reports failure returns no news and leaves
    the news shards as they were; it reports an error, and it happens
    only with the fallback switched off, on an enabled step with news of
    today. *)
Theorem run_step4_failure_leaves_cache {set_order : PySetOrder}
    (strptime : string -> option Z) (strftime : Z -> string)
    (utcnow : nat -> Z)
    (gemini : list NewsCluster -> list NewsCluster
              -> string + list NewsDeduplicationPair)
    (validation_error : string) (config : Step4Config)
    (today_news : list NewsCluster) (api_key : option string)
    (now_load now_save now_resave : Z) (cache_dir : option news_dir) :
  let run := run_step4 strptime strftime utcnow gemini validation_error
               config today_news api_key now_load now_save now_resave
               cache_dir in
  success run.1 = false ->
  unique_news run.1 = [] /\ news_after_dedup run.1 = 0%nat /\
  news_before_dedup run.1 = length today_news /\
  errors run.1 <> [] /\ run.2 = cache_dir /\
  fallback_to_no_merge config = false /\ enabled config = true /\
  today_news <> [].
Proof.
  intros run. subst run. unfold run_step4.
  destruct (enabled config); cbn [negb]; [|done].
  destruct today_news as [|n today_news]; [done|].
  destruct (_load_cached_news _ _ _ _) as [|k cached_news]; [done|].
  destruct (fallback_to_no_merge config).
  - destruct api_key as [[|c key]|]; try done.
    destruct (gemini _ _) as [e | pairs]; [done|].
    by destruct (_merge_duplicate_news _ _ _ _).
  - destruct api_key as [[|c key]|]; try done.
    destruct (gemini _ _) as [e | pairs]; [done|].
    by destruct (_merge_duplicate_news _ _ _ _).
Qed.

(** X23, on sample data: the API does not answer and the fallback is
    off. *)
Lemma run_step4_failure_leaves_cache_witness :
  let run :=
    run_step4 (set_order := first_occurrence_order) Samples.strptime
      Samples.strftime Samples.clock Step4Samples.unreachable
      "validation error" Step4Samples.without_fallback
      [Samples.today_gpt5] (Some "key") Samples.june_10_noon
      Samples.june_10_noon Samples.june_10_noon Step4Samples.yesterday in
  unique_news run.1 = [] /\ run.2 = Step4Samples.yesterday /\
  errors run.1 = ["Gemini API call failed: 503 Service Unavailable"].
Proof.
  intros run.
  destruct (run_step4_failure_leaves_cache
              (set_order := first_occurrence_order) Samples.strptime
              Samples.strftime Samples.clock Step4Samples.unreachable
              "validation error" Step4Samples.without_fallback
              [Samples.today_gpt5] (Some "key") Samples.june_10_noon
              Samples.june_10_noon Samples.june_10_noon
              Step4Samples.yesterday)
    as (Hnews & _ & _ & _ & Hdir & _).
  - vm_compute. reflexivity.
  - split; [exact Hnews|]. split; [exact Hdir|]. vm_compute. reflexivity.
Defined.

(** The shard that a save writes, and the files it leaves alone. *)
Lemma save_news_lookup strftime t news cache_dir :
  exists dir,
    _save_news_to_cache strftime t news cache_dir = Some dir /\
    dir !! ("news_" ++ strftime (day_of t))%string = Some (NewsData news) /\
    forall stem, stem <> ("news_" ++ strftime (day_of t))%string ->
      dir !! stem = default ∅ cache_dir !! stem.
Proof.
  unfold _save_news_to_cache. eexists. split; [done|].
  split; [apply lookup_insert_eq|].
  intros stem Hne. by apply lookup_insert_ne.
Qed.

(** X24.  A run of an enabled step on news of today that reports success
    has written what it returns: the shard of the day of its last save
    holds exactly the list [unique_news], and no other file changes but,
    at most, the shards of the days of its two saves.  Its counters
    [news_before_dedup] and [news_after_dedup] are the lengths of today's
    news and of the list returned; with the fallback used the list
    returned is today's news, with no cluster merged. *)
Theorem run_step4_saves_what_it_returns {set_order : PySetOrder}
    (strptime : string -> option Z) (strftime : Z -> string)
    (utcnow : nat -> Z)
    (gemini : list NewsCluster -> list NewsCluster
              -> string + list NewsDeduplicationPair)
    (validation_error : string) (config : Step4Config)
    (today_news : list NewsCluster) (api_key : option string)
    (now_load now_save now_resave : Z) (cache_dir : option news_dir) :
  let run := run_step4 strptime strftime utcnow gemini validation_error
               config today_news api_key now_load now_save now_resave
               cache_dir in
  enabled config = true -> today_news <> [] -> success run.1 = true ->
  (exists t dir,
     (t = now_save \/ t = now_resave) /\ run.2 = Some dir /\
     dir !! ("news_" ++ strftime (day_of t))%string
     = Some (NewsData (unique_news run.1)) /\
     forall stem,
       stem <> ("news_" ++ strftime (day_of now_save))%string ->
       stem <> ("news_" ++ strftime (day_of now_resave))%string ->
       dir !! stem = default ∅ cache_dir !! stem) /\
  news_before_dedup run.1 = length today_news /\
  news_after_dedup run.1 = length (unique_news run.1) /\
  (fallback_used run.1 = true ->
     unique_news run.1 = today_news /\ news_merged run.1 = 0%nat).
Proof.
  intros run Hen Hnews. subst run. unfold run_step4. rewrite Hen.
  cbn [negb]. destruct today_news as [|n today_news]; [done|].
  set (today := n :: today_news).
  assert (Hsaved : forall news,
    exists t dir,
      (t = now_save \/ t = now_resave) /\
      _save_news_to_cache strftime now_save news cache_dir = Some dir /\
      dir !! ("news_" ++ strftime (day_of t))%string = Some (NewsData news) /\
      forall stem,
        stem <> ("news_" ++ strftime (day_of now_save))%string ->
        stem <> ("news_" ++ strftime (day_of now_resave))%string ->
        dir !! stem = default ∅ cache_dir !! stem).
  { intros news.
    destruct (save_news_lookup strftime now_save news cache_dir)
      as (dir & Hdir & Hshard & Hrest).
    exists now_save, dir. split; [by left|]. split; [done|].
    split; [done|]. intros stem Hne _. by apply Hrest. }
  assert (Hresaved :
    exists t dir,
      (t = now_save \/ t = now_resave) /\
      _save_news_to_cache strftime now_resave today
        (_save_news_to_cache strftime now_save today cache_dir) = Some dir /\
      dir !! ("news_" ++ strftime (day_of t))%string = Some (NewsData today) /\
      forall stem,
        stem <> ("news_" ++ strftime (day_of now_save))%string ->
        stem <> ("news_" ++ strftime (day_of now_resave))%string ->
        dir !! stem = default ∅ cache_dir !! stem).
  { destruct (save_news_lookup strftime now_save today cache_dir)
      as (dir1 & Hdir1 & _ & Hrest1).
    destruct (save_news_lookup strftime now_resave today (Some dir1))
      as (dir2 & Hdir2 & Hshard2 & Hrest2).
    exists now_resave, dir2. split; [by right|]. rewrite Hdir1.
    split; [done|]. split; [done|].
    intros stem Hne1 Hne2. rewrite Hrest2 by done. by apply Hrest1. }
  destruct (_load_cached_news _ _ _ _) as [|k cached_news];
    [intros _; cbn [fst snd unique_news news_before_dedup news_after_dedup
                    fallback_used passed_on]; by repeat split|].
  destruct (fallback_to_no_merge config) eqn:Hfb.
  - destruct api_key as [[|c key]|];
      try (intros _; cbn [fst snd unique_news news_before_dedup
                          news_after_dedup fallback_used news_merged
                          passed_on]; by repeat split).
    destruct (gemini _ _) as [e | pairs];
      [intros _; cbn [fst snd unique_news news_before_dedup
                      news_after_dedup fallback_used news_merged];
       by repeat split|].
    destruct (_merge_duplicate_news _ _ _ _) as [unique|];
      intros _; cbn [fst snd unique_news news_before_dedup
                     news_after_dedup fallback_used news_merged];
      by repeat split.
  - destruct api_key as [[|c key]|]; try done.
    destruct (gemini _ _) as [e | pairs]; [done|].
    destruct (_merge_duplicate_news _ _ _ _) as [unique|]; [|done].
    intros _. cbn [fst snd unique_news news_before_dedup
                   news_after_dedup fallback_used news_merged].
    by repeat split.
Qed.

(** X24, on sample data: the API does not answer and the fallback is on;
    today's shard holds today's news after the run. *)
Lemma run_step4_saves_what_it_returns_witness :
  let run :=
    run_step4 (set_order := first_occurrence_order) Samples.strptime
      Samples.strftime Samples.clock Step4Samples.unreachable
      "validation error" Step4Samples.with_fallback
      [Samples.today_gpt5] (Some "key") Samples.june_10_noon
      Samples.june_10_noon Samples.june_10_noon Step4Samples.yesterday in
  unique_news run.1 = [Samples.today_gpt5] /\
  news_after_dedup run.1 = 1%nat /\
  shard_news run.2 "news_2024-06-10" = [Samples.today_gpt5].
Proof.
  intros run.
  destruct (run_step4_saves_what_it_returns
              (set_order := first_occurrence_order) Samples.strptime
              Samples.strftime Samples.clock Step4Samples.unreachable
              "validation error" Step4Samples.with_fallback
              [Samples.today_gpt5] (Some "key") Samples.june_10_noon
              Samples.june_10_noon Samples.june_10_noon
              Step4Samples.yesterday eq_refl)
    as (_ & _ & Hafter & Hfallback).
  - discriminate.
  - vm_compute. reflexivity.
  - destruct Hfallback as [Hnews _]; [vm_compute; reflexivity|].
    fold run in Hnews, Hafter. split; [exact Hnews|].
    split; [rewrite Hafter, Hnews; reflexivity|].
    vm_compute. reflexivity.
Defined.

(** X25.  On an enabled step with a key, validated news of today and an
    answer from the API, the run succeeds without fallback.  Every cached
    cluster that no judgment names as its cached side is in the list
    returned, and so is written again into today's shard, which reads
    back as the list returned.  When the name of today's shard reads
    back as today, a later load whose cutoff is not after today's
    midnight finds every cluster of the list returned. *)
Theorem cached_news_are_saved_again {set_order : PySetOrder}
    (strptime : string -> option Z) (strftime : Z -> string)
    (utcnow : nat -> Z)
    (gemini : list NewsCluster -> list NewsCluster
              -> string + list NewsDeduplicationPair)
    (validation_error : string) (config : Step4Config)
    (today_news : list NewsCluster) (c : ascii) (key : string)
    (now_load now_save now_resave : Z) (cache_dir : option news_dir)
    (duplicate_pairs : list NewsDeduplicationPair) :
  let cached_news :=
    _load_cached_news strptime cache_dir (lookback_days config) now_load in
  let run := run_step4 strptime strftime utcnow gemini validation_error
               config today_news (Some (String c key)) now_load now_save
               now_resave cache_dir in
  let today_stem := ("news_" ++ strftime (day_of now_save))%string in
  enabled config = true -> today_news <> [] ->
  Forall (fun n => validates n = true) today_news ->
  gemini today_news cached_news = inr duplicate_pairs ->
  success run.1 = true /\ fallback_used run.1 = false /\
  (forall k, k ∈ cached_news ->
     news_id k ∉ news_cached_id <$> duplicate_pairs ->
     k ∈ unique_news run.1) /\
  shard_news run.2 today_stem = unique_news run.1 /\
  (forall lookback later,
     strptime (last_field today_stem) = Some (day_of now_save) ->
     later - timedelta_days lookback <= midnight (day_of now_save) ->
     forall k, k ∈ unique_news run.1 ->
       k ∈ _load_cached_news strptime run.2 lookback later).
Proof.
  intros cached_news run today_stem Hen Hnews Hvalid Hgemini.
  assert (Hcached : Forall (fun n => validates n = true) cached_news)
    by apply load_cached_news_valid.
  assert (Hreload : forall news,
    Forall (fun n => validates n = true) news ->
    shard_news (_save_news_to_cache strftime now_save news cache_dir)
      today_stem = news /\
    forall lookback later,
      strptime (last_field today_stem) = Some (day_of now_save) ->
      later - timedelta_days lookback <= midnight (day_of now_save) ->
      forall k, k ∈ news ->
        k ∈ _load_cached_news strptime
              (_save_news_to_cache strftime now_save news cache_dir)
              lookback later).
  { intros news Hok.
    destruct (save_news_lookup strftime now_save news cache_dir)
      as (dir & Hdir & Hshard & _).
    rewrite Hdir. split.
    - unfold shard_news. cbn [from_option id]. fold today_stem in Hshard.
      by rewrite Hshard, load_valid.
    - intros lookback later Hname Hwindow k Hk.
      apply elem_of_load_cached_news. exists today_stem, (NewsData news).
      split; [done|]. unfold read_news_file. rewrite Hname.
      destruct (Z.ltb_spec (midnight (day_of now_save))
                  (later - timedelta_days lookback)); [lia|].
      by rewrite load_valid. }
  subst run. unfold run_step4. rewrite Hen. cbn [negb].
  destruct today_news as [|n today_rest]; [done|].
  fold cached_news.
  destruct cached_news as [|k0 cached_rest] eqn:Hload.
  - cbn [fst snd passed_on success fallback_used unique_news].
    split; [done|]. split; [done|].
    split; [by intros k ?%elem_of_nil|]. by apply Hreload.
  - rewrite Hgemini.
    destruct (Step4Facts.merge_sound utcnow (n :: today_rest)
                (k0 :: cached_rest) Hvalid Hcached duplicate_pairs)
      as (unique & Hmerge & Hsound).
    rewrite Hmerge.
    cbn [fst snd success fallback_used unique_news].
    split; [done|]. split; [done|]. split.
    + intros k Hk Hid. unfold _merge_duplicate_news in Hmerge.
      destruct (merge_loop utcnow _ _ duplicate_pairs _) as [st|] eqn:Hloop;
        [|done].
      cbn in Hmerge. injection Hmerge as <-. apply elem_of_app. left.
      by apply (Step4More.merge_loop_keeps utcnow _ _ _ _ _ _ Hloop).
    + apply Hreload. eapply Forall_impl; [exact Hsound|].
      by intros x [? _].
Qed.

(** X25, on sample data: yesterday's shard holds two clusters; one is
    merged with a cluster of today, the other is written again into
    today's shard. *)
Lemma cached_news_are_saved_again_witness :
  let run :=
    run_step4 (set_order := first_occurrence_order) Samples.strptime
      Samples.strftime Samples.clock Step4Samples.gemini
      "validation error" Step4Samples.with_fallback
      [Samples.today_gpt5] (Some "key") Samples.june_10_noon
      Samples.june_10_noon Samples.june_10_noon Step4Samples.yesterday in
  Samples.cached_wordy ∈ unique_news run.1 /\
  shard_news run.2 "news_2024-06-10" = unique_news run.1.
Proof.
  intros run.
  destruct (cached_news_are_saved_again
              (set_order := first_occurrence_order) Samples.strptime
              Samples.strftime Samples.clock Step4Samples.gemini
              "validation error" Step4Samples.with_fallback
              [Samples.today_gpt5] "k"%char "ey" Samples.june_10_noon
              Samples.june_10_noon Samples.june_10_noon
              Step4Samples.yesterday
              [Samples.judgment "news-today-0001234" "news-cache-0003333"]
              eq_refl)
    as (_ & _ & Hkept & Hshard & _).
  - discriminate.
  - repeat constructor.
  - reflexivity.
  - split; [|exact Hshard]. apply Hkept.
    + apply (bool_decide_unpack _). vm_compute. exact I.
    + apply (bool_decide_unpack _). vm_compute. exact I.
Defined.

End Step4RunFacts.
(** ** Across the steps: what step 1 writes and step 0 cleans *)

Module PipelineFacts.
Import Fs CacheManager Step0Cache Step0Facts.
Local Open Scope list_scope.

Lemma acquire_lock_file_same_lock t fs fs' :
  lock_file fs' = lock_file fs ->
  (acquire_lock_file t fs').1 = (acquire_lock_file t fs).1.
Proof.
  intros Hlock. unfold acquire_lock_file. fs_run. rewrite Hlock.
  destruct (lock_file fs) as [mtime|]; cbn; [|done].
  by destruct (_ <? _).
Qed.

(** Of the six keys of [run_step0], only [articles] names the file
    [articles.json]. *)
Lemma doomed_articles t fs articles_days news_days :
  doomed t fs (step0_policy articles_days news_days) "articles.json"
  = stale t fs "articles" articles_days.
Proof.
  unfold doomed, step0_policy. cbn [existsb fst snd].
  change (String.eqb "articles.json" (_get_cache_path "articles")) with true.
  change (String.eqb "articles.json" (_get_cache_path "news")) with false.
  change (String.eqb "articles.json" (_get_cache_path "processed_articles"))
    with false.
  change (String.eqb "articles.json" (_get_cache_path "clustered_articles"))
    with false.
  change (String.eqb "articles.json" (_get_cache_path "selected_articles"))
    with false.
  change (String.eqb "articles.json" (_get_cache_path "enhanced_news"))
    with false.
  cbn [andb orb]. by rewrite orb_false_r.
Qed.

(** X27.  The entry [articles.json] that a run of step 1 writes is there
    after a later run of step 0 exactly while less than [articles_days]
    times twenty-four hours have passed since step 1 ran: a run of step 0
    that gets the lock and cleans up with both retention periods
    configured keeps it until then and deletes it from then on. *)
Theorem step0_expires_step1_articles
    (sha256_hexdigest : string -> string)
    (re_compiles : string -> bool) (re_search : string -> string -> bool)
    (fetch : nat -> Step1Run.FeedConfig -> option (list Step1Run.RawArticle))
    (config1 : Step1Run.Step1Config) (feeds_config : Step1Run.FeedsConfig)
    (ingested_at : Z) (config0 : Step0Config) (env : environment)
    (fs : cache_fs) (articles_days news_days : Z)
    (result : Step1Run.Step1Result) :
  let ingested :=
    Step1Run.run_step1 sha256_hexdigest re_compiles re_search fetch config1
      feeds_config
      ingested_at fs in
  ingested.1 = Return result ->
  Step1Run.enabled config1 = true ->
  base.filter (fun f => Step1Run.feed_enabled f = true)
    (Step1Run.feeds feeds_config) <> [] ->
  (acquire_lock_file (now env) fs).1 = Return true ->
  mkdir_ok env = true -> cleanup_on_start config0 = true ->
  retention config0 !! "articles_days" = Some articles_days ->
  retention config0 !! "news_days" = Some news_days ->
  files (run_step0 config0 env ingested.2).2 !! "articles.json"
  = if bool_decide (now env < ingested_at + timedelta_days articles_days)
    then Some (Entry ingested_at) else None.
Proof.
  intros ingested Hrun Hen Hfeeds Hlock Hmkdir Hclean Harticles Hnews.
  destruct (Step1More.run_step1_cases _ _ _ _ _ _ _ _ _ Hrun)
    as [[[Hoff | Hnone] _] | (_ & _ & st & _ & Heq)]; [congruence | done |].
  subst ingested. rewrite Heq. cbn [snd].
  set (fs1 := {| files := <["articles.json" := Entry ingested_at]> (files fs);
                 lock_file := lock_file fs; backups := backups fs |}).
  assert (Hgot : (acquire_lock_file (now env) fs1).1 = Return true)
    by (by rewrite (acquire_lock_file_same_lock _ fs)).
  destruct (Step0More.run_step0_stages config0 env fs1 Hgot Hmkdir)
    as (fs2 & Hfiles & _ & _ & Hstep0).
  rewrite Hclean, (Step0More.cleanup_stage config0 env _ fs2 Hclean) in Hstep0.
  rewrite Harticles, Hnews in Hstep0. cbv zeta in Hstep0.
  destruct (cleanup_loop_spec (now env)
              (step0_policy articles_days news_days) 0 fs2)
    as (cleaned & fs3 & Hloop & _ & _ & Hdoomed & _).
  unfold cleanup in Hstep0. rewrite Hloop in Hstep0. cbn [fst snd] in Hstep0.
  rewrite Hstep0. cbn [snd files]. rewrite Hdoomed, doomed_articles.
  unfold stale. rewrite Hfiles. subst fs1. cbn [files].
  change (_get_cache_path "articles") with "articles.json".
  rewrite lookup_insert_eq, Step0More.whole_days_lt.
  assert (Hsame : bool_decide
                    (now env - ingested_at < timedelta_days articles_days)
                  = bool_decide
                      (now env < ingested_at + timedelta_days articles_days))
    by (apply bool_decide_ext; lia).
  rewrite Hsame.
  destruct (bool_decide
              (now env < ingested_at + timedelta_days articles_days));
    reflexivity.
Qed.

(** X27, on sample data: articles ingested at noon of 2024-06-01 are
    still cached after a clean-up nine days later and are gone after a
    clean-up ten days later, with ten days of retention. *)
Lemma step0_expires_step1_articles_witness :
  let config0 := {| retention := {[ "articles_days" := 10; "news_days" := 3 ]};
                    backup_on_error := false; cleanup_on_start := true |} in
  let env_at t := {| check_gemini := false; gemini_healthy := false;
                     repo_writable := true; mkdir_ok := true;
                     copytree := Copied; now := t |} in
  let ingested :=
    Step1Run.run_step1 Step1Samples.sha256_hexdigest Step1Samples.re_compiles
      Step1Samples.re_search Step1Samples.fetch Step1Samples.config
      {| Step1Run.feeds := [Step1Samples.example_feed] |}
      (midnight 19875) Step1Samples.empty_cache in
  files (run_step0 config0 (env_at (midnight 19884)) ingested.2).2
    !! "articles.json" = Some (Entry (midnight 19875)) /\
  files (run_step0 config0 (env_at (midnight 19885)) ingested.2).2
    !! "articles.json" = None.
Proof.
  intros config0 env_at ingested.
  assert (Hrun : exists result, ingested.1 = Return result)
    by (eexists; vm_compute; reflexivity).
  destruct Hrun as [result Hrun].
  assert (Hfeeds :
    base.filter (fun f => Step1Run.feed_enabled f = true)
      [Step1Samples.example_feed] <> []) by discriminate.
  split.
  - exact (step0_expires_step1_articles _ _ _ _ _ _ _ config0
             (env_at (midnight 19884)) _ 10 3 result Hrun eq_refl Hfeeds
             eq_refl eq_refl eq_refl eq_refl eq_refl).
  - exact (step0_expires_step1_articles _ _ _ _ _ _ _ config0
             (env_at (midnight 19885)) _ 10 3 result Hrun eq_refl Hfeeds
             eq_refl eq_refl eq_refl eq_refl eq_refl).
Defined.

(** *** What step 2 makes of the articles of step 1 *)

Lemma filter_ext_elem_of {A} (P Q : A -> Prop)
    `{!forall x, Decision (P x)} `{!forall x, Decision (Q x)} (l : list A) :
  (forall x, x ∈ l -> P x <-> Q x) -> base.filter P l = base.filter Q l.
Proof.
  induction l as [|x l IH]; intros Hext; [done|].
  rewrite !filter_cons.
  rewrite IH by (intros y Hy; by apply Hext, list_elem_of_further).
  destruct (decide (P x)) as [Hp | Hp], (decide (Q x)) as [Hq | Hq];
    try done; exfalso;
    pose proof (Hext x (list_elem_of_here _ _)) as Hx; tauto.
Qed.

(** On a batch with distinct slugs the loop of [run_step2] drops the
    articles whose slug is known at the start, and no other. *)
Lemma dedup_loop_distinct todo : forall slug_map unique duplicates,
  NoDup (Step2Dedup.slug <$> todo) ->
  Step2Dedup.dedup_loop todo slug_map unique duplicates
  = (foldl (fun m art => <[Step2Dedup.slug art := art]> m) slug_map
       (base.filter (fun a => slug_map !! Step2Dedup.slug a = None) todo),
     unique
     ++ base.filter (fun a => slug_map !! Step2Dedup.slug a = None) todo,
     (duplicates
      + length (base.filter
                  (fun a => is_Some (slug_map !! Step2Dedup.slug a)) todo))%nat).
Proof.
  induction todo as [|a todo IH]; intros slug_map unique duplicates Hnodup.
  - cbn. by rewrite app_nil_r, Nat.add_0_r.
  - rewrite fmap_cons in Hnodup. apply NoDup_cons in Hnodup as [Ha Hnodup].
    cbn [Step2Dedup.dedup_loop]. rewrite !filter_cons.
    destruct (decide (is_Some (slug_map !! Step2Dedup.slug a)))
      as [Hknown | Hnew].
    + rewrite decide_False
        by (intros Hnone; rewrite Hnone in Hknown; by destruct Hknown).
      rewrite IH by done. f_equal. cbn [length]. lia.
    + apply eq_None_not_Some in Hnew. rewrite decide_True by done.
      rewrite IH by done. cbn [foldl].
      assert (Hother : forall b, b ∈ todo ->
                <[Step2Dedup.slug a := a]> slug_map !! Step2Dedup.slug b
                = slug_map !! Step2Dedup.slug b).
      { intros b Hb. apply lookup_insert_ne. intros Heq. apply Ha.
        rewrite Heq. by apply list_elem_of_fmap_2. }
      rewrite (filter_ext_elem_of
                 (fun b => <[Step2Dedup.slug a := a]> slug_map
                             !! Step2Dedup.slug b = None)
                 (fun b => slug_map !! Step2Dedup.slug b = None) todo)
        by (intros b Hb; by rewrite Hother).
      rewrite (filter_ext_elem_of
                 (fun b => is_Some (<[Step2Dedup.slug a := a]> slug_map
                                      !! Step2Dedup.slug b))
                 (fun b => is_Some (slug_map !! Step2Dedup.slug b)) todo)
        by (intros b Hb; by rewrite Hother).
      by rewrite <- app_assoc.
Qed.

(** X28.  Step 2 on the articles of a run of step 1: since step 1 hands
    out distinct slugs, no article of the batch is dropped as a duplicate
    of another article of the batch.  The unique articles are exactly the
    articles of step 1 whose slug is not the slug of a cached article, in
    the order of step 1, and [duplicates_found] is the number of the
    others. *)
Theorem step2_drops_only_cached_slugs
    (sha256_hexdigest : string -> string)
    (re_compiles : string -> bool) (re_search : string -> string -> bool)
    (fetch : nat -> Step1Run.FeedConfig -> option (list Step1Run.RawArticle))
    (config1 : Step1Run.Step1Config) (feeds_config : Step1Run.FeedsConfig)
    (ingested_at : Z) (fs : cache_fs) (result : Step1Run.Step1Result)
    (strptime : string -> option Z) (strftime : Z -> string)
    (now_load now_save : Z) (dir : Step2Dedup.directory) :
  (Step1Run.run_step1 sha256_hexdigest re_compiles re_search fetch config1
    feeds_config
     ingested_at fs).1 = Return result ->
  let cached :=
    (Step2Dedup._load_cached_articles strptime (Some dir)
       (now_load - timedelta_days 10)).1 in
  let deduplicated :=
    (Step2Dedup.run_step2 strptime strftime now_load now_save
       (Step1Run.articles result) dir).1 in
  Step2Dedup.unique_articles deduplicated
  = base.filter
      (fun a => Step2Dedup.slug a ∉ Step2Dedup.slug <$> cached)
      (Step1Run.articles result) /\
  Step2Dedup.duplicates_found (Step2Dedup.stats deduplicated)
  = length (base.filter
              (fun a => Step2Dedup.slug a ∈ Step2Dedup.slug <$> cached)
              (Step1Run.articles result)).
Proof.
  intros Hrun cached deduplicated. subst deduplicated.
  rewrite Step2More.run_step2_result. cbv zeta. fold cached.
  cbn [Step2Dedup.unique_articles Step2Dedup.stats
       Step2Dedup.duplicates_found].
  assert (Hnodup : NoDup (Step2Dedup.slug <$> Step1Run.articles result)).
  { destruct (Step1More.run_step1_cases _ _ _ _ _ _ _ _ _ Hrun)
      as [[_ Heq] | (_ & _ & st & Hfeeds & Heq)];
      rewrite Heq in Hrun; injection Hrun as <-; cbn [Step1Run.articles];
      [constructor|].
    destruct (Step1More.ingest_feeds_ok _ _ _ _ _ _ Hfeeds
                (Step1More.slugs_ok_initial _)) as ((Hnodup & _) & _).
    by rewrite (Step1More.sorted_reverse_Permutation _ _). }
  rewrite dedup_loop_distinct by done. cbn [fst snd app Nat.add].
  split.
  - apply filter_ext_elem_of. intros a _.
    rewrite <- Step2Facts.slug_map_of_known. apply eq_None_not_Some.
  - f_equal. apply filter_ext_elem_of. intros a _.
    apply Step2Facts.slug_map_of_known.
Qed.

(** X28, on sample data: two articles with one title, an empty article
    cache; both come out of step 2. *)
Lemma step2_drops_only_cached_slugs_witness :
  exists result,
    (Step1Run.run_step1 Step1Samples.sha256_hexdigest Step1Samples.re_compiles
       Step1Samples.re_search Step1Samples.fetch Step1Samples.config
       {| Step1Run.feeds := [Step1Samples.example_feed] |} 0
       Step1Samples.empty_cache).1 = Return result /\
    length (Step2Dedup.unique_articles
              (Step2Dedup.run_step2 Samples.strptime Samples.strftime
                 Samples.june_10_noon Samples.june_10_noon
                 (Step1Run.articles result) ∅).1) = 2%nat.
Proof.
  assert (Hrun : exists result,
    (Step1Run.run_step1 Step1Samples.sha256_hexdigest Step1Samples.re_compiles
       Step1Samples.re_search Step1Samples.fetch Step1Samples.config
       {| Step1Run.feeds := [Step1Samples.example_feed] |} 0
       Step1Samples.empty_cache).1 = Return result /\
    length (Step1Run.articles result) = 2%nat)
    by (eexists; split; vm_compute; reflexivity).
  destruct Hrun as (result & Hrun & Hlen). exists result.
  split; [exact Hrun|].
  destruct (step2_drops_only_cached_slugs _ _ _ _ _ _ _ _ _
              Samples.strptime Samples.strftime Samples.june_10_noon
              Samples.june_10_noon ∅ Hrun) as [Hunique _].
  rewrite Hunique, <- Hlen. f_equal.
  assert (Hcached :
    (Step2Dedup._load_cached_articles Samples.strptime (Some ∅)
       (Samples.june_10_noon - timedelta_days 10)).1 = [])
    by reflexivity.
  rewrite Hcached. clear Hrun Hlen Hunique.
  induction (Step1Run.articles result) as [|a l IH]; [done|].
  rewrite filter_cons_True by (by intros ?%elem_of_nil). by rewrite IH.
Defined.

End PipelineFacts.
